(** * power-tasker-mobile: key vault, command signing and device registry

    A shallow embedding of the TypeScript sources
    - [app/add-device.tsx]   (registration: [bytesToHex], [uint8ArrayToWordArray],
                              [validateInputs], [encryptPrivateKey], [getPublicKey],
                              [loadExistingDevices], [saveDevice]),
    - [app/sign-send.tsx]    ([etc.hmacSha256Sync], [decryptPrivateKey], [signCommand],
                              [handleSign]),
    - [app/edit-device.tsx]  ([saveChanges], [deleteDevice]),
    - [app/index.tsx]        ([checkDeviceStatus]).

    JavaScript strings are [string]s, a [Uint8Array] is a [list byte], a 32-bit
    word is a [Z] with its wrap-around written out, and everything the screens
    read from their surroundings (the random source, the clock, the devices
    file) is threaded through a state monad over [World]. *)

From Stdlib Require Import ZArith List Bool Lia.
From Stdlib.Strings Require Import String Ascii Byte.
Import ListNotations.

Local Open Scope string_scope.
Local Open Scope list_scope.
Local Open Scope Z_scope.

(** String concatenation, JavaScript's [+] on strings. *)
Infix "+++" := String.append (right associativity, at level 60).

(* ================================================================== *)
(** ** JavaScript strings and numbers *)
(* ================================================================== *)

Module JS.

(** The code unit of a character, as a number. *)
Definition code (c : ascii) : Z := Z.of_N (N_of_ascii c).

Definition ofCode (z : Z) : ascii := ascii_of_N (Z.to_N (z mod 256)).

(** [s.length] *)
Definition len (s : string) : Z := Z.of_nat (String.length s).

(** [s.slice(start, end)]; [end_ = None] is the one-argument call.  Negative
    positions count from the end, and both are clamped to the string. *)
Definition slice (s : string) (start : Z) (end_ : option Z) : string :=
  let n := len s in
  let from := if start <? 0 then Z.max (n + start) 0 else Z.min start n in
  let e := match end_ with Some e => e | None => n end in
  let to := if e <? 0 then Z.max (n + e) 0 else Z.min e n in
  substring (Z.to_nat from) (Z.to_nat (Z.max (to - from) 0)) s.

(** The filler of [padStart]/[padEnd]: [pad] repeated and cut to [n] characters. *)
Fixpoint filler (n : nat) (pad cur : string) : string :=
  match n with
  | O => ""
  | S n' =>
      match cur with
      | String c rest => String c (filler n' pad rest)
      | EmptyString =>
          match pad with
          | String c rest => String c (filler n' pad rest)
          | EmptyString => ""
          end
      end
  end.

(** [s.padStart(targetLength, pad)] *)
Definition padStart (s : string) (targetLength : Z) (pad : string) : string :=
  if (targetLength <=? len s) || (pad =? "")%string then s
  else filler (Z.to_nat (targetLength - len s)) pad pad +++ s.

(** [s.endsWith(suffix)] for a one-character suffix. *)
Fixpoint endsWithChar (s : string) (c : ascii) : bool :=
  match s with
  | EmptyString => false
  | String a EmptyString => Ascii.eqb a c
  | String _ rest => endsWithChar rest c
  end.

(** The digit characters of [Number.prototype.toString(radix)]. *)
Definition digitChar (d : Z) : ascii :=
  if d <? 10 then ofCode (48 + d) else ofCode (87 + d).

Fixpoint toStringRadix_aux (fuel : nat) (radix n : Z) (acc : string) : string :=
  match fuel with
  | O => acc
  | S fuel' =>
      let acc' := String (digitChar (n mod radix)) acc in
      if n / radix =? 0 then acc' else toStringRadix_aux fuel' radix (n / radix) acc'
  end.

(** [n.toString(radix)] for an integer [n >= 0] and [2 <= radix <= 36]. *)
Definition toStringRadix (radix n : Z) : string :=
  toStringRadix_aux (S (Z.to_nat (Z.log2 n))) radix n "".

(** The value of a digit of [parseInt(_, 16)], if it is one. *)
Definition hexValue (c : ascii) : option Z :=
  let k := code c in
  if (48 <=? k) && (k <=? 57) then Some (k - 48)
  else if (97 <=? k) && (k <=? 102) then Some (k - 87)
  else if (65 <=? k) && (k <=? 70) then Some (k - 55)
  else None.

Definition isHexDigit (c : ascii) : bool :=
  match hexValue c with Some _ => true | None => false end.

Definition isDigit (c : ascii) : bool :=
  let k := code c in (48 <=? k) && (k <=? 57).

(** White space and line terminators among the code units below 256, as
    [trim] and [parseInt] skip them. *)
Definition isWhiteSpace (c : ascii) : bool :=
  let k := code c in
  ((9 <=? k) && (k <=? 13)) || (k =? 32) || (k =? 160).

(** Line terminators among the code units below 256: what [.] does not match. *)
Definition isLineTerminator (c : ascii) : bool :=
  let k := code c in (k =? 10) || (k =? 13).

Fixpoint trimStart (s : string) : string :=
  match s with
  | String c rest => if isWhiteSpace c then trimStart rest else s
  | EmptyString => ""
  end.

Fixpoint trimEnd (s : string) : string :=
  match s with
  | EmptyString => ""
  | String c rest =>
      match trimEnd rest with
      | EmptyString => if isWhiteSpace c then "" else String c ""
      | r => String c r
      end
  end.

(** [s.trim()] *)
Definition trim (s : string) : string := trimEnd (trimStart s).

(** The digits [parseInt] reads: the longest prefix of hexadecimal digits,
    accumulated from [acc]; the flag says whether a digit was read. *)
Fixpoint hexPrefix (s : string) (acc : Z) (seen : bool) : Z * bool :=
  match s with
  | String c rest =>
      match hexValue c with
      | Some d => hexPrefix rest (16 * acc + d) true
      | None => (acc, seen)
      end
  | EmptyString => (acc, seen)
  end.

Definition strip0x (s : string) : string :=
  match s with
  | String "0" (String "x" rest) => rest
  | String "0" (String "X" rest) => rest
  | _ => s
  end.

(** [parseInt(s, 16)]; [None] is [NaN]. *)
Definition parseInt16 (s : string) : option Z :=
  let s1 := trimStart s in
  let '(sign, s2) :=
    match s1 with
    | String "-" rest => (-1, rest)
    | String "+" rest => (1, rest)
    | _ => (1, s1)
    end in
  match hexPrefix (strip0x s2) 0 false with
  | (v, true) => Some (sign * v)
  | (_, false) => None
  end.

(** [ToInt32]: the signed 32-bit integer a bit operation sees. *)
Definition toInt32 (z : Z) : Z := (z + 2 ^ 31) mod 2 ^ 32 - 2 ^ 31.

(** [ToUint32] *)
Definition toUint32 (z : Z) : Z := z mod 2 ^ 32.

(** A number as a bit operation reads it: [NaN] and [undefined] are 0. *)
Definition int32OfNumber (v : option Z) : Z :=
  match v with Some z => toInt32 z | None => 0 end.

(** [a << n] *)
Definition shl (a n : Z) : Z := toInt32 (Z.shiftl (toInt32 a) (n mod 32)).

(** [a | b] *)
Definition bor (a b : Z) : Z := toInt32 (Z.lor (toInt32 a) (toInt32 b)).

(** [a & b] *)
Definition band (a b : Z) : Z := toInt32 (Z.land (toInt32 a) (toInt32 b)).

(** [a >>> n] *)
Definition shru (a n : Z) : Z := Z.shiftr (toUint32 a) (n mod 32).

(** The numbers [0, step, 2*step, ...] below [bound]: the values a loop
    [for (i = 0; i < bound; i += step)] gives its counter. *)
Definition countTo (bound step : Z) : list Z :=
  map (fun k => Z.of_nat k * step) (seq 0 (Z.to_nat ((bound + step - 1) / step))).

End JS.

(* ================================================================== *)
(** ** Bytes *)
(* ================================================================== *)

(** The value of an element of a [Uint8Array]. *)
Definition byteVal (b : byte) : Z := Z.of_N (Byte.to_N b).

(** Storing a number into a [Uint8Array]: [NaN] is 0, others wrap modulo 256. *)
Definition toUint8 (v : option Z) : byte :=
  match v with
  | Some z => match Byte.of_N (Z.to_N (z mod 256)) with Some b => b | None => x00 end
  | None => x00
  end.

(** [arr[i]] read as a number by [arr[i] || 0]: out of range is [undefined],
    so 0; an element that is 0 is falsy, so 0 as well. *)
Definition elemOr0 (arr : list byte) (i : Z) : Z :=
  if i <? 0 then 0 else byteVal (nth (Z.to_nat i) arr x00).

(** [bytesToHex] of add-device.tsx:
    [Array.from(bytes).map((byte) => byte.toString(16).padStart(2, "0")).join("")] *)
Definition bytesToHex (bytes : list byte) : string :=
  String.concat ""
    (map (fun b => JS.padStart (JS.toStringRadix 16 (byteVal b)) 2 "0") bytes).

(* ================================================================== *)
(** ** CryptoJS word arrays *)
(* ================================================================== *)

(** [CryptoJS.lib.WordArray]: big-endian 32-bit words and the number of
    bytes of them that count. *)
Record WordArray : Type := mkWordArray { words : list Z; sigBytes : Z }.

(** One word of [uint8ArrayToWordArray]:
    [((arr[i] || 0) << 24) | ((arr[i + 1] || 0) << 16) | ((arr[i + 2] || 0) << 8) | (arr[i + 3] || 0)] *)
Definition wordAt (arr : list byte) (i : Z) : Z :=
  JS.bor
    (JS.bor
       (JS.bor (JS.shl (elemOr0 arr i) 24) (JS.shl (elemOr0 arr (i + 1)) 16))
       (JS.shl (elemOr0 arr (i + 2)) 8))
    (elemOr0 arr (i + 3)).

(** [uint8ArrayToWordArray] of add-device.tsx: the loop
    [for (let i = 0; i < arr.length; i += 4) words.push(...)], then
    [WordArray.create(words, arr.length)]. *)
Definition uint8ArrayToWordArray (arr : list byte) : WordArray :=
  let n := Z.of_nat (List.length arr) in
  {| words := fold_left (fun ws i => ws ++ [wordAt arr i]) (JS.countTo n 4) [];
     sigBytes := n |}.

Module CryptoJS.

(** [words[k] |= v] on a JavaScript array: past the end the array grows, and
    what was never written reads as [undefined], which [|] takes for 0. *)
Fixpoint orAt (ws : list Z) (k : nat) (v : Z) : list Z :=
  match ws, k with
  | w :: rest, O => JS.bor w v :: rest
  | w :: rest, S k' => w :: orAt rest k' v
  | [], O => [JS.bor 0 v]
  | [], S k' => 0 :: orAt [] k' v
  end.

(** [CryptoJS.enc.Hex.parse]:
    [for (i = 0; i < hexStrLength; i += 2)
       words[i >>> 3] |= parseInt(hexStr.substr(i, 2), 16) << (24 - (i % 8) * 4);]
    and [sigBytes = hexStrLength / 2] (an integer for the strings of even
    length that the blob's header gives). *)
Definition Hex_parse (hexStr : string) : WordArray :=
  let n := JS.len hexStr in
  {| words :=
       fold_left
         (fun ws i =>
            orAt ws (Z.to_nat (JS.shru i 3))
              (JS.shl (JS.int32OfNumber (JS.parseInt16 (substring (Z.to_nat i) 2 hexStr)))
                      (24 - (i mod 8) * 4)))
         (JS.countTo n 2) [];
     sigBytes := n / 2 |}.

(** Byte [i] of a word array, as every encoder of the library reads it:
    [(words[i >>> 2] >>> (24 - (i % 4) * 8)) & 0xff]. *)
Definition byteAt (wa : WordArray) (i : Z) : byte :=
  toUint8 (Some (JS.band (JS.shru (nth (Z.to_nat (JS.shru i 2)) (words wa) 0)
                                  (24 - (i mod 4) * 8)) 255)).

(** The [sigBytes] bytes a word array stands for. *)
Definition bytesOf (wa : WordArray) : list byte :=
  map (byteAt wa) (JS.countTo (sigBytes wa) 1).

End CryptoJS.

(** [wordArray.toString(CryptoJS.enc.Hex)] and [Buffer.toString("hex")] on the
    bytes: two lower-case digits per byte. *)
Definition hexOfBytes (bs : list byte) : string :=
  String.concat ""
    (map (fun b => String (JS.digitChar (byteVal b / 16))
                     (String (JS.digitChar (byteVal b mod 16)) "")) bs).

(** [Buffer.from(s, "hex")]: pairs of hexadecimal digits, up to the first
    pair that is not one; a last odd digit is dropped. *)
Fixpoint Buffer_from_hex (s : string) : list byte :=
  match s with
  | String a (String b rest) =>
      match JS.hexValue a, JS.hexValue b with
      | Some x, Some y => toUint8 (Some (16 * x + y)) :: Buffer_from_hex rest
      | _, _ => []
      end
  | _ => []
  end.

(** UTF-8 of a string whose code units are below 256 ([Buffer.from(s, "utf-8")]
    and [CryptoJS.enc.Utf8.parse] agree there): one byte below 128, two above. *)
Fixpoint utf8Encode (s : string) : list byte :=
  match s with
  | EmptyString => []
  | String c rest =>
      let k := JS.code c in
      if k <? 128 then toUint8 (Some k) :: utf8Encode rest
      else toUint8 (Some (192 + k / 64)) :: toUint8 (Some (128 + k mod 64))
             :: utf8Encode rest
  end.

(* ================================================================== *)
(** ** The surroundings of the screens *)
(* ================================================================== *)

(** A record of [devices.json]. *)
Record Device : Type := mkDevice {
  pubkey : string;
  deviceName : string;
  relayUrl : string;
  encryptedPrivKey : string
}.

(** The devices file: absent, holding text that [JSON.parse] refuses or that
    is no array, or holding the array [JSON.stringify] wrote. *)
Inductive DevicesFile : Type :=
| Missing
| Garbled
| Stored (devices : list Device).

(** A request to the relay: [POST .../api/request/last-active] with the
    public key, or [POST .../api/request/send-command] with the public key,
    the signature and the command. *)
Inductive Request : Type :=
| LastActive (url pubkey : string)
| SendCommand (url pubkey signature command : string).

(** What [fetch] gives back: a rejected promise, a response that is not
    [ok], or an [ok] response whose body has the field [lastfetched] as a
    string ([None]: the body is no JSON, or has no such string). *)
Inductive Response : Type :=
| NetworkError
| NotOk
| Ok (lastfetched : option string).

(** What a run reads from outside: the secure random source as a tape of
    bytes with the position of the next one, the clock in milliseconds since
    the epoch, the devices file, the relay, and the requests sent so far
    (the latest first). *)
Record World : Type := mkWorld {
  tape : nat -> byte;
  pos : nat;
  clock : Z;
  file : DevicesFile;
  relay : Request -> Response;
  sent : list Request
}.

(** Computations that read and change the world. *)
Definition M (A : Type) : Type := World -> A * World.

Definition ret {A : Type} (a : A) : M A := fun w => (a, w).

Definition bind {A B : Type} (m : M A) (k : A -> M B) : M B :=
  fun w => let '(a, w') := m w in k a w'.

Declare Scope world_scope.
Delimit Scope world_scope with world.
Notation "x <- m ;; k" := (bind m (fun x => k))
  (at level 61, m at next level, right associativity) : world_scope.
Local Open Scope world_scope.

(** [Crypto.getRandomBytesAsync(n)] and noble's [etc.randomBytes(n)]: the
    next [n] bytes of the tape. *)
Definition getRandomBytes (n : nat) : M (list byte) :=
  fun w => (map (fun k => tape w (pos w + k)%nat) (seq 0 n),
            mkWorld (tape w) (pos w + n)%nat (clock w) (file w) (relay w) (sent w)).

(** [new Date().getTime()] *)
Definition currentTime : M Z := fun w => (clock w, w).

(** [FileSystem.readAsStringAsync(DEVICES_FILE)] followed by [JSON.parse]:
    [None] when either throws. *)
Definition readDevices : M (option (list Device)) :=
  fun w => (match file w with Stored ds => Some ds | _ => None end, w).

(** [FileSystem.writeAsStringAsync(DEVICES_FILE, JSON.stringify(devices, null, 2))] *)
Definition writeDevices (ds : list Device) : M unit :=
  fun w => (tt, mkWorld (tape w) (pos w) (clock w) (Stored ds) (relay w) (sent w)).

(** [await fetch(url, { method: "POST", body })] *)
Definition fetch (req : Request) : M Response :=
  fun w => (relay w req,
            mkWorld (tape w) (pos w) (clock w) (file w) (relay w) (req :: sent w)).

(** [Alert.alert(title, message)]: what an operation tells the user. *)
Record Alert : Type := mkAlert { title : string; message : string }.

(* ================================================================== *)
(** ** @noble/secp256k1 (version 2): the curve, keys and signatures *)
(* ================================================================== *)

Module Noble.

(** The field prime, the group order and the base point of secp256k1. *)
Definition P : Z :=
  0xFFFFFFFFFFFFFFFFFFFFFFFFFFFFFFFFFFFFFFFFFFFFFFFFFFFFFFFEFFFFFC2F.
Definition N : Z :=
  0xFFFFFFFFFFFFFFFFFFFFFFFFFFFFFFFEBAAEDCE6AF48A03BBFD25E8CD0364141.
Definition Gx : Z :=
  0x79BE667EF9DCBBAC55A06295CE870B07029BFCDB2DCE28D959F2815B16F81798.
Definition Gy : Z :=
  0x483ADA7726A3C4655DA4FBFC0E1108A8FD17B448A68554199C47D08FFB10D4B8.

(** The loop of [inv]: Euclid's algorithm on [(a, b)] with the coefficients
    [(x, y)] and [(u, v)]; it ends when [a] is 0 and gives [(b, x)]. *)
Fixpoint invLoop (fuel : nat) (a b x y u v : Z) : Z * Z :=
  match fuel with
  | O => (b, x)
  | S fuel' =>
      if a =? 0 then (b, x)
      else
        let q := b / a in
        let r := b mod a in
        invLoop fuel' r a u v (x - u * q) (y - v * q)
  end.

(** [inv(num, md)]: the inverse of [num] modulo [md].  Where the library
    throws (no inverse) the model gives 0; the loop halves [a] at least every
    second turn, so twice the length of [md] is fuel enough. *)
Definition inv (num md : Z) : Z :=
  if (num mod md =? 0) || (md <=? 0) then 0
  else
    let '(b, x) :=
      invLoop (2 * Z.to_nat (Z.log2 md) + 4) (num mod md) md 0 1 1 0 in
    if b =? 1 then x mod md else 0.

(** A point of the curve in affine coordinates, or the point at infinity. *)
Inductive Point : Type :=
| Zero
| Affine (x y : Z).

Definition double (p : Point) : Point :=
  match p with
  | Zero => Zero
  | Affine x y =>
      if y =? 0 then Zero
      else
        let l := (3 * x * x * inv (2 * y) P) mod P in
        let x3 := (l * l - 2 * x) mod P in
        Affine x3 ((l * (x - x3) - y) mod P)
  end.

Definition add (p q : Point) : Point :=
  match p, q with
  | Zero, _ => q
  | _, Zero => p
  | Affine x1 y1, Affine x2 y2 =>
      if x1 =? x2 then
        if y1 =? y2 then double p else Zero
      else
        let l := ((y2 - y1) * inv (x2 - x1) P) mod P in
        let x3 := (l * l - x1 - x2) mod P in
        Affine x3 ((l * (x1 - x3) - y1) mod P)
  end.

Fixpoint mulPos (k : positive) (p : Point) : Point :=
  match k with
  | xH => p
  | xO k' => double (mulPos k' p)
  | xI k' => add p (double (mulPos k' p))
  end.

(** [p.mul(k)] *)
Definition mul (k : Z) (p : Point) : Point :=
  match k with
  | Zpos k' => mulPos k' p
  | _ => Zero
  end.

Definition G : Point := Affine Gx Gy.

(** [n2b]: a number below [2^256] as 32 big-endian bytes. *)
Definition n2b (n : Z) : list byte :=
  map (fun i => toUint8 (Some (n / 2 ^ (8 * (31 - Z.of_nat i))))) (seq 0 32).

(** [b2n]: big-endian bytes as a number. *)
Definition b2n (bs : list byte) : Z :=
  fold_left (fun acc b => 256 * acc + byteVal b) bs 0.

(** [ge(n)]: [0 < n < N]. *)
Definition ge (n : Z) : bool := (0 <? n) && (n <? N).

(** [toPriv]: the scalar of a private key given as bytes; [None] where the
    library throws (not 32 bytes, or out of range). *)
Definition toPriv (priv : list byte) : option Z :=
  if (List.length priv =? 32)%nat then
    let d := b2n priv in if ge d then Some d else None
  else None.

(** [point.aff()]: the affine coordinates, [(0, 0)] for the point at
    infinity. *)
Definition aff (p : Point) : Z * Z :=
  match p with
  | Zero => (0, 0)
  | Affine x y => (x, y)
  end.

(** [point.toRawBytes(isCompressed)]: [02] or [03] and X, or [04], X and Y. *)
Definition toRawBytes (p : Point) (isCompressed : bool) : list byte :=
  let '(x, y) := aff p in
  if isCompressed then (if Z.even y then x02 else x03) :: n2b x
  else x04 :: n2b x ++ n2b y.

(** [getPublicKey(privKey, isCompressed = true)]: an omitted second argument
    ([None]) asks for the compressed encoding. *)
Definition getPublicKey (privKey : list byte) (isCompressed : option bool)
  : option (list byte) :=
  match toPriv privKey with
  | Some d =>
      Some (toRawBytes (mul d G)
              (match isCompressed with Some c => c | None => true end))
  | None => None
  end.

(** [Signature]: [r], [s] and the recovery bit. *)
Record Signature : Type := mkSignature { r : Z; s : Z; recovery : Z }.

(** [signature.toCompactRawBytes()]: [r] then [s], 32 bytes each. *)
Definition toCompactRawBytes (sig : Signature) : list byte :=
  n2b (r sig) ++ n2b (s sig).

(** [bits2int]: the leftmost 256 bits of the bytes, as a number. *)
Definition bits2int (bs : list byte) : Z :=
  let delta := Z.of_nat (List.length bs) * 8 - 256 in
  if 0 <? delta then Z.shiftr (b2n bs) delta else b2n bs.

(** The options of [sign]: [lowS] (default [true]) and [extraEntropy]. *)
Record SignOpts : Type := mkSignOpts { lowS : option bool; extraEntropy : bool }.

(** [optS], the options of a call that gives none. *)
Definition optS : SignOpts := {| lowS := Some true; extraEntropy := false |}.

Section Sign.

(** [etc.hmacSha256Sync(key, ...messages)], which the application installs. *)
Variable hmacSha256Sync : list byte -> list (list byte) -> list byte.

(** [k2sig] of [prepSig]: the signature that the nonce [kBytes] gives for the
    message [m] under the key [d], or nothing when the nonce does not do. *)
Definition k2sig (low : bool) (m d : Z) (kBytes : list byte) : option Signature :=
  let k := bits2int kBytes in
  if negb (ge k) then None
  else
    let ik := inv k N in
    match mul k G with
    | Zero => None
    | Affine qx qy =>
        let r := qx mod N in
        if r =? 0 then None
        else
          let s := (ik * ((m + (d * r) mod N) mod N)) mod N in
          if s =? 0 then None
          else
            let rec := Z.lor (if qx =? r then 0 else 2) (Z.land qy 1) in
            if low && (Z.shiftr N 1 <? s)
            then Some (mkSignature r ((- s) mod N) (Z.lxor rec 1))
            else Some (mkSignature r s rec)
    end.

(** [reseed(seed)] of [hmacDrbg], on the state [(k, v)]. *)
Definition reseed (kv : list byte * list byte) (seed : list byte)
  : list byte * list byte :=
  let '(k, v) := kv in
  let k1 := hmacSha256Sync k [v; [x00]; seed] in
  let v1 := hmacSha256Sync k1 [v] in
  match seed with
  | [] => (k1, v1)
  | _ =>
      let k2 := hmacSha256Sync k1 [v1; [x01]; seed] in
      (k2, hmacSha256Sync k2 [v1])
  end.

(** The loop [while (!(res = pred(gen()))) reseed();] of [hmacDrbg]; [gen]
    throws at its 1001st call, which is the fuel running out. *)
Fixpoint drbgLoop {A : Type} (fuel : nat) (pred : list byte -> option A)
  (kv : list byte * list byte) : option A :=
  match fuel with
  | O => None
  | S fuel' =>
      let '(k, v) := kv in
      let v' := hmacSha256Sync k [v] in
      match pred v' with
      | Some res => Some res
      | None => drbgLoop fuel' pred (reseed (k, v') [])
      end
  end.

(** [hmacDrbg(false)(seed, pred)]: [v] starts as 32 bytes of 1 and [k] as 32
    bytes of 0. *)
Definition hmacDrbg {A : Type} (seed : list byte) (pred : list byte -> option A)
  : option A :=
  drbgLoop 1000 pred (reseed (repeat x00 32, repeat x01 32) seed).

(** [sign(msgh, priv, opts)]: deterministic nonces from the HMAC-DRBG over the
    key and the message hash; only [extraEntropy] draws from the random
    source.  [None] where the library throws. *)
Definition sign (msgh priv : list byte) (opts : SignOpts)
  : M (option Signature) :=
  let low := match lowS opts with Some b => b | None => true end in
  let h1i := bits2int msgh mod N in
  let h1o := n2b h1i in
  match toPriv priv with
  | None => ret None
  | Some d =>
      ent <- (if extraEntropy opts then getRandomBytes 32 else ret []) ;;
      ret (hmacDrbg (n2b d ++ h1o ++ ent) (k2sig low h1i d))
  end.

End Sign.

End Noble.

(* ================================================================== *)
(** ** Dates *)
(* ================================================================== *)

Module Date.

(** A time value is a number of milliseconds since the epoch, in UTC. *)
Definition msPerDay : Z := 86400000.

Definition Day (t : Z) : Z := t / msPerDay.

Definition HourFromTime (t : Z) : Z := (t / 3600000) mod 24.
Definition MinFromTime (t : Z) : Z := (t / 60000) mod 60.
Definition SecFromTime (t : Z) : Z := (t / 1000) mod 60.
Definition msFromTime (t : Z) : Z := t mod 1000.

(** The day of a 400-year era, counted from 1 March, as year of the era
    and day of that year. *)
Definition yearOfEra (doe : Z) : Z :=
  (doe - doe / 1460 + doe / 36524 - doe / 146096) / 365.

Definition dayOfYear (doe : Z) : Z :=
  let yoe := yearOfEra doe in doe - (365 * yoe + yoe / 4 - yoe / 100).

(** The civil date [(year, month, day)] of a day number, month and day
    counted from 1, in the proleptic Gregorian calendar. *)
Definition civil (day : Z) : Z * Z * Z :=
  let z := day + 719468 in
  let era := z / 146097 in
  let doe := z - era * 146097 in
  let y := yearOfEra doe + era * 400 in
  let doy := dayOfYear doe in
  let mp := (5 * doy + 2) / 153 in
  let d := doy - (153 * mp + 2) / 5 + 1 in
  let m := if mp <? 10 then mp + 3 else mp - 9 in
  (if m <=? 2 then y + 1 else y, m, d).

Definition YearFromTime (t : Z) : Z := fst (fst (civil (Day t))).

(** [MonthFromTime]: 0 for January. *)
Definition MonthFromTime (t : Z) : Z := snd (fst (civil (Day t))) - 1.

Definition DateFromTime (t : Z) : Z := snd (civil (Day t)).

(** A non-negative integer in decimal, padded with zeros to [width]. *)
Definition pad (width n : Z) : string :=
  JS.padStart (JS.toStringRadix 10 n) width "0".

(** [date.toISOString()] of the date with time value [t]:
    [YYYY-MM-DDTHH:mm:ss.sssZ], the year as a sign and six digits outside
    0000 to 9999. *)
Definition toISOString (t : Z) : string :=
  let y := YearFromTime t in
  let year :=
    if (0 <=? y) && (y <=? 9999) then pad 4 y
    else (if y <? 0 then "-" else "+") +++ pad 6 (Z.abs y) in
  year +++ "-" +++ pad 2 (MonthFromTime t + 1) +++ "-" +++ pad 2 (DateFromTime t)
  +++ "T" +++ pad 2 (HourFromTime t) +++ ":" +++ pad 2 (MinFromTime t)
  +++ ":" +++ pad 2 (SecFromTime t) +++ "." +++ pad 3 (msFromTime t) +++ "Z".

End Date.

(* ================================================================== *)
(** ** Stand-ins for the libraries *)
(* ================================================================== *)

(** Simple functions with the interface of the library primitives that the
    application takes as given.  They are no models of crypto-js: they only
    serve to run the application on examples and to show that what is
    assumed of the library can be met. *)
Module StandIn.

(** Key derivation: the requested number of bytes, read round and round
    from the password, the salt and a final byte. *)
Definition PBKDF2 (password : string) (salt : list byte) (keySize iterations : Z)
  : list byte :=
  let material := utf8Encode password ++ salt ++ [x01] in
  map (fun i => nth (i mod List.length material)%nat material x00)
      (seq 0 (Z.to_nat (4 * keySize))).

(** PKCS7 padding to blocks of 16 bytes, and its removal the way crypto-js
    does it: the last byte says how many bytes to drop. *)
Definition pad (m : list byte) : list byte :=
  let n := (16 - List.length m mod 16)%nat in
  m ++ repeat (toUint8 (Some (Z.of_nat n))) n.

Definition unpad (c : list byte) : list byte :=
  firstn (List.length c - Z.to_nat (byteVal (last c x00)))%nat c.

(** A running-key cipher: each byte is shifted by the next byte of the key
    stream, which starts over when it runs out. *)
Fixpoint shift (sign : Z) (ks cur m : list byte) : list byte :=
  match m with
  | [] => []
  | b :: m' =>
      match cur with
      | k :: cur' =>
          toUint8 (Some (byteVal b + sign * byteVal k)) :: shift sign ks cur' m'
      | [] =>
          match ks with
          | k :: ks' =>
              toUint8 (Some (byteVal b + sign * byteVal k)) :: shift sign ks ks' m'
          | [] => b :: shift sign ks [] m'
          end
      end
  end.

Definition AES_encrypt (m k iv : list byte) : list byte :=
  shift 1 (k ++ iv) (k ++ iv) (pad m).

Definition AES_decrypt (c k iv : list byte) : list byte :=
  unpad (shift (-1) (k ++ iv) (k ++ iv) c).

(** The text encoding of the ciphertext: hexadecimal in place of Base64. *)
Definition Base64_stringify (bs : list byte) : string := hexOfBytes bs.
Definition Base64_parse (s : string) : list byte := Buffer_from_hex s.

(** Decoding of bytes below 128; anything else is refused. *)
Definition Utf8_stringify (bs : list byte) : option string :=
  if forallb (fun b => byteVal b <? 128) bs
  then Some (string_of_list_ascii (map (fun b => JS.ofCode (byteVal b)) bs))
  else None.

(** A checksum in place of the hash functions: 32 bytes holding a number
    from 1 to 7. *)
Definition checksum (bs : list byte) : list byte :=
  map (fun i => if (i =? 31)%nat
                then toUint8 (Some (1 + fold_left (fun acc b => (acc + byteVal b) mod 7) bs 0))
                else x00) (seq 0 32).

Definition SHA256 (message : list byte) : list byte := checksum message.
Definition HmacSHA256 (message key : list byte) : list byte :=
  checksum (key ++ message).

(** A string parses as a URL when it starts with a scheme and a colon. *)
Fixpoint hasScheme (s : string) (seen : bool) : bool :=
  match s with
  | EmptyString => false
  | String c rest =>
      if Ascii.eqb c ":" then seen
      else
        let k := JS.code c in
        if ((97 <=? k) && (k <=? 122)) || ((65 <=? k) && (k <=? 90))
        then hasScheme rest true
        else false
  end.

Definition URL_parses (s : string) : bool := hasScheme s false.

(** The number of a run of decimal digits; [None] when a character is no
    digit. *)
Fixpoint decimal (s : string) (acc : Z) : option Z :=
  match s with
  | EmptyString => Some acc
  | String c rest =>
      if JS.isDigit c then decimal rest (10 * acc + (JS.code c - 48)) else None
  end.

(** The day number of a civil date. *)
Definition daysFromCivil (y m d : Z) : Z :=
  let y' := if m <=? 2 then y - 1 else y in
  let era := y' / 400 in
  let yoe := y' - era * 400 in
  let doy := (153 * (if 2 <? m then m - 3 else m + 9) + 2) / 5 + d - 1 in
  let doe := yoe * 365 + yoe / 4 - yoe / 100 + doy in
  era * 146097 + doe - 719468.

(** Dates of the one shape [YYYY-MM-DDTHH:MM:SSZ]. *)
Definition Date_parse (s : string) : option Z :=
  if negb ((JS.slice s 4 (Some 5) =? "-")%string
           && (JS.slice s 7 (Some 8) =? "-")%string
           && (JS.slice s 10 (Some 11) =? "T")%string
           && (JS.slice s 13 (Some 14) =? ":")%string
           && (JS.slice s 16 (Some 17) =? ":")%string
           && (JS.slice s 19 None =? "Z")%string)
  then None
  else
    match decimal (JS.slice s 0 (Some 4)) 0, decimal (JS.slice s 5 (Some 7)) 0,
          decimal (JS.slice s 8 (Some 10)) 0, decimal (JS.slice s 11 (Some 13)) 0,
          decimal (JS.slice s 14 (Some 16)) 0, decimal (JS.slice s 17 (Some 19)) 0
    with
    | Some y, Some m, Some d, Some hh, Some mm, Some ss =>
        if (1 <=? m) && (m <=? 12) && (1 <=? d) && (d <=? 31)
           && (hh <=? 23) && (mm <=? 59) && (ss <=? 59)
        then Some (daysFromCivil y m d * 86400000
                   + hh * 3600000 + mm * 60000 + ss * 1000)
        else None
    | _, _, _, _, _, _ => None
    end.

(** A world to run examples in: a tape that counts, the first second of
    2024, no devices file, a relay that accepts everything. *)
Definition world : World :=
  {| tape := fun n => toUint8 (Some (Z.of_nat n * 37 + 11));
     pos := 0;
     clock := 1704067200000;
     file := Missing;
     relay := fun _ => Ok None;
     sent := [] |}.

(** A registry holding one device, named "desktop", whose key is 1. *)
Definition oneDevice : World :=
  {| tape := tape world;
     pos := 0;
     clock := clock world;
     file :=
       Stored
         [mkDevice
            "0479be667ef9dcbbac55a06295ce870b07029bfcdb2dce28d959f2815b16f81798483ada7726a3c4655da4fbfc0e1108a8fd17b448a68554199c47d08ffb10d4b8"
            "desktop" "https://relay.scaler.icu" "blob"];
     relay := relay world;
     sent := [] |}.

End StandIn.

(* ================================================================== *)
(** ** The application *)
(* ================================================================== *)

Section Program.

Set Default Proof Using "Type".

(** *** Library functions the application calls

    crypto-js works on the bytes its word arrays stand for; the functions
    below are its primitives on those bytes. *)

(** [CryptoJS.PBKDF2(password, salt, { keySize, iterations })]: the key. *)
Variable PBKDF2 : string -> list byte -> Z -> Z -> list byte.

(** [CryptoJS.AES.encrypt(message, key, { iv, mode: CBC, padding: Pkcs7 })]
    with a key that is a word array: the ciphertext of the message's bytes. *)
Variable AES_encrypt : list byte -> list byte -> list byte -> list byte.

(** [CryptoJS.AES.decrypt({ ciphertext }, key, { iv, mode: CBC, padding: Pkcs7 })] *)
Variable AES_decrypt : list byte -> list byte -> list byte -> list byte.

(** [cipherParams.toString()]: Base64 of the ciphertext, and
    [CryptoJS.enc.Base64.parse]. *)
Variable Base64_stringify : list byte -> string.
Variable Base64_parse : string -> list byte.

(** [wordArray.toString(CryptoJS.enc.Utf8)]; [None] where it throws
    ("Malformed UTF-8 data"). *)
Variable Utf8_stringify : list byte -> option string.

(** [CryptoJS.SHA256(message)] and [CryptoJS.HmacSHA256(message, key)]. *)
Variable SHA256 : list byte -> list byte.
Variable HmacSHA256 : list byte -> list byte -> list byte.

(** [new URL(s)] does not throw. *)
Variable URL_parses : string -> bool.

(** [new Date(s).getTime()]; [None] is [NaN], the time of an invalid date. *)
Variable Date_parse : string -> option Z.

(** *** add-device.tsx *)

(** [/^\d{6}$/.test(pin)] *)
Definition isSixDigits (pin : string) : bool :=
  (String.length pin =? 6)%nat && forallb JS.isDigit (list_ascii_of_string pin).

(** [/^[0-9a-fA-F]{64}$/.test(privateKey)] *)
Definition isHex64 (privateKey : string) : bool :=
  (String.length privateKey =? 64)%nat
  && forallb JS.isHexDigit (list_ascii_of_string privateKey).

(** Every code unit is below 128. *)
Definition isAscii (s : string) : bool :=
  forallb (fun c => JS.code c <? 128) (list_ascii_of_string s).

(** A string is falsy when it is empty. *)
Definition isEmpty (s : string) : bool := (s =? "")%string.

(** [validateInputs] of add-device.tsx: the message of the first check that
    fails, or [None]. *)
Definition validateInputs (privateKey deviceName relayUrl pin : string)
  : option string :=
  if isEmpty (JS.trim privateKey) then Some "Private key is required"
  else if isEmpty (JS.trim deviceName) then Some "Device name is required"
  else if isEmpty (JS.trim relayUrl) then Some "Relay URL is required"
  else if negb (JS.len pin =? 6) || negb (isSixDigits pin)
  then Some "PIN must be exactly 6 digits"
  else if negb (isHex64 privateKey) then Some "Invalid private key format"
  else if negb (URL_parses relayUrl) then Some "Invalid relay URL format"
  else None.

(** The body of [encryptPrivateKey] once the salt and the IV are drawn. *)
Definition encryptWith (saltBytes ivBytes : list byte) (privKey pinCode : string)
  : string :=
  let salt := uint8ArrayToWordArray saltBytes in
  let iv := uint8ArrayToWordArray ivBytes in
  let key := PBKDF2 (JS.padStart pinCode 6 "0") (CryptoJS.bytesOf salt) (256 / 32) 1000 in
  let encrypted := AES_encrypt (utf8Encode privKey) key (CryptoJS.bytesOf iv) in
  bytesToHex saltBytes +++ bytesToHex ivBytes +++ Base64_stringify encrypted.

(** [encryptPrivateKey]: 16 random bytes of salt, 16 of IV, then the blob. *)
Definition encryptPrivateKey (privKey pinCode : string) : M (option string) :=
  saltBytes <- getRandomBytes 16 ;;
  ivBytes <- getRandomBytes 16 ;;
  ret (Some (encryptWith saltBytes ivBytes privKey pinCode)).

(** [privKey.match(/.{1,2}/g)]: the pieces of one or two characters that are
    no line terminators, from left to right. *)
Fixpoint matchPairs (s : string) : list string :=
  match s with
  | EmptyString => []
  | String a rest =>
      if JS.isLineTerminator a then matchPairs rest
      else
        match rest with
        | EmptyString => [String a ""]
        | String b rest' =>
            if JS.isLineTerminator b then String a "" :: matchPairs rest'
            else String a (String b "") :: matchPairs rest'
        end
  end.

(** [getPublicKey] of add-device.tsx: the uncompressed public key in
    hexadecimal, or [None] where the library throws. *)
Definition getPublicKey (privKey : string) : option string :=
  let privKeyBytes := map (fun piece => toUint8 (JS.parseInt16 piece)) (matchPairs privKey) in
  match Noble.getPublicKey privKeyBytes (Some false) with
  | Some pubKeyBytes =>
      Some (String.concat ""
              (map (fun b => JS.padStart (JS.toStringRadix 16 (byteVal b)) 2 "0")
                   pubKeyBytes))
  | None => None
  end.

(** [loadExistingDevices]: the array of the file, or the empty array when
    the file is absent, unreadable or no array. *)
Definition loadExistingDevices : M (list Device) :=
  ds <- readDevices ;;
  ret (match ds with Some l => l | None => [] end).

(** [saveDevice]: the alert it shows; the file is written on success only. *)
Definition saveDevice (privateKey deviceName_ relayUrl_ pin : string) : M Alert :=
  match validateInputs privateKey deviceName_ relayUrl_ pin with
  | Some validationError => ret (mkAlert "Validation Error" validationError)
  | None =>
      match getPublicKey privateKey with
      | None => ret (mkAlert "Error" "Failed to generate public key")
      | Some pubkey_ =>
          if isEmpty pubkey_ then ret (mkAlert "Error" "Failed to generate public key")
          else
            encryptedPrivKey_ <- encryptPrivateKey privateKey pin ;;
            devices <- loadExistingDevices ;;
            if existsb (fun device => (deviceName device =? deviceName_)%string) devices
            then ret (mkAlert "Error" "A device with this name already exists")
            else if existsb (fun device => (pubkey device =? pubkey_)%string) devices
            then ret (mkAlert "Error" "A device with this public key already exists")
            else
              match encryptedPrivKey_ with
              | None => ret (mkAlert "Error" "Failed to encrypt private key")
              | Some blob =>
                  if isEmpty blob
                  then ret (mkAlert "Error" "Failed to encrypt private key")
                  else
                    let newDevice := mkDevice pubkey_ deviceName_ relayUrl_ blob in
                    _ <- writeDevices (devices ++ [newDevice]) ;;
                    ret (mkAlert "Success" "Device added successfully")
              end
      end
  end.

(** *** edit-device.tsx *)

(** [validateInputs] of edit-device.tsx *)
Definition validateEdit (deviceName_ relayUrl_ : string) : option string :=
  if isEmpty (JS.trim deviceName_) then Some "Device name is required"
  else if isEmpty (JS.trim relayUrl_) then Some "Relay URL is required"
  else if negb (URL_parses relayUrl_) then Some "Invalid relay URL format"
  else None.

(** [saveChanges]: every record whose [pubkey] is the screen's gets the new
    name and relay URL, and the whole array is written back. *)
Definition saveChanges (pubkey_ deviceName_ relayUrl_ : string) : M Alert :=
  match validateEdit deviceName_ relayUrl_ with
  | Some validationError => ret (mkAlert "Validation Error" validationError)
  | None =>
      ds <- readDevices ;;
      match ds with
      | None => ret (mkAlert "Error" "Failed to update device")
      | Some devices =>
          let updatedDevices :=
            map (fun device =>
                   if (pubkey device =? pubkey_)%string
                   then mkDevice (pubkey device) deviceName_ relayUrl_
                                 (encryptedPrivKey device)
                   else device) devices in
          _ <- writeDevices updatedDevices ;;
          ret (mkAlert "Success" "Device updated successfully")
      end
  end.

(** [deleteDevice], once the user has confirmed. *)
Definition deleteDevice (pubkey_ : string) : M Alert :=
  ds <- readDevices ;;
  match ds with
  | None => ret (mkAlert "Error" "Failed to delete device")
  | Some devices =>
      let updatedDevices :=
        filter (fun device => negb (pubkey device =? pubkey_)%string) devices in
      _ <- writeDevices updatedDevices ;;
      ret (mkAlert "Success" "Device deleted successfully")
  end.

(** *** sign-send.tsx *)

(** The shim installed as [etc.hmacSha256Sync]: the key and the messages are
    concatenated, and the HMAC of that under the key is taken. *)
Definition hmacSha256Sync (key : list byte) (messages : list (list byte))
  : list byte :=
  let hash := fold_left (fun hash message => hash ++ message) messages key in
  let hmac := HmacSHA256 hash key in
  Buffer_from_hex (hexOfBytes hmac).

(** What [decryptPrivateKey] reads off the blob: the salt from the first 32
    characters, the IV from the next 32, and the ciphertext from the rest. *)
Definition parseBlob (encryptedPrivKey_ : string)
  : WordArray * WordArray * list byte :=
  let saltHex := JS.slice encryptedPrivKey_ 0 (Some 32) in
  let ivHex := JS.slice encryptedPrivKey_ 32 (Some 64) in
  let encryptedData := JS.slice encryptedPrivKey_ 64 None in
  (CryptoJS.Hex_parse saltHex, CryptoJS.Hex_parse ivHex, Base64_parse encryptedData).

(** [decryptPrivateKey]: [None] is the [catch] branch, which returns nothing. *)
Definition decryptPrivateKey (encryptedPrivKey_ pinCode : string) : option string :=
  let '(salt, iv, ciphertext) := parseBlob encryptedPrivKey_ in
  let key := PBKDF2 (JS.padStart pinCode 6 "0") (CryptoJS.bytesOf salt) (256 / 32) 1000 in
  let decrypted := AES_decrypt ciphertext key (CryptoJS.bytesOf iv) in
  Utf8_stringify decrypted.

(** What [signCommand] returns. *)
Record Signed : Type := mkSigned {
  publicKeyHex : string;
  signatureHex : string;
  command : string
}.

(** [signCommand]: [None] is the [catch] branch. *)
Definition signCommand (command_ privateKeyHex : string) : M (option Signed) :=
  let privateKeyBytes := Buffer_from_hex privateKeyHex in
  let messageBytes := utf8Encode command_ in
  let messageHash := Buffer_from_hex (hexOfBytes (SHA256 messageBytes)) in
  signature <- Noble.sign hmacSha256Sync messageHash privateKeyBytes Noble.optS ;;
  match signature with
  | None => ret None
  | Some sig =>
      let signatureHex_ := hexOfBytes (Noble.toCompactRawBytes sig) in
      match Noble.getPublicKey privateKeyBytes None with
      | None => ret None
      | Some publicKey =>
          ret (Some (mkSigned ("04" +++ hexOfBytes publicKey) signatureHex_ command_))
      end
  end.

(** [.replace(/[-:.TZ]/g, "")] *)
Fixpoint stripSeparators (s : string) : string :=
  match s with
  | EmptyString => ""
  | String c rest =>
      if existsb (Ascii.eqb c) (list_ascii_of_string "-:.TZ")
      then stripSeparators rest
      else String c (stripSeparators rest)
  end.

(** [currentTime] of [handleSign], from the ISO string of the date. *)
Definition formatTime (iso : string) : string :=
  JS.slice (stripSeparators iso) 0 (Some 14).

(** The command [handleSign] builds from the action and the ISO string of
    the current date; [None] where the length guard stops the flow. *)
Definition fullCommandOf (action iso : string) : option string :=
  let currentTime_ := formatTime iso in
  if negb (JS.len currentTime_ =? 14) then None
  else Some (action +++ "+" +++ currentTime_).

(** How [handleSign] ends: with an alert, with the success dialog, or with
    an error that is only logged. *)
Inductive SignOutcome : Type :=
| Alerted (a : Alert)
| Succeeded
| Logged.

(** [handleSign] from the ISO string of the current date on: the command is
    built, the key decrypted, the command signed and posted to the relay. *)
Definition signAndSend (iso : string) (dev : Device) (action pin : string)
  : M SignOutcome :=
  match fullCommandOf action iso with
  | None => ret (Alerted (mkAlert "Error" "Failed to get current time."))
  | Some fullCommand =>
      match decryptPrivateKey (encryptedPrivKey dev) pin with
      | None | Some EmptyString =>
          ret (Alerted (mkAlert "Error" "Invalid PIN."))
      | Some privKey =>
          result <- signCommand fullCommand privKey ;;
          match result with
          | None => ret (Alerted (mkAlert "Error" "Failed to sign command."))
          | Some res =>
              let relay_ :=
                if JS.endsWithChar (relayUrl dev) "/"
                then relayUrl dev else relayUrl dev +++ "/" in
              let fullRelayUrl := relay_ +++ "api/request/send-command" in
              response <- fetch (SendCommand fullRelayUrl (pubkey dev)
                                   (signatureHex res) (command res)) ;;
              match response with
              | Ok _ => ret Succeeded
              | NotOk =>
                  ret (Alerted (mkAlert "Error" "Failed to sign and send command."))
              | NetworkError => ret Logged
              end
          end
      end
  end.

(** [handleSign] for the loaded device (if any), the action of the route
    and the PIN typed. *)
Definition handleSign (device : option Device) (action pin : string)
  : M SignOutcome :=
  match device with
  | None => ret (Alerted (mkAlert "Error" "Missing device or action data."))
  | Some dev =>
      if isEmpty action
      then ret (Alerted (mkAlert "Error" "Missing device or action data."))
      else if negb (JS.len pin =? 6) || negb (isSixDigits pin)
      then ret (Alerted (mkAlert "Error" "PIN must be exactly 6 digits."))
      else
        now <- currentTime ;;
        signAndSend (Date.toISOString now) dev action pin
  end.

(** *** index.tsx *)

(** A device as the home screen lists it. *)
Record HomeDevice : Type := mkHomeDevice {
  device : Device;
  isOnline : bool;
  isLoading : bool
}.

(** The date string [checkDeviceStatus] builds from [lastfetched]. *)
Definition lastFetchedIso (lastFetched : string) : string :=
  JS.slice lastFetched 0 (Some 4) +++ "-" +++ JS.slice lastFetched 4 (Some 6)
  +++ "-" +++ JS.slice lastFetched 6 (Some 8) +++ "T"
  +++ JS.slice lastFetched 8 (Some 10) +++ ":" +++ JS.slice lastFetched 10 (Some 12)
  +++ ":" +++ JS.slice lastFetched 12 (Some 14) +++ "Z".

(** [diffInSeconds]: [Math.floor((now - last) / 1000)], [NaN] when the date
    is invalid. *)
Definition diffInSeconds (now : Z) (lastFetched : string) : option Z :=
  match Date_parse (lastFetchedIso lastFetched) with
  | Some last => Some ((now - last) / 1000)
  | None => None
  end.

(** [isOnline = diffInSeconds <= 60]; a comparison with [NaN] is false. *)
Definition onlineAt (now : Z) (lastFetched : string) : bool :=
  match diffInSeconds now lastFetched with
  | Some d => d <=? 60
  | None => false
  end.

(** [url.replace(/\/$/, "")]: without one final slash. *)
Fixpoint dropFinalSlash (s : string) : string :=
  match s with
  | EmptyString => ""
  | String c EmptyString => if Ascii.eqb c "/" then "" else s
  | String c rest => String c (dropFinalSlash rest)
  end.

(** The update every branch of [checkDeviceStatus] makes:
    [prev.map((d) => d.pubkey === device.pubkey ? { ...d, isOnline, isLoading: false } : d)] *)
Definition setStatus (pubkey_ : string) (online : bool) (prev : list HomeDevice)
  : list HomeDevice :=
  map (fun d => if (pubkey (device d) =? pubkey_)%string
                then mkHomeDevice (device d) online false else d) prev.

(** [checkDeviceStatus]: the new list of the home screen. *)
Definition checkDeviceStatus (dev : Device) (prev : list HomeDevice)
  : M (list HomeDevice) :=
  let cleanURL := dropFinalSlash (relayUrl dev) in
  response <- fetch (LastActive (cleanURL +++ "/api/request/last-active") (pubkey dev)) ;;
  match response with
  | Ok (Some lastFetched) =>
      now <- currentTime ;;
      ret (setStatus (pubkey dev) (onlineAt now lastFetched) prev)
  | _ => ret (setStatus (pubkey dev) false prev)
  end.

(** *** The registry as a transition system *)

(** The three operations on the devices file, with what the user typed. *)
Inductive Op : Type :=
| Add (privateKey deviceName_ relayUrl_ pin : string)
| Update (pubkey_ deviceName_ relayUrl_ : string)
| Remove (pubkey_ : string).

Definition run (op : Op) : M Alert :=
  match op with
  | Add privateKey deviceName_ relayUrl_ pin =>
      saveDevice privateKey deviceName_ relayUrl_ pin
  | Update pubkey_ deviceName_ relayUrl_ => saveChanges pubkey_ deviceName_ relayUrl_
  | Remove pubkey_ => deleteDevice pubkey_
  end.

(** The records of the registry: those of the file, none when there is no
    readable file. *)
Definition registry (w : World) : list Device :=
  match file w with Stored ds => ds | _ => [] end.

(** The worlds reached from an empty registry by the three operations. *)
Inductive Reachable : World -> Prop :=
| reach_empty (w : World) : registry w = [] -> Reachable w
| reach_step (w : World) (op : Op) : Reachable w -> Reachable (snd (run op w)).

Definition uniquePubkeys (ds : list Device) : Prop := NoDup (map pubkey ds).
Definition uniqueNames (ds : list Device) : Prop := NoDup (map deviceName ds).

(** *** The timestamp, digit by digit *)



(** The decimal digit of [n] at position [10^k], as a character. *)
Definition digitAt (n k : Z) : ascii := JS.digitChar ((n / 10 ^ k) mod 10).

Definition twoDigits (n : Z) : string :=
  String (digitAt n 1) (String (digitAt n 0) "").

Definition fourDigits (n : Z) : string :=
  String (digitAt n 3) (String (digitAt n 2) (twoDigits n)).

(** [YYYYMMDDHHMMSS] of the time value [t] in UTC, written from the fields
    of the date: what the timestamp of a command is meant to be. *)
Definition timestampOf (t : Z) : string :=
  fourDigits (Date.YearFromTime t) +++ twoDigits (Date.MonthFromTime t + 1)
  +++ twoDigits (Date.DateFromTime t) +++ twoDigits (Date.HourFromTime t)
  +++ twoDigits (Date.MinFromTime t) +++ twoDigits (Date.SecFromTime t).

(** *** Loading devices: sign-send.tsx, manage-device.tsx, edit-device.tsx, index.tsx *)

(** What [loadDevice] of sign-send.tsx and of manage-device.tsx ends with:
    the device put in the state of the screen, or an alert (after which the
    screen is left). *)
Inductive Loaded : Type :=
| Found (d : Device)
| NotLoaded (a : Alert).

(** [devices.find((d) => d.pubkey === pubkey)] *)
Definition findDevice (pubkey_ : string) (devices : list Device) : option Device :=
  find (fun d => (pubkey d =? pubkey_)%string) devices.

(** [FileSystem.getInfoAsync(DEVICES_FILE).exists] *)
Definition fileExists : M bool :=
  fun w => (match file w with Missing => false | _ => true end, w).

(** [loadDevice] of sign-send.tsx and manage-device.tsx (the two are the
    same code). *)
Definition loadDevice (pubkey_ : string) : M Loaded :=
  exists_ <- fileExists ;;
  if negb exists_ then ret (NotLoaded (mkAlert "Error" "Devices file not found."))
  else
    ds <- readDevices ;;
    match ds with
    | None => ret (NotLoaded (mkAlert "Error" "Failed to load device."))
    | Some devices =>
        match findDevice pubkey_ devices with
        | None => ret (NotLoaded (mkAlert "Error" "Device not found."))
        | Some currentDevice => ret (Found currentDevice)
        end
    end.

(** [loadDevice] of edit-device.tsx: the name and relay URL of the form,
    which start empty and are set when the device is found; an alert when
    the file cannot be read. *)
Definition loadEditForm (pubkey_ : string) : M (option Alert * (string * string)) :=
  ds <- readDevices ;;
  match ds with
  | None => ret (Some (mkAlert "Error" "Failed to load device details"), ("", ""))
  | Some devices =>
      match findDevice pubkey_ devices with
      | Some d => ret (None, (deviceName d, relayUrl d))
      | None => ret (None, ("", ""))
      end
  end.

(** [loadDevices] of index.tsx: when the file exists and parses, the list
    of the screen becomes its records, each offline and loading; otherwise
    the list stays as it was. *)
Definition loadDevices (prev : list HomeDevice) : M (list HomeDevice) :=
  exists_ <- fileExists ;;
  if exists_ then
    ds <- readDevices ;;
    match ds with
    | Some loadedDevices =>
        ret (map (fun d => mkHomeDevice d false true) loadedDevices)
    | None => ret prev
    end
  else ret prev.

(** [checkAllDevices] of index.tsx while the screen is subscribed:
    [for (const device of currentDevices) await checkDeviceStatus(device)],
    each call updating the list of the screen. *)
Fixpoint checkAllDevices (currentDevices : list HomeDevice) (state : list HomeDevice)
  : M (list HomeDevice) :=
  match currentDevices with
  | [] => ret state
  | d :: rest =>
      state' <- checkDeviceStatus (device d) state ;;
      checkAllDevices rest state'
  end.

(** *** What the home screen shows of a device (index.tsx) *)

(** [item.deviceName.length > 15 ? `${item.deviceName.slice(0, 12)}...` : item.deviceName] *)
Definition nameLabel (name : string) : string :=
  if 15 <? JS.len name then JS.slice name 0 (Some 12) +++ "..." else name.

(** [`${item.pubkey.slice(0, 9)}...${item.pubkey.slice(-9)}`] *)
Definition pubkeyLabel (pubkey_ : string) : string :=
  JS.slice pubkey_ 0 (Some 9) +++ "..." +++ JS.slice pubkey_ (-9) None.

(** [item.relayUrl.length > 24 ? `${item.relayUrl.slice(0, 24)}...` : item.relayUrl] *)
Definition relayLabel (url : string) : string :=
  if 24 <? JS.len url then JS.slice url 0 (Some 24) +++ "..." else url.

(* ================================================================== *)
(** ** Properties *)
(* ================================================================== *)

(** *** What is assumed of the libraries *)

(** What the application relies on from crypto-js: PBKDF2 with [keySize] 8
    gives a 256-bit key; AES-256-CBC with PKCS7 padding decrypts what it
    encrypted under the same key and IV; Base64 and UTF-8 read back what
    they wrote. *)
Hypothesis PBKDF2_length :
  forall password salt iterations,
    List.length (PBKDF2 password salt 8 iterations) = 32%nat.
Hypothesis AES_inverse :
  forall m k iv,
    List.length k = 32%nat -> List.length iv = 16%nat ->
    AES_decrypt (AES_encrypt m k iv) k iv = m.
Hypothesis Base64_inverse :
  forall bs, Base64_parse (Base64_stringify bs) = bs.
Hypothesis Utf8_inverse :
  forall s, isAscii s = true -> Utf8_stringify (utf8Encode s) = Some s.

(** Arithmetic tactics look at everything in the context; the library
    functions and what is assumed of them are put aside first, so that a
    lemma depends on them only when its statement does. *)
Ltac drop_libs :=
  try clear PBKDF2_length; try clear AES_inverse;
  try clear Base64_inverse; try clear Utf8_inverse;
  try clear PBKDF2; try clear AES_encrypt; try clear AES_decrypt;
  try clear Base64_stringify; try clear Base64_parse; try clear Utf8_stringify;
  try clear SHA256; try clear HmacSHA256; try clear URL_parses;
  try clear Date_parse.

Ltac div_lia := drop_libs; Z.div_mod_to_equations; lia.


(** *** Strings *)

Lemma length_append (a b : string) :
  String.length (a +++ b) = (String.length a + String.length b)%nat.
Proof.
  induction a as [|c a IH]; simpl; [reflexivity | now rewrite IH].
Qed.

Lemma len_append (a b : string) : JS.len (a +++ b) = JS.len a + JS.len b.
Proof.
  unfold JS.len. rewrite length_append. lia.
Qed.

Lemma substring_all (s : string) : substring 0 (String.length s) s = s.
Proof.
  induction s as [|c s IH]; simpl; [reflexivity | now rewrite IH].
Qed.

Lemma substring_append_left (a b : string) :
  substring 0 (String.length a) (a +++ b) = a.
Proof.
  induction a as [|c a IH]; simpl.
  - now destruct b.
  - now rewrite IH.
Qed.

Lemma substring_append_skip (a b : string) (n : nat) :
  substring (String.length a) n (a +++ b) = substring 0 n b.
Proof.
  induction a as [|c a IH]; simpl; [reflexivity | exact IH].
Qed.

(** [slice] of a concatenation along its seams. *)
Lemma slice_first (a b : string) :
  JS.slice (a +++ b) 0 (Some (JS.len a)) = a.
Proof.
  unfold JS.slice. rewrite len_append.
  pose proof (Zle_0_nat (String.length a)) as Ha.
  pose proof (Zle_0_nat (String.length b)) as Hb.
  unfold JS.len in *.
  destruct (0 <? 0) eqn:E0; [discriminate|].
  destruct (Z.of_nat (String.length a) <? 0) eqn:E1; [apply Z.ltb_lt in E1; lia|].
  replace (Z.to_nat (Z.min 0 _)) with 0%nat by lia.
  replace (Z.to_nat _) with (String.length a) by lia.
  apply substring_append_left.
Qed.

Lemma slice_from (a b : string) :
  JS.slice (a +++ b) (JS.len a) None = b.
Proof.
  unfold JS.slice. rewrite len_append.
  pose proof (Zle_0_nat (String.length a)) as Ha.
  pose proof (Zle_0_nat (String.length b)) as Hb.
  unfold JS.len in *.
  destruct (Z.of_nat (String.length a) <? 0) eqn:E1; [apply Z.ltb_lt in E1; lia|].
  destruct (_ + _ <? 0) eqn:E2; [apply Z.ltb_lt in E2; lia|].
  replace (Z.to_nat (Z.min _ _)) with (String.length a) by lia.
  replace (Z.to_nat _) with (String.length b) by lia.
  rewrite substring_append_skip. apply substring_all.
Qed.

Lemma slice_middle (a b c : string) :
  JS.slice (a +++ b +++ c) (JS.len a) (Some (JS.len a + JS.len b)) = b.
Proof.
  unfold JS.slice. rewrite !len_append.
  pose proof (Zle_0_nat (String.length a)) as Ha.
  pose proof (Zle_0_nat (String.length b)) as Hb.
  pose proof (Zle_0_nat (String.length c)) as Hc.
  unfold JS.len in *.
  destruct (Z.of_nat (String.length a) <? 0) eqn:E1; [apply Z.ltb_lt in E1; lia|].
  destruct (_ + _ <? 0) eqn:E2; [apply Z.ltb_lt in E2; lia|].
  replace (Z.to_nat (Z.min _ _)) with (String.length a) by lia.
  replace (Z.to_nat _) with (String.length b) by lia.
  rewrite substring_append_skip. apply substring_append_left.
Qed.

(** *** Hexadecimal and word arrays *)

(** The two digits [toString(16).padStart(2, "0")] gives a byte. *)
Lemma hex_pair (b : byte) :
  JS.padStart (JS.toStringRadix 16 (byteVal b)) 2 "0"
  = String (JS.digitChar (byteVal b / 16))
      (String (JS.digitChar (byteVal b mod 16)) "").
Proof. destruct b; reflexivity. Qed.

Lemma bytesToHex_hexOfBytes (bs : list byte) : bytesToHex bs = hexOfBytes bs.
Proof.
  unfold bytesToHex, hexOfBytes. f_equal.
  apply map_ext. intro b. apply hex_pair.
Qed.

Lemma hexOfBytes_cons (b : byte) (bs : list byte) :
  hexOfBytes (b :: bs)
  = String (JS.digitChar (byteVal b / 16))
      (String (JS.digitChar (byteVal b mod 16)) (hexOfBytes bs)).
Proof.
  unfold hexOfBytes. simpl. destruct (map _ bs); reflexivity.
Qed.

Lemma hexOfBytes_length (bs : list byte) :
  String.length (hexOfBytes bs) = (2 * List.length bs)%nat.
Proof.
  induction bs as [|b bs IH]; [reflexivity|].
  rewrite hexOfBytes_cons. simpl. rewrite IH. lia.
Qed.

Lemma bytesToHex_len (bs : list byte) :
  JS.len (bytesToHex bs) = 2 * Z.of_nat (List.length bs).
Proof.
  rewrite bytesToHex_hexOfBytes. unfold JS.len. rewrite hexOfBytes_length. lia.
Qed.

(** Every character of [bytesToHex] is a hexadecimal digit. *)
Lemma hexOfBytes_isHex (bs : list byte) :
  forallb JS.isHexDigit (list_ascii_of_string (hexOfBytes bs)) = true.
Proof.
  induction bs as [|b bs IH]; [reflexivity|].
  rewrite hexOfBytes_cons. simpl. rewrite IH.
  destruct b; reflexivity.
Qed.

(** [parseInt] reads the two digits of a byte back. *)
Lemma parseInt16_pair (b : byte) :
  JS.parseInt16 (String (JS.digitChar (byteVal b / 16))
                   (String (JS.digitChar (byteVal b mod 16)) ""))
  = Some (byteVal b).
Proof. destruct b; reflexivity. Qed.

Lemma hexValue_pair (b : byte) :
  JS.hexValue (JS.digitChar (byteVal b / 16)) = Some (byteVal b / 16)
  /\ JS.hexValue (JS.digitChar (byteVal b mod 16)) = Some (byteVal b mod 16).
Proof. destruct b; split; reflexivity. Qed.

Lemma toUint8_byteVal (b : byte) : toUint8 (Some (byteVal b)) = b.
Proof. destruct b; reflexivity. Qed.

Lemma byteVal_range (b : byte) : 0 <= byteVal b < 256.
Proof. destruct b; cbv; split; congruence. Qed.

(** [Buffer.from(_, "hex")] reads [toString("hex")] back. *)
Lemma Buffer_from_hex_hexOfBytes (bs : list byte) :
  Buffer_from_hex (hexOfBytes bs) = bs.
Proof.
  induction bs as [|b bs IH]; [reflexivity|].
  rewrite hexOfBytes_cons. cbn [Buffer_from_hex].
  destruct (hexValue_pair b) as [-> ->]. rewrite IH. f_equal.
  rewrite <- (toUint8_byteVal b) at 3. do 2 f_equal.
  div_lia.
Qed.

(** [ToInt32] lands in the signed 32-bit range and is the identity there. *)
Lemma toInt32_range (z : Z) : - 2 ^ 31 <= JS.toInt32 z < 2 ^ 31.
Proof. unfold JS.toInt32. div_lia. Qed.

Lemma toInt32_small (z : Z) : - 2 ^ 31 <= z < 2 ^ 31 -> JS.toInt32 z = z.
Proof. unfold JS.toInt32. intros H. div_lia. Qed.

Lemma toInt32_idem (z : Z) : JS.toInt32 (JS.toInt32 z) = JS.toInt32 z.
Proof. apply toInt32_small, toInt32_range. Qed.

Lemma shl_toInt32 (a n : Z) : JS.shl (JS.toInt32 a) n = JS.shl a n.
Proof. unfold JS.shl. now rewrite toInt32_idem. Qed.

Lemma bor_0_shl (a n : Z) : JS.bor 0 (JS.shl a n) = JS.shl a n.
Proof.
  unfold JS.bor, JS.shl. rewrite !toInt32_idem.
  change (JS.toInt32 0) with 0. rewrite Z.lor_0_l. apply toInt32_idem.
Qed.

Lemma bor_shl_0 (x a : Z) : JS.bor x (JS.shl a 0) = JS.bor x a.
Proof.
  unfold JS.bor, JS.shl. change (0 mod 32) with 0.
  rewrite Z.shiftl_0_r. now rewrite !toInt32_idem.
Qed.

(** The word [Hex.parse] assembles from four bytes is the word of
    [uint8ArrayToWordArray]. *)
Lemma parsed_word (a b c d : Z) :
  JS.bor (JS.bor (JS.bor (JS.bor 0 (JS.shl (JS.int32OfNumber (Some a)) 24))
                         (JS.shl (JS.int32OfNumber (Some b)) 16))
                 (JS.shl (JS.int32OfNumber (Some c)) 8))
         (JS.shl (JS.int32OfNumber (Some d)) 0)
  = JS.bor (JS.bor (JS.bor (JS.shl a 24) (JS.shl b 16)) (JS.shl c 8)) d.
Proof.
  unfold JS.int32OfNumber.
  now rewrite !shl_toInt32, bor_0_shl, bor_shl_0.
Qed.

Ltac list16 bs H :=
  do 16 (destruct bs as [|? bs]; [discriminate H|]);
  destruct bs; [clear H | discriminate H].

(** On 16 bytes, parsing the hexadecimal form gives the very word array
    that [uint8ArrayToWordArray] builds. *)
Lemma Hex_parse_bytesToHex (bs : list byte) :
  List.length bs = 16%nat ->
  CryptoJS.Hex_parse (bytesToHex bs) = uint8ArrayToWordArray bs.
Proof.
  intros H. rewrite bytesToHex_hexOfBytes. list16 bs H.
  rewrite !hexOfBytes_cons. change (hexOfBytes []) with "".
  unfold CryptoJS.Hex_parse, uint8ArrayToWordArray.
  match goal with |- context [JS.countTo ?n 2] =>
    replace (JS.countTo n 2)
      with [0; 2; 4; 6; 8; 10; 12; 14; 16; 18; 20; 22; 24; 26; 28; 30]
      by (lazy; reflexivity)
  end.
  match goal with |- context [JS.countTo ?n 4] =>
    replace (JS.countTo n 4) with [0; 4; 8; 12] by (lazy; reflexivity)
  end.
  cbn [fold_left app].
  repeat match goal with
  | |- context [Z.to_nat (JS.shru ?i 3)] =>
      let v := eval vm_compute in (Z.to_nat (JS.shru i 3)) in
      change (Z.to_nat (JS.shru i 3)) with v
  end.
  repeat match goal with
  | |- context [24 - ?i mod 8 * 4] =>
      let v := eval vm_compute in (24 - i mod 8 * 4) in
      change (24 - i mod 8 * 4) with v
  end.
  repeat match goal with
  | |- context [substring (Z.to_nat ?i) 2 ?s] =>
      let v := eval vm_compute in (Z.to_nat i) in
      change (Z.to_nat i) with v
  end.
  cbn [substring].
  rewrite !parseInt16_pair.
  cbn [CryptoJS.orAt].
  rewrite !parsed_word.
  unfold wordAt.
  repeat match goal with
  | |- context [elemOr0 ?l ?i] =>
      let v := eval cbv [elemOr0 Z.ltb Z.compare Z.to_nat Pos.to_nat Pos.iter_op
                          Nat.add nth Z.add Pos.add Pos.succ] in (elemOr0 l i) in
      change (elemOr0 l i) with v
  end.
  f_equal.
Qed.

(** [|] adds where the bits do not overlap: a multiple of [2^k] and a
    number below [2^k]. *)
Lemma lor_add_disjoint (q y k : Z) :
  0 <= k -> 0 <= y < 2 ^ k -> Z.lor (q * 2 ^ k) y = q * 2 ^ k + y.
Proof.
  intros Hk Hy.
  assert (Hland : Z.land (q * 2 ^ k) y = 0).
  { apply Z.bits_inj'. intros n Hn.
    rewrite Z.land_spec, Z.bits_0.
    destruct (Z.lt_ge_cases n k) as [Hlt | Hge].
    - rewrite Z.mul_pow2_bits_low by lia. reflexivity.
    - destruct (Z.eq_dec y 0) as [-> | Hy0].
      + rewrite Z.bits_0. apply andb_false_r.
      + rewrite (Z.bits_above_log2 y n); [apply andb_false_r | lia |].
        apply Z.log2_lt_pow2; [lia|].
        apply Z.lt_le_trans with (2 ^ k); [lia|].
        apply Z.pow_le_mono_r; lia. }
  rewrite <- Z.lxor_lor by exact Hland.
  symmetry. apply Z.add_nocarry_lxor. exact Hland.
Qed.

(** The word of four bytes, as a number. *)
Lemma wordAt_value (a b c d : byte) :
  JS.toUint32
    (JS.bor (JS.bor (JS.bor (JS.shl (byteVal a) 24) (JS.shl (byteVal b) 16))
                    (JS.shl (byteVal c) 8)) (byteVal d))
  = byteVal a * 2 ^ 24 + byteVal b * 2 ^ 16 + byteVal c * 2 ^ 8 + byteVal d.
Proof.
  pose proof (byteVal_range a) as Ha. pose proof (byteVal_range b) as Hb.
  pose proof (byteVal_range c) as Hc. pose proof (byteVal_range d) as Hd.
  unfold JS.shl.
  rewrite !(toInt32_small (byteVal _)) by lia.
  change (24 mod 32) with 24. change (16 mod 32) with 16. change (8 mod 32) with 8.
  rewrite !Z.shiftl_mul_pow2 by lia.
  rewrite (toInt32_small (byteVal b * 2 ^ 16)) by lia.
  rewrite (toInt32_small (byteVal c * 2 ^ 8)) by lia.
  assert (Hhi : exists q, JS.toInt32 (byteVal a * 2 ^ 24) = q * 2 ^ 24
                          /\ - 128 <= q < 128 /\ q mod 256 = byteVal a).
  { unfold JS.toInt32.
    exists ((byteVal a * 2 ^ 24 + 2 ^ 31) mod 2 ^ 32 / 2 ^ 24 - 128).
    div_lia. }
  destruct Hhi as (q & -> & Hq & Hqa).
  unfold JS.bor. rewrite !toInt32_idem.
  rewrite (toInt32_small (q * 2 ^ 24)) by lia.
  rewrite (toInt32_small (byteVal b * 2 ^ 16)) by lia.
  replace (q * 2 ^ 24) with (q * 2 ^ 24) by reflexivity.
  rewrite (lor_add_disjoint q (byteVal b * 2 ^ 16) 24) by lia.
  rewrite (toInt32_small (q * 2 ^ 24 + _)) by lia.
  rewrite (toInt32_small (byteVal c * 2 ^ 8)) by lia.
  replace (q * 2 ^ 24 + byteVal b * 2 ^ 16)
    with ((q * 2 ^ 8 + byteVal b) * 2 ^ 16) by lia.
  rewrite (lor_add_disjoint _ (byteVal c * 2 ^ 8) 16) by lia.
  rewrite (toInt32_small (_ + byteVal c * 2 ^ 8)) by lia.
  rewrite (toInt32_small (byteVal d)) by lia.
  replace ((q * 2 ^ 8 + byteVal b) * 2 ^ 16 + byteVal c * 2 ^ 8)
    with ((q * 2 ^ 16 + byteVal b * 2 ^ 8 + byteVal c) * 2 ^ 8) by lia.
  rewrite (lor_add_disjoint _ (byteVal d) 8) by lia.
  rewrite toInt32_small by lia.
  unfold JS.toUint32. div_lia.
Qed.

(** Reading byte [j] of the word of four bytes gives that byte back. *)
Lemma byte_of_word (a b c d : byte) (j : Z) :
  0 <= j < 4 ->
  toUint8 (Some (JS.band
    (JS.shru (JS.bor (JS.bor (JS.bor (JS.shl (byteVal a) 24) (JS.shl (byteVal b) 16))
                             (JS.shl (byteVal c) 8)) (byteVal d))
             (24 - j * 8)) 255))
  = nth (Z.to_nat j) [a; b; c; d] x00.
Proof.
  intros Hj.
  pose proof (byteVal_range a) as Ha. pose proof (byteVal_range b) as Hb.
  pose proof (byteVal_range c) as Hc. pose proof (byteVal_range d) as Hd.
  unfold JS.shru. rewrite wordAt_value.
  assert (Hband : forall x, 0 <= x < 2 ^ 32 -> JS.band x 255 = x mod 256).
  { intros x Hx. unfold JS.band.
    change (JS.toInt32 255) with (Z.ones 8).
    rewrite Z.land_ones by lia. change (2 ^ 8) with 256.
    assert (E : JS.toInt32 x mod 256 = x mod 256)
      by (unfold JS.toInt32; div_lia).
    rewrite E. apply toInt32_small. div_lia. }
  change (2 ^ 32) with 4294967296 in Hband.
  change (2 ^ 24) with 16777216. change (2 ^ 16) with 65536.
  change (2 ^ 8) with 256.
  assert (j = 0 \/ j = 1 \/ j = 2 \/ j = 3) as [-> | [-> | [-> | ->]]] by lia;
    match goal with |- context [nth ?n ?l ?x] =>
      let v := eval lazy in (nth n l x) in change (nth n l x) with v
    end;
    match goal with |- context [Z.shiftr _ (?n mod 32)] =>
      let v := eval vm_compute in (n mod 32) in
      change (n mod 32) with v
    end;
    rewrite Z.shiftr_div_pow2 by lia;
    match goal with |- context [2 ^ ?k] =>
      let v := eval vm_compute in (2 ^ k) in change (2 ^ k) with v
    end;
    (rewrite Hband by (div_lia));
    match goal with |- toUint8 (Some ?e) = ?r =>
      replace e with (byteVal r) by (div_lia)
    end; apply toUint8_byteVal.
Qed.

(** The bytes of the word array of 16 bytes are those bytes. *)
Lemma bytesOf_uint8ArrayToWordArray (bs : list byte) :
  List.length bs = 16%nat ->
  CryptoJS.bytesOf (uint8ArrayToWordArray bs) = bs.
Proof.
  intros H. list16 bs H.
  unfold CryptoJS.bytesOf, uint8ArrayToWordArray.
  cbn [sigBytes words List.length].
  change (JS.countTo (Z.of_nat 16) 4) with [0; 4; 8; 12].
  change (JS.countTo (Z.of_nat 16) 1)
    with [0; 1; 2; 3; 4; 5; 6; 7; 8; 9; 10; 11; 12; 13; 14; 15].
  cbn [fold_left app map].
  unfold CryptoJS.byteAt, wordAt. cbn [words].
  repeat match goal with
  | |- context [Z.to_nat (JS.shru ?i 2)] =>
      let v := eval vm_compute in (Z.to_nat (JS.shru i 2)) in
      change (Z.to_nat (JS.shru i 2)) with v
  end.
  cbn [nth].
  repeat match goal with
  | |- context [elemOr0 ?l ?i] =>
      let v := eval cbv [elemOr0 Z.ltb Z.compare Z.to_nat Pos.to_nat Pos.iter_op
                          Nat.add nth Z.add Pos.add Pos.succ] in (elemOr0 l i) in
      change (elemOr0 l i) with v
  end.
  repeat match goal with
  | |- context [24 - ?i mod 4 * 8] =>
      let v := eval vm_compute in (i mod 4) in
      change (24 - i mod 4 * 8) with (24 - v * 8)
  end.
  rewrite !byte_of_word by lia.
  reflexivity.
Qed.

(** *** The vault *)

Lemma isHex64_isAscii (s : string) : isHex64 s = true -> isAscii s = true.
Proof.
  unfold isHex64, isAscii. intros H. apply andb_true_iff in H as [_ H].
  induction (list_ascii_of_string s) as [|c l IH]; [reflexivity|].
  simpl in *. apply andb_true_iff in H as [Hc Hl].
  rewrite (IH Hl), andb_true_r.
  unfold JS.isHexDigit, JS.hexValue in Hc.
  destruct ((48 <=? JS.code c) && (JS.code c <=? 57)) eqn:E1;
    [apply andb_true_iff in E1 as [_ E1]; apply Z.leb_le in E1;
     apply Z.ltb_lt; lia|].
  destruct ((97 <=? JS.code c) && (JS.code c <=? 102)) eqn:E2;
    [apply andb_true_iff in E2 as [_ E2]; apply Z.leb_le in E2;
     apply Z.ltb_lt; lia|].
  destruct ((65 <=? JS.code c) && (JS.code c <=? 70)) eqn:E3;
    [apply andb_true_iff in E3 as [_ E3]; apply Z.leb_le in E3;
     apply Z.ltb_lt; lia|].
  discriminate.
Qed.

(** The blob [encryptWith] builds, and what [parseBlob] finds in it. *)
Lemma parseBlob_encryptWith (saltBytes ivBytes : list byte) (privKey pinCode : string) :
  List.length saltBytes = 16%nat -> List.length ivBytes = 16%nat ->
  parseBlob (encryptWith saltBytes ivBytes privKey pinCode)
  = (uint8ArrayToWordArray saltBytes, uint8ArrayToWordArray ivBytes,
     Base64_parse
       (Base64_stringify
          (AES_encrypt (utf8Encode privKey)
             (PBKDF2 (JS.padStart pinCode 6 "0") saltBytes 8 1000) ivBytes))).
Proof.
  intros Hs Hi. unfold parseBlob, encryptWith.
  rewrite !bytesOf_uint8ArrayToWordArray by assumption.
  assert (Ls : JS.len (bytesToHex saltBytes) = 32)
    by (rewrite bytesToHex_len, Hs; reflexivity).
  assert (Li : JS.len (bytesToHex ivBytes) = 32)
    by (rewrite bytesToHex_len, Hi; reflexivity).
  set (ct := Base64_stringify _).
  rewrite <- Ls at 1. rewrite slice_first.
  replace (JS.slice _ 32 (Some 64)) with (bytesToHex ivBytes).
  2:{ symmetry. rewrite <- Ls at 1.
      replace 64 with (JS.len (bytesToHex saltBytes) + JS.len (bytesToHex ivBytes))
        by lia.
      apply slice_middle. }
  replace (JS.slice _ 64 None) with ct.
  2:{ symmetry.
      change (bytesToHex saltBytes +++ bytesToHex ivBytes +++ ct)
        with (bytesToHex saltBytes +++ (bytesToHex ivBytes +++ ct)).
      assert (E : bytesToHex saltBytes +++ (bytesToHex ivBytes +++ ct)
                  = (bytesToHex saltBytes +++ bytesToHex ivBytes) +++ ct).
      { clear. induction (bytesToHex saltBytes) as [|c s IH]; simpl;
          [reflexivity | now rewrite IH]. }
      rewrite E.
      replace 64 with (JS.len (bytesToHex saltBytes +++ bytesToHex ivBytes))
        by (rewrite len_append; lia).
      apply slice_from. }
  rewrite !Hex_parse_bytesToHex by assumption.
  reflexivity.
Qed.

Lemma map_seq_from {A : Type} (f : nat -> A) (n m : nat) :
  map f (seq n m) = map (fun k => f (n + k)%nat) (seq 0 m).
Proof.
  revert n f. induction m as [|m IH]; intros n f; [reflexivity|].
  cbn [seq map]. rewrite Nat.add_0_r. f_equal.
  rewrite (IH (S n)), (IH 1%nat). apply map_ext. intros k. f_equal. lia.
Qed.

(** Two draws of 16 bytes are the two halves of one draw of 32. *)
Lemma getRandomBytes_16_16 (w : World) :
  fst (getRandomBytes 32 w)
  = fst (getRandomBytes 16 w) ++ fst (getRandomBytes 16 (snd (getRandomBytes 16 w))).
Proof.
  unfold getRandomBytes. cbn [fst snd pos tape].
  change 32%nat with (16 + 16)%nat. rewrite seq_app, map_app. f_equal.
  rewrite map_seq_from. apply map_ext. intros k. f_equal. lia.
Qed.

Lemma getRandomBytes_length (n : nat) (w : World) :
  List.length (fst (getRandomBytes n w)) = n.
Proof. unfold getRandomBytes. cbn [fst]. now rewrite length_map, length_seq. Qed.

Lemma app_same_length {A : Type} (a b c d : list A) :
  List.length a = List.length c -> a ++ b = c ++ d -> a = c /\ b = d.
Proof.
  revert c. induction a as [|x a IH]; intros [|y c] Hlen Heq;
    try discriminate Hlen.
  - now split.
  - cbn in Heq. injection Heq as -> Heq. injection Hlen as Hlen.
    destruct (IH c Hlen Heq) as [-> ->]. now split.
Qed.

(** [encryptPrivateKey] is [encryptWith] on the next 32 bytes of the tape. *)
Lemma encryptPrivateKey_draws (privKey pinCode : string) (w : World)
  (saltBytes ivBytes : list byte) :
  List.length saltBytes = 16%nat ->
  fst (getRandomBytes 32 w) = saltBytes ++ ivBytes ->
  fst (encryptPrivateKey privKey pinCode w)
  = Some (encryptWith saltBytes ivBytes privKey pinCode).
Proof.
  intros Hs Hdraw. rewrite getRandomBytes_16_16 in Hdraw.
  apply app_same_length in Hdraw;
    [| now rewrite getRandomBytes_length, Hs].
  unfold encryptPrivateKey, bind, ret.
  destruct (getRandomBytes 16 w) as [s w1] eqn:E1.
  destruct (getRandomBytes 16 w1) as [i w2] eqn:E2.
  cbn [fst snd] in *. rewrite E2 in Hdraw. cbn [fst] in Hdraw.
  destruct Hdraw as [-> ->]. reflexivity.
Qed.

(** C7. Blob wire format: with a salt and an IV of 16 bytes each drawn from
    the random source, [encryptPrivateKey] returns the 32 hexadecimal digits
    of the salt, then the 32 of the IV, then the Base64 of the ciphertext;
    and [decryptPrivateKey], reading characters 0 to 32, 32 to 64 and 64 to
    the end, gets back that salt, that IV (as the word arrays encryption
    used, standing for the very bytes drawn) and that ciphertext. *)
Theorem blob_wire_format
  (saltBytes ivBytes : list byte) (privKey pinCode : string) (w : World) :
  List.length saltBytes = 16%nat ->
  List.length ivBytes = 16%nat ->
  fst (getRandomBytes 32 w) = saltBytes ++ ivBytes ->
  let ciphertext :=
    AES_encrypt (utf8Encode privKey)
      (PBKDF2 (JS.padStart pinCode 6 "0") saltBytes 8 1000) ivBytes in
  let blob :=
    hexOfBytes saltBytes +++ hexOfBytes ivBytes +++ Base64_stringify ciphertext in
  fst (encryptPrivateKey privKey pinCode w) = Some blob
  /\ String.length (hexOfBytes saltBytes) = 32%nat
  /\ String.length (hexOfBytes ivBytes) = 32%nat
  /\ forallb JS.isHexDigit (list_ascii_of_string (hexOfBytes saltBytes)) = true
  /\ forallb JS.isHexDigit (list_ascii_of_string (hexOfBytes ivBytes)) = true
  /\ JS.slice blob 0 (Some 32) = hexOfBytes saltBytes
  /\ JS.slice blob 32 (Some 64) = hexOfBytes ivBytes
  /\ JS.slice blob 64 None = Base64_stringify ciphertext
  /\ parseBlob blob
     = (uint8ArrayToWordArray saltBytes, uint8ArrayToWordArray ivBytes, ciphertext)
  /\ CryptoJS.bytesOf (fst (fst (parseBlob blob))) = saltBytes
  /\ CryptoJS.bytesOf (snd (fst (parseBlob blob))) = ivBytes.
Proof using Base64_inverse.
  intros Hs Hi Hdraw ciphertext blob.
  assert (Hblob : encryptWith saltBytes ivBytes privKey pinCode = blob).
  { unfold encryptWith, blob, ciphertext.
    now rewrite !bytesToHex_hexOfBytes, !bytesOf_uint8ArrayToWordArray. }
  assert (Hparse : parseBlob blob
     = (uint8ArrayToWordArray saltBytes, uint8ArrayToWordArray ivBytes, ciphertext)).
  { rewrite <- Hblob, parseBlob_encryptWith by assumption.
    now rewrite Base64_inverse. }
  assert (Ls : String.length (hexOfBytes saltBytes) = 32%nat)
    by (rewrite hexOfBytes_length, Hs; reflexivity).
  assert (Li : String.length (hexOfBytes ivBytes) = 32%nat)
    by (rewrite hexOfBytes_length, Hi; reflexivity).
  assert (Hp : parseBlob blob
     = (CryptoJS.Hex_parse (JS.slice blob 0 (Some 32)),
        CryptoJS.Hex_parse (JS.slice blob 32 (Some 64)),
        Base64_parse (JS.slice blob 64 None))) by reflexivity.
  repeat split.
  - rewrite <- Hblob. now apply encryptPrivateKey_draws.
  - exact Ls.
  - exact Li.
  - apply hexOfBytes_isHex.
  - apply hexOfBytes_isHex.
  - unfold blob. replace 32 with (JS.len (hexOfBytes saltBytes))
      by (unfold JS.len; now rewrite Ls).
    apply slice_first.
  - unfold blob.
    replace 64 with (JS.len (hexOfBytes saltBytes) + JS.len (hexOfBytes ivBytes))
      by (unfold JS.len; now rewrite Ls, Li).
    replace 32 with (JS.len (hexOfBytes saltBytes))
      by (unfold JS.len; now rewrite Ls).
    apply slice_middle.
  - unfold blob.
    assert (E : forall a b c, a +++ (b +++ c) = (a +++ b) +++ c).
    { clear. intros a b c. induction a as [|x a IH]; simpl;
        [reflexivity | now rewrite IH]. }
    rewrite E.
    replace 64 with (JS.len (hexOfBytes saltBytes +++ hexOfBytes ivBytes))
      by (rewrite len_append; unfold JS.len; now rewrite Ls, Li).
    apply slice_from.
  - exact Hparse.
  - rewrite Hparse. cbn [fst]. now apply bytesOf_uint8ArrayToWordArray.
  - rewrite Hparse. cbn [fst snd]. now apply bytesOf_uint8ArrayToWordArray.
Qed.

(** C1. Vault round trip: for every private key of 64 hexadecimal digits,
    every PIN (of six digits or not) and every state of the random source,
    [encryptPrivateKey] returns a blob, and [decryptPrivateKey] of that blob
    with the same PIN returns the private-key string. *)
Theorem vault_round_trip (privKey pin : string) (w : World) :
  isHex64 privKey = true ->
  exists blob,
    fst (encryptPrivateKey privKey pin w) = Some blob
    /\ decryptPrivateKey blob pin = Some privKey.
Proof using PBKDF2_length AES_inverse Base64_inverse Utf8_inverse.
  intros Hkey.
  pose proof (getRandomBytes_16_16 w) as Hdraw.
  set (saltBytes := fst (getRandomBytes 16 w)) in *.
  set (ivBytes := fst (getRandomBytes 16 (snd (getRandomBytes 16 w)))) in *.
  assert (Hs : List.length saltBytes = 16%nat) by apply getRandomBytes_length.
  assert (Hi : List.length ivBytes = 16%nat) by apply getRandomBytes_length.
  exists (encryptWith saltBytes ivBytes privKey pin). split.
  - now apply encryptPrivateKey_draws.
  - unfold decryptPrivateKey.
    rewrite parseBlob_encryptWith by assumption.
    rewrite Base64_inverse, !bytesOf_uint8ArrayToWordArray by assumption.
    change (256 / 32) with 8.
    rewrite AES_inverse by (apply PBKDF2_length || assumption).
    apply Utf8_inverse, isHex64_isAscii, Hkey.
Qed.

(** *** The registry *)

Lemma existsb_name_spec (name : string) (ds : list Device) :
  existsb (fun device => (deviceName device =? name)%string) ds = true
  <-> In name (map deviceName ds).
Proof.
  rewrite existsb_exists, in_map_iff. split.
  - intros (d & Hin & Heq). apply String.eqb_eq in Heq. now exists d.
  - intros (d & Heq & Hin). exists d. split; [exact Hin|].
    now apply String.eqb_eq.
Qed.

Lemma existsb_pubkey_spec (pk : string) (ds : list Device) :
  existsb (fun device => (pubkey device =? pk)%string) ds = true
  <-> In pk (map pubkey ds).
Proof.
  rewrite existsb_exists, in_map_iff. split.
  - intros (d & Hin & Heq). apply String.eqb_eq in Heq. now exists d.
  - intros (d & Heq & Hin). exists d. split; [exact Hin|].
    now apply String.eqb_eq.
Qed.

Lemma loadExistingDevices_registry (w : World) :
  loadExistingDevices w = (registry w, w).
Proof.
  unfold loadExistingDevices, readDevices, registry, bind, ret.
  destruct (file w); reflexivity.
Qed.

Lemma encryptPrivateKey_some (privKey pinCode : string) (w : World) :
  exists blob,
    encryptPrivateKey privKey pinCode w
    = (Some blob,
       mkWorld (tape w) (pos w + 32)%nat (clock w) (file w) (relay w) (sent w))
    /\ isEmpty blob = false.
Proof.
  unfold encryptPrivateKey, bind, ret, getRandomBytes. cbn [tape pos clock file relay sent].
  eexists. split.
  - f_equal. f_equal. lia.
  - unfold encryptWith. rewrite bytesToHex_hexOfBytes.
    cbn [seq map]. rewrite hexOfBytes_cons. reflexivity.
Qed.

(** The public key of the registration path is never the empty string. *)
Lemma getPublicKey_nonempty (privKey pk : string) :
  getPublicKey privKey = Some pk -> isEmpty pk = false.
Proof.
  unfold getPublicKey, Noble.getPublicKey.
  destruct (Noble.toPriv _) as [d|]; [|discriminate].
  intros H. injection H as <-.
  fold (bytesToHex (Noble.toRawBytes (Noble.mul d Noble.G) false)).
  rewrite bytesToHex_hexOfBytes.
  unfold Noble.toRawBytes. destruct (Noble.aff _).
  rewrite hexOfBytes_cons. reflexivity.
Qed.

(** What [saveDevice] does once the inputs are valid and the key derives:
    a duplicate name or public key stops it before any write; otherwise the
    new record is appended and the file written. *)
Lemma saveDevice_valid (privateKey name url pin pk : string) (w : World) :
  validateInputs privateKey name url pin = None ->
  getPublicKey privateKey = Some pk ->
  exists blob w1,
    w1 = mkWorld (tape w) (pos w + 32)%nat (clock w) (file w) (relay w) (sent w)
    /\ saveDevice privateKey name url pin w
       = if existsb (fun device => (deviceName device =? name)%string) (registry w)
         then (mkAlert "Error" "A device with this name already exists", w1)
         else if existsb (fun device => (pubkey device =? pk)%string) (registry w)
         then (mkAlert "Error" "A device with this public key already exists", w1)
         else (mkAlert "Success" "Device added successfully",
               mkWorld (tape w) (pos w + 32)%nat (clock w)
                 (Stored (registry w ++ [mkDevice pk name url blob]))
                 (relay w) (sent w)).
Proof.
  intros Hval Hpk.
  destruct (encryptPrivateKey_some privateKey pin w) as (blob & Henc & Hblob).
  exists blob. eexists. split; [reflexivity|].
  unfold saveDevice. rewrite Hval, Hpk, (getPublicKey_nonempty _ _ Hpk).
  unfold bind. rewrite Henc, loadExistingDevices_registry.
  unfold registry. cbn [file].
  destruct (existsb _ _); [reflexivity|].
  destruct (existsb _ _); [reflexivity|].
  rewrite Hblob. reflexivity.
Qed.

(** C6. Add is atomic on duplicates: when the candidate's name or derived
    public key is that of a record of the registry, [saveDevice] shows the
    duplicate-name error (if the name is taken) or else the
    duplicate-public-key error, and the devices file is left as it was. *)
Theorem add_rejects_duplicates
  (privateKey name url pin pk : string) (w : World) :
  validateInputs privateKey name url pin = None ->
  getPublicKey privateKey = Some pk ->
  In name (map deviceName (registry w)) \/ In pk (map pubkey (registry w)) ->
  file (snd (saveDevice privateKey name url pin w)) = file w
  /\ (In name (map deviceName (registry w)) ->
      fst (saveDevice privateKey name url pin w)
      = mkAlert "Error" "A device with this name already exists")
  /\ (~ In name (map deviceName (registry w)) ->
      fst (saveDevice privateKey name url pin w)
      = mkAlert "Error" "A device with this public key already exists").
Proof.
  intros Hval Hpk Hdup.
  destruct (saveDevice_valid _ _ _ _ _ w Hval Hpk) as (blob & w1 & -> & ->).
  destruct (existsb (fun device => (deviceName device =? name)%string) (registry w))
    eqn:En.
  - apply existsb_name_spec in En. split; [reflexivity|].
    split; [reflexivity | intros Hn; contradiction].
  - assert (Hn : ~ In name (map deviceName (registry w))).
    { intros Hin. apply existsb_name_spec in Hin. congruence. }
    destruct Hdup as [Hin | Hin]; [contradiction|].
    apply existsb_pubkey_spec in Hin. rewrite Hin.
    split; [reflexivity|]. split; [intros Hin'; contradiction | reflexivity].
Qed.

(** The record [saveChanges] writes in place of [d]. *)
Lemma saveChanges_valid (pk name url : string) (w : World) (devices : list Device) :
  validateEdit name url = None ->
  file w = Stored devices ->
  saveChanges pk name url w
  = (mkAlert "Success" "Device updated successfully",
     mkWorld (tape w) (pos w) (clock w)
       (Stored (map (fun d => if (pubkey d =? pk)%string
                              then mkDevice (pubkey d) name url (encryptedPrivKey d)
                              else d) devices))
       (relay w) (sent w)).
Proof.
  intros Hval Hfile.
  unfold saveChanges, bind, ret, readDevices, writeDevices.
  rewrite Hval, Hfile. reflexivity.
Qed.

(** C9, as the code has it. For valid inputs and a readable file,
    [saveChanges] always reports success and writes the collection back:
    a record whose public key is the one given gets the new name and relay
    URL and keeps its public key and encrypted key; every other record is
    written as it was, in the same place; and when no record has that
    public key the collection written is the one read (no error is raised). *)
Theorem saveChanges_replaces_name_and_relay
  (pk name url : string) (w : World) (devices : list Device) :
  validateEdit name url = None ->
  file w = Stored devices ->
  fst (saveChanges pk name url w) = mkAlert "Success" "Device updated successfully"
  /\ exists updated,
       file (snd (saveChanges pk name url w)) = Stored updated
       /\ List.length updated = List.length devices
       /\ (forall i d, nth_error devices i = Some d ->
             exists d', nth_error updated i = Some d'
               /\ pubkey d' = pubkey d
               /\ encryptedPrivKey d' = encryptedPrivKey d
               /\ (pubkey d = pk -> deviceName d' = name /\ relayUrl d' = url)
               /\ (pubkey d <> pk -> d' = d))
       /\ (~ In pk (map pubkey devices) -> updated = devices).
Proof.
  intros Hval Hfile. rewrite (saveChanges_valid _ _ _ _ _ Hval Hfile).
  cbn [fst snd file]. split; [reflexivity|].
  eexists. split; [reflexivity|]. split; [apply length_map|]. split.
  - intros i d Hd. rewrite nth_error_map, Hd. cbn [option_map].
    eexists. split; [reflexivity|].
    destruct (String.eqb_spec (pubkey d) pk) as [E | E]; cbn.
    + repeat split; try reflexivity; intros; contradiction.
    + repeat split; try reflexivity; intros; contradiction.
  - intros Hnot. rewrite <- (map_id devices) at 2.
    apply map_ext_in. intros d Hd.
    destruct (String.eqb_spec (pubkey d) pk) as [E | E]; [|reflexivity].
    exfalso. apply Hnot. rewrite <- E. now apply in_map.
Qed.

(** *** Uniqueness of public keys is an invariant *)

Lemma registry_run (op : Op) (w : World) :
  registry (snd (run op w)) = registry w
  \/ (exists d, registry (snd (run op w)) = registry w ++ [d]
                /\ ~ In (pubkey d) (map pubkey (registry w))
                /\ ~ In (deviceName d) (map deviceName (registry w)))
  \/ (exists pk name url,
        registry (snd (run op w))
        = map (fun d => if (pubkey d =? pk)%string
                        then mkDevice (pubkey d) name url (encryptedPrivKey d)
                        else d) (registry w))
  \/ (exists pk,
        registry (snd (run op w))
        = filter (fun d => negb (pubkey d =? pk)%string) (registry w)).
Proof.
  destruct op as [privateKey name url pin | pk name url | pk]; cbn [run].
  - destruct (validateInputs privateKey name url pin) eqn:Hval.
    { left. unfold saveDevice. now rewrite Hval. }
    destruct (getPublicKey privateKey) as [pk|] eqn:Hpk.
    2:{ left. unfold saveDevice. now rewrite Hval, Hpk. }
    destruct (saveDevice_valid _ _ _ _ _ w Hval Hpk) as (blob & w1 & -> & ->).
    destruct (existsb _ _) eqn:En; [now left|].
    destruct (existsb (fun device => (pubkey device =? pk)%string) _) eqn:Ep;
      [now left|].
    right. left. exists (mkDevice pk name url blob). cbn. repeat split.
    + intros Hin. apply existsb_pubkey_spec in Hin. congruence.
    + intros Hin. apply existsb_name_spec in Hin. congruence.
  - destruct (validateEdit name url) eqn:Hval.
    { left. unfold saveChanges. now rewrite Hval. }
    destruct (file w) as [| |devices] eqn:Hfile.
    + left. unfold saveChanges, bind, readDevices. now rewrite Hval, Hfile.
    + left. unfold saveChanges, bind, readDevices. now rewrite Hval, Hfile.
    + right. right. left. exists pk, name, url.
      rewrite (saveChanges_valid _ _ _ _ _ Hval Hfile).
      unfold registry. cbn [snd file]. now rewrite Hfile.
  - destruct (file w) as [| |devices] eqn:Hfile.
    + left. unfold deleteDevice, bind, readDevices. now rewrite Hfile.
    + left. unfold deleteDevice, bind, readDevices. now rewrite Hfile.
    + right. right. right. exists pk.
      unfold deleteDevice, bind, readDevices, writeDevices, ret, registry.
      rewrite Hfile. reflexivity.
Qed.

Lemma NoDup_filter {A : Type} (f : A -> bool) (l : list A) :
  NoDup l -> NoDup (filter f l).
Proof.
  induction 1 as [|x l Hx Hl IH]; cbn; [constructor|].
  destruct (f x); [|exact IH].
  constructor; [|exact IH]. intros Hin. apply filter_In in Hin.
  destruct Hin as [Hin _]. contradiction.
Qed.

Lemma map_pubkey_filter (pk : string) (ds : list Device) :
  map pubkey (filter (fun d => negb (pubkey d =? pk)%string) ds)
  = filter (fun k => negb (k =? pk)%string) (map pubkey ds).
Proof.
  induction ds as [|d ds IH]; [reflexivity|]. cbn.
  destruct (negb _); cbn; now rewrite IH.
Qed.

(** In every reachable world no two records share a public key. *)
Lemma reachable_uniquePubkeys (w : World) :
  Reachable w -> uniquePubkeys (registry w).
Proof.
  unfold uniquePubkeys.
  induction 1 as [w Hempty | w op Hw IH].
  - rewrite Hempty. constructor.
  - destruct (registry_run op w)
      as [-> | [(d & -> & Hpk & _) | [(pk & name & url & ->) | (pk & ->)]]].
    + exact IH.
    + rewrite map_app. cbn [map].
      apply NoDup_app; [exact IH | repeat constructor; intros [] |].
      intros k Hk [<- | []]. contradiction.
    + rewrite map_map.
      replace (map _ (registry w)) with (map pubkey (registry w)); [exact IH|].
      apply map_ext. intros d. now destruct (pubkey d =? pk)%string.
    + rewrite map_pubkey_filter. now apply NoDup_filter.
Qed.

(** C4 fails on the code. From an empty registry, adding a device named
    "desktop" (private key 1), adding a device named "laptop" (private key
    2) and then renaming the second to "desktop" all succeed, and the
    reachable registry then holds two records with the same name:
    [saveChanges] never looks at the names of the other records. *)
Theorem update_breaks_name_uniqueness (w : World) :
  URL_parses "https://relay.scaler.icu" = true ->
  registry w = [] ->
  let url := "https://relay.scaler.icu" in
  let add1 :=
    Add "0000000000000000000000000000000000000000000000000000000000000001"
        "desktop" url "123456" in
  let add2 :=
    Add "0000000000000000000000000000000000000000000000000000000000000002"
        "laptop" url "123456" in
  let rename :=
    Update "04c6047f9441ed7d6d3045406e95c07cd85c778e4b8cef3ca7abac09b95c709ee51ae168fea63dc339a3c58419466ceaeef7f632653266d0e1236431a950cfe52a"
           "desktop" url in
  let w1 := snd (run add1 w) in
  let w2 := snd (run add2 w1) in
  let w3 := snd (run rename w2) in
  fst (run add1 w) = mkAlert "Success" "Device added successfully"
  /\ fst (run add2 w1) = mkAlert "Success" "Device added successfully"
  /\ fst (run rename w2) = mkAlert "Success" "Device updated successfully"
  /\ Reachable w3
  /\ map deviceName (registry w3) = ["desktop"; "desktop"]
  /\ ~ uniqueNames (registry w3).
Proof.
  intros Hurl Hempty url add1 add2 rename w1 w2 w3.
  assert (Hval : forall key name,
             validateInputs key name url "123456"
             = if isEmpty (JS.trim key) then Some "Private key is required"
               else if isEmpty (JS.trim name) then Some "Device name is required"
               else if negb (isHex64 key) then Some "Invalid private key format"
               else None).
  { intros key name. unfold validateInputs, url. rewrite Hurl.
    change (isEmpty (JS.trim "https://relay.scaler.icu")) with false.
    change (negb (JS.len "123456" =? 6) || negb (isSixDigits "123456")) with false.
    cbn [negb]. reflexivity. }
  assert (Reach3 : Reachable w3).
  { do 3 apply reach_step. now apply reach_empty. }
  (* the first add *)
  destruct (saveDevice_valid
              "0000000000000000000000000000000000000000000000000000000000000001"
              "desktop" url "123456"
              "0479be667ef9dcbbac55a06295ce870b07029bfcdb2dce28d959f2815b16f81798483ada7726a3c4655da4fbfc0e1108a8fd17b448a68554199c47d08ffb10d4b8"
              w) as (blob1 & w1' & -> & E1).
  { rewrite Hval. vm_compute. reflexivity. }
  { vm_compute. reflexivity. }
  rewrite Hempty in E1. cbn [existsb app] in E1.
  assert (R1 : registry w1
               = [mkDevice
                    "0479be667ef9dcbbac55a06295ce870b07029bfcdb2dce28d959f2815b16f81798483ada7726a3c4655da4fbfc0e1108a8fd17b448a68554199c47d08ffb10d4b8"
                    "desktop" url blob1]).
  { unfold w1, add1, run. now rewrite E1. }
  (* the second add *)
  destruct (saveDevice_valid
              "0000000000000000000000000000000000000000000000000000000000000002"
              "laptop" url "123456"
              "04c6047f9441ed7d6d3045406e95c07cd85c778e4b8cef3ca7abac09b95c709ee51ae168fea63dc339a3c58419466ceaeef7f632653266d0e1236431a950cfe52a"
              w1) as (blob2 & w2' & -> & E2).
  { rewrite Hval. vm_compute. reflexivity. }
  { vm_compute. reflexivity. }
  rewrite R1 in E2. cbn [existsb app deviceName pubkey] in E2.
  change (("desktop" =? "laptop")%string) with false in E2.
  match type of E2 with context [(?a =? ?b)%string] =>
    replace ((a =? b)%string) with false in E2 by (vm_compute; reflexivity)
  end.
  cbn [orb] in E2.
  assert (F2 : file w2
               = Stored
                   [mkDevice
                      "0479be667ef9dcbbac55a06295ce870b07029bfcdb2dce28d959f2815b16f81798483ada7726a3c4655da4fbfc0e1108a8fd17b448a68554199c47d08ffb10d4b8"
                      "desktop" url blob1;
                    mkDevice
                      "04c6047f9441ed7d6d3045406e95c07cd85c778e4b8cef3ca7abac09b95c709ee51ae168fea63dc339a3c58419466ceaeef7f632653266d0e1236431a950cfe52a"
                      "laptop" url blob2]).
  { unfold w2, add2, run. now rewrite E2. }
  (* the rename *)
  assert (Hedit : validateEdit "desktop" url = None).
  { unfold validateEdit, url. rewrite Hurl. reflexivity. }
  pose proof (saveChanges_valid
                "04c6047f9441ed7d6d3045406e95c07cd85c778e4b8cef3ca7abac09b95c709ee51ae168fea63dc339a3c58419466ceaeef7f632653266d0e1236431a950cfe52a"
                "desktop" url w2 _ Hedit F2) as E3.
  cbn [map pubkey encryptedPrivKey] in E3.
  match type of E3 with context [(?a =? ?b)%string] =>
    replace ((a =? b)%string) with false in E3 by (vm_compute; reflexivity)
  end.
  rewrite String.eqb_refl in E3.
  assert (R3 : map deviceName (registry w3) = ["desktop"; "desktop"]).
  { unfold w3, rename, run. rewrite E3. reflexivity. }
  split; [unfold add1, run; now rewrite E1|].
  split; [unfold add2, run; now rewrite E2|].
  split; [unfold rename, run; now rewrite E3|].
  split; [exact Reach3|]. split; [exact R3|].
  unfold uniqueNames. rewrite R3. intros Hnd.
  inversion Hnd as [|x l Hnotin _]. apply Hnotin. now left.
Qed.

(** *** Signing *)

(** With the options of [signCommand], [sign] reads nothing of the world
    and leaves it as it was: its result is a function of the message hash
    and the key. *)
Lemma sign_optS (msgh priv : list byte) (w : World) :
  Noble.sign hmacSha256Sync msgh priv Noble.optS w
  = (match Noble.toPriv priv with
     | Some d =>
         Noble.hmacDrbg hmacSha256Sync
           (Noble.n2b d ++ Noble.n2b (Noble.bits2int msgh mod Noble.N) ++ [])
           (Noble.k2sig true (Noble.bits2int msgh mod Noble.N) d)
     | None => None
     end, w).
Proof.
  unfold Noble.sign. destruct (Noble.toPriv priv); reflexivity.
Qed.

(** [signCommand] gives the same result in every world and changes none. *)
Lemma signCommand_pure (command_ privateKeyHex : string) (w1 w2 : World) :
  fst (signCommand command_ privateKeyHex w1)
  = fst (signCommand command_ privateKeyHex w2)
  /\ snd (signCommand command_ privateKeyHex w1) = w1.
Proof.
  unfold signCommand, bind. rewrite !sign_optS.
  destruct (Noble.toPriv _); [|now split].
  destruct (Noble.hmacDrbg _ _ _); [|now split].
  destruct (Noble.getPublicKey _ _); now split.
Qed.

(** C2. Signature determinism: for a fixed action, timestamp and private
    key, [signCommand] gives the same result (the same compact signature in
    particular) in any two worlds, whatever their random tapes, clocks and
    files, and it leaves the world as it found it: no random byte is drawn. *)
Theorem signCommand_deterministic
  (action timestamp privateKeyHex : string) (w1 w2 : World) :
  let command_ := action +++ "+" +++ timestamp in
  fst (signCommand command_ privateKeyHex w1)
  = fst (signCommand command_ privateKeyHex w2)
  /\ option_map signatureHex (fst (signCommand command_ privateKeyHex w1))
     = option_map signatureHex (fst (signCommand command_ privateKeyHex w2))
  /\ snd (signCommand command_ privateKeyHex w1) = w1
  /\ snd (signCommand command_ privateKeyHex w2) = w2.
Proof.
  intros command_.
  destruct (signCommand_pure command_ privateKeyHex w1 w2) as [E1 W1].
  destruct (signCommand_pure command_ privateKeyHex w2 w1) as [_ W2].
  rewrite E1. repeat split; assumption.
Qed.

(** By contrast, [sign] with [extraEntropy] draws 32 bytes from the tape. *)
Lemma sign_extraEntropy_draws (msgh priv : list byte) (w : World) (d : Z) :
  Noble.toPriv priv = Some d ->
  pos (snd (Noble.sign hmacSha256Sync msgh priv
              (Noble.mkSignOpts (Some true) true) w))
  = (pos w + 32)%nat.
Proof.
  intros Hd. unfold Noble.sign, bind, ret. rewrite Hd. reflexivity.
Qed.

Lemma n2b_length (n : Z) : List.length (Noble.n2b n) = 32%nat.
Proof. unfold Noble.n2b. now rewrite length_map, length_seq. Qed.

Lemma toRawBytes_length (p : Noble.Point) (c : bool) :
  List.length (Noble.toRawBytes p c) = if c then 33%nat else 65%nat.
Proof.
  unfold Noble.toRawBytes. destruct (Noble.aff p) as [x y].
  destruct c; cbn [List.length]; rewrite ?length_app, !n2b_length; reflexivity.
Qed.

(** A pair of hexadecimal digits read by [parseInt(_, 16)]. *)
Lemma parseInt16_hex_pair (a b : ascii) (x y : Z) :
  JS.hexValue a = Some x -> JS.hexValue b = Some y ->
  JS.parseInt16 (String a (String b "")) = Some (16 * x + y)
  /\ JS.isLineTerminator a = false /\ JS.isLineTerminator b = false.
Proof.
  destruct a as [[] [] [] [] [] [] [] []]; try discriminate;
    intros Ha; injection Ha as <-;
    destruct b as [[] [] [] [] [] [] [] []]; try discriminate;
    intros Hb; injection Hb as <-; repeat split.
Qed.

(** On hexadecimal digits the registration path and the signing path read
    the same key bytes. *)
Lemma key_bytes_agree (s : string) :
  forallb JS.isHexDigit (list_ascii_of_string s) = true ->
  Nat.even (String.length s) = true ->
  map (fun piece => toUint8 (JS.parseInt16 piece)) (matchPairs s)
  = Buffer_from_hex s.
Proof.
  revert s.
  fix IH 1. intros [|a [|b rest]] Hhex Heven.
  - reflexivity.
  - discriminate.
  - cbn [list_ascii_of_string forallb] in Hhex.
    apply andb_true_iff in Hhex as [Ha Hhex].
    apply andb_true_iff in Hhex as [Hb Hhex].
    unfold JS.isHexDigit in Ha, Hb.
    destruct (JS.hexValue a) as [x|] eqn:Ea; [|discriminate].
    destruct (JS.hexValue b) as [y|] eqn:Eb; [|discriminate].
    destruct (parseInt16_hex_pair a b x y Ea Eb) as (Hp & La & Lb).
    cbn [matchPairs Buffer_from_hex]. rewrite La, Lb, Ea, Eb.
    cbn [map]. rewrite Hp. f_equal. apply IH; assumption.
Qed.

(** *** Dates and the timestamp of a command *)

(** A check on every number below [n] holds of each of them. *)
Lemma forall_below (P : Z -> bool) (n : nat) :
  forallb P (map Z.of_nat (seq 0 n)) = true ->
  forall z, 0 <= z < Z.of_nat n -> P z = true.
Proof.
  intros H z Hz. rewrite forallb_forall in H. apply H.
  apply in_map_iff. exists (Z.to_nat z). split; [lia|].
  apply in_seq. lia.
Qed.

Lemma pad2_digits (n : Z) :
  0 <= n < 100 ->
  Date.pad 2 n = twoDigits n.
Proof.
  intros H.
  apply String.eqb_eq.
  apply (forall_below
           (fun n => (Date.pad 2 n
                      =? twoDigits n)%string)
           (Z.to_nat 100)); [vm_compute; reflexivity | lia].
Qed.

Lemma pad3_digits (n : Z) :
  0 <= n < 1000 ->
  Date.pad 3 n
  = String (digitAt n 2) (String (digitAt n 1) (String (digitAt n 0) "")).
Proof.
  intros H.
  apply String.eqb_eq.
  apply (forall_below
           (fun n => (Date.pad 3 n
                      =? String (digitAt n 2)
                           (String (digitAt n 1) (String (digitAt n 0) "")))%string)
           (Z.to_nat 1000)); [vm_compute; reflexivity | lia].
Qed.

Lemma pad4_digits (n : Z) :
  0 <= n < 10000 ->
  Date.pad 4 n = fourDigits n.
Proof.
  intros H.
  apply String.eqb_eq.
  apply (forall_below
           (fun n => (Date.pad 4 n
                      =? fourDigits n)%string)
           (Z.to_nat 10000)); [vm_compute; reflexivity | lia].
Qed.

Lemma dayOfYear_range (doe : Z) :
  0 <= doe < 146097 -> 0 <= Date.dayOfYear doe < 366.
Proof.
  intros H. unfold Date.dayOfYear, Date.yearOfEra.
  div_lia.
Qed.

(** The month of a civil date is 1 to 12 and its day 1 to 31. *)
Lemma civil_range (day : Z) :
  let '(y, m, d) := Date.civil day in 1 <= m <= 12 /\ 1 <= d <= 31.
Proof.
  unfold Date.civil.
  set (z := day + 719468).
  assert (Hdoe : 0 <= z - z / 146097 * 146097 < 146097)
    by (div_lia).
  pose proof (dayOfYear_range _ Hdoe) as Hdoy.
  set (doy := Date.dayOfYear _) in *.
  assert (Hmp : 0 <= (5 * doy + 2) / 153 <= 11) by (div_lia).
  set (mp := (5 * doy + 2) / 153) in *.
  split.
  - destruct (mp <? 10) eqn:E; [apply Z.ltb_lt in E | apply Z.ltb_ge in E]; lia.
  - unfold mp. div_lia.
Qed.

Lemma digit_not_separator (n k : Z) :
  existsb (Ascii.eqb (digitAt n k)) (list_ascii_of_string "-:.TZ") = false.
Proof.
  unfold digitAt.
  assert (H : 0 <= (n / 10 ^ k) mod 10 < Z.of_nat 10)
    by (apply Z.mod_pos_bound; lia).
  revert H. generalize ((n / 10 ^ k) mod 10). intros d Hd.
  apply negb_true_iff.
  apply (forall_below
           (fun d => negb (existsb (Ascii.eqb (JS.digitChar d))
                             (list_ascii_of_string "-:.TZ"))) 10);
    [vm_compute; reflexivity | exact Hd].
Qed.


(** The ISO string of a date whose year is 0000 to 9999. *)
Lemma toISOString_digits (t : Z) :
  0 <= Date.YearFromTime t <= 9999 ->
  Date.toISOString t
  = fourDigits (Date.YearFromTime t) +++ "-"
    +++ twoDigits (Date.MonthFromTime t + 1) +++ "-"
    +++ twoDigits (Date.DateFromTime t) +++ "T"
    +++ twoDigits (Date.HourFromTime t) +++ ":"
    +++ twoDigits (Date.MinFromTime t) +++ ":"
    +++ twoDigits (Date.SecFromTime t) +++ "."
    +++ Date.pad 3 (Date.msFromTime t) +++ "Z".
Proof.
  intros Hy. unfold Date.toISOString.
  destruct ((0 <=? Date.YearFromTime t) && (Date.YearFromTime t <=? 9999)) eqn:E.
  2:{ apply andb_false_iff in E as [E | E];
        [apply Z.leb_gt in E | apply Z.leb_gt in E]; lia. }
  pose proof (civil_range (Date.Day t)) as Hc.
  unfold Date.MonthFromTime, Date.DateFromTime.
  destruct (Date.civil (Date.Day t)) as [[y m] d]. cbn [fst snd].
  rewrite pad4_digits by lia.
  rewrite (pad2_digits (m - 1 + 1)) by lia.
  rewrite (pad2_digits d) by lia.
  rewrite (pad2_digits (Date.HourFromTime t))
    by (unfold Date.HourFromTime; div_lia).
  rewrite (pad2_digits (Date.MinFromTime t))
    by (unfold Date.MinFromTime; div_lia).
  rewrite (pad2_digits (Date.SecFromTime t))
    by (unfold Date.SecFromTime; div_lia).
  reflexivity.
Qed.

Lemma stripSeparators_digit (n k : Z) (s : string) :
  stripSeparators (String (digitAt n k) s)
  = String (digitAt n k) (stripSeparators s).
Proof. cbn [stripSeparators]. now rewrite digit_not_separator. Qed.

Lemma stripSeparators_separator (c : ascii) (s : string) :
  existsb (Ascii.eqb c) (list_ascii_of_string "-:.TZ") = true ->
  stripSeparators (String c s) = stripSeparators s.
Proof. intros H. cbn [stripSeparators]. now rewrite H. Qed.

(** Stripping the separators and cutting to 14 characters leaves the
    fourteen digits of the date and time. *)
Lemma formatTime_toISOString (t : Z) :
  0 <= Date.YearFromTime t <= 9999 ->
  formatTime (Date.toISOString t) = timestampOf t.
Proof.
  intros Hy. rewrite (toISOString_digits t Hy).
  rewrite pad3_digits by (unfold Date.msFromTime; div_lia).
  unfold formatTime, timestampOf, fourDigits, twoDigits.
  cbn [String.append].
  repeat first [ rewrite stripSeparators_digit
               | rewrite stripSeparators_separator by reflexivity ].
  change (stripSeparators "") with "".
  repeat match goal with
  | |- context [digitAt ?n ?k] =>
      let c := fresh "c" in generalize (digitAt n k); intros c
  end.
  reflexivity.
Qed.

Lemma timestampOf_length (t : Z) : String.length (timestampOf t) = 14%nat.
Proof. reflexivity. Qed.


Lemma signCommand_result (command_ privateKeyHex : string) (w : World) (res : Signed) :
  fst (signCommand command_ privateKeyHex w) = Some res ->
  command res = command_ /\ snd (signCommand command_ privateKeyHex w) = w.
Proof.
  unfold signCommand, bind. rewrite sign_optS.
  destruct (Noble.toPriv _); [|discriminate].
  destruct (Noble.hmacDrbg _ _ _); [|discriminate].
  destruct (Noble.getPublicKey _ _); [|discriminate].
  cbn. intros H. injection H as <-. now split.
Qed.




(** *** The status of a device *)

(** The date string [checkDeviceStatus] rebuilds from the fourteen digits
    of an instant is the ISO string of the instant, cut after the seconds
    and closed by [Z]. *)
Lemma lastFetchedIso_timestampOf (t : Z) :
  0 <= Date.YearFromTime t <= 9999 ->
  lastFetchedIso (timestampOf t)
  = JS.slice (Date.toISOString t) 0 (Some 19) +++ "Z".
Proof.
  intros Hy. rewrite (toISOString_digits t Hy).
  rewrite pad3_digits by (unfold Date.msFromTime; div_lia).
  unfold timestampOf, fourDigits, twoDigits.
  repeat match goal with
  | |- context [digitAt ?n ?k] =>
      let c := fresh "c" in generalize (digitAt n k); intros c
  end.
  reflexivity.
Qed.

(** C10. Online and offline.  [Date.parse] is assumed to read the ISO
    string of an instant, written to the second, back as that second.  When
    the relay answers a status check with the timestamp YYYYMMDDHHMMSS of
    an instant [t0] (UTC year 0000 to 9999), [checkDeviceStatus] computes
    [floor((now - last) / 1000)] with [last] the second of [t0], which is
    the whole seconds of now minus those of [t0]; and every entry of the
    list with the public key of the device comes out not loading and online
    exactly when that difference is at most 60: online at 60, offline at
    61. *)
Theorem online_iff_within_60_seconds
  (t0 : Z) (dev : Device) (prev : list HomeDevice) (w : World) :
  (forall t,
     0 <= Date.YearFromTime t <= 9999 ->
     Date_parse (JS.slice (Date.toISOString t) 0 (Some 19) +++ "Z")
     = Some (1000 * (t / 1000))) ->
  0 <= Date.YearFromTime t0 <= 9999 ->
  relay w (LastActive (dropFinalSlash (relayUrl dev) +++ "/api/request/last-active")
             (pubkey dev)) = Ok (Some (timestampOf t0)) ->
  let last := 1000 * (t0 / 1000) in
  let seconds := (clock w - last) / 1000 in
  let updated := fst (checkDeviceStatus dev prev w) in
  diffInSeconds (clock w) (timestampOf t0) = Some seconds
  /\ seconds = clock w / 1000 - t0 / 1000
  /\ (onlineAt (clock w) (timestampOf t0) = true <-> seconds <= 60)
  /\ List.length updated = List.length prev
  /\ (forall i d,
        nth_error prev i = Some d ->
        pubkey (device d) = pubkey dev ->
        exists d',
          nth_error updated i = Some d'
          /\ device d' = device d
          /\ isLoading d' = false
          /\ (isOnline d' = true <-> seconds <= 60)
          /\ (seconds = 60 -> isOnline d' = true)
          /\ (seconds = 61 -> isOnline d' = false)).
Proof.
  intros Hparse Hy Hrelay last seconds updated.
  assert (Hdiff : diffInSeconds (clock w) (timestampOf t0) = Some seconds).
  { unfold diffInSeconds.
    now rewrite (lastFetchedIso_timestampOf t0 Hy), (Hparse t0 Hy). }
  assert (Hon : onlineAt (clock w) (timestampOf t0) = (seconds <=? 60)).
  { unfold onlineAt. now rewrite Hdiff. }
  assert (Hup : updated
                = setStatus (pubkey dev) (seconds <=? 60) prev).
  { subst updated. unfold checkDeviceStatus, bind, fetch. rewrite Hrelay.
    unfold currentTime, ret. cbn [fst clock]. now rewrite Hon. }
  split; [exact Hdiff|].
  split; [subst seconds last; clear; div_lia|].
  split; [rewrite Hon; apply Z.leb_le|].
  split; [rewrite Hup; unfold setStatus; apply length_map|].
  intros i d Hd Hpk. rewrite Hup. unfold setStatus.
  rewrite nth_error_map, Hd. cbn [option_map].
  rewrite Hpk, String.eqb_refl.
  eexists. split; [reflexivity|]. cbn [device isLoading isOnline].
  split; [reflexivity|]. split; [reflexivity|].
  split; [apply Z.leb_le|].
  split; intros E; rewrite E; reflexivity.
Qed.

(** *** The public key of a signed command *)

Lemma hexOfBytes_app (a b : list byte) :
  hexOfBytes (a ++ b) = hexOfBytes a +++ hexOfBytes b.
Proof.
  induction a as [|x a IH]; [reflexivity|].
  cbn [app]. rewrite !hexOfBytes_cons, IH. reflexivity.
Qed.

Lemma isHex64_even (s : string) :
  isHex64 s = true ->
  forallb JS.isHexDigit (list_ascii_of_string s) = true
  /\ Nat.even (String.length s) = true.
Proof.
  unfold isHex64. intros H. apply andb_true_iff in H as [Hlen Hhex].
  apply Nat.eqb_eq in Hlen. rewrite Hlen. now split.
Qed.

(** C3 fails on the code. For a private key of 64 hexadecimal digits,
    whenever [signCommand] returns a result and the registration path
    derives a public key, both come from the same curve point [(x, y)]: the
    registered key is "04", X and Y (130 digits), but [publicKeyHex] is "04"
    put before the compressed encoding, "02" or "03" and X (68 digits), so
    the two are never equal. *)
Theorem signCommand_publicKeyHex_differs_from_registered
  (command_ privateKeyHex pk : string) (w : World) (res : Signed) :
  isHex64 privateKeyHex = true ->
  getPublicKey privateKeyHex = Some pk ->
  fst (signCommand command_ privateKeyHex w) = Some res ->
  exists x y,
    pk = "04" +++ hexOfBytes (Noble.n2b x) +++ hexOfBytes (Noble.n2b y)
    /\ publicKeyHex res
       = "04" +++ (if Z.even y then "02" else "03") +++ hexOfBytes (Noble.n2b x)
    /\ String.length pk = 130%nat
    /\ String.length (publicKeyHex res) = 68%nat
    /\ publicKeyHex res <> pk.
Proof.
  intros Hhex Hpk Hres.
  destruct (isHex64_even _ Hhex) as [Hdigits Heven].
  unfold getPublicKey in Hpk. rewrite key_bytes_agree in Hpk by assumption.
  unfold signCommand, bind in Hres. rewrite sign_optS in Hres.
  unfold Noble.getPublicKey in Hpk, Hres.
  destruct (Noble.toPriv (Buffer_from_hex privateKeyHex)) as [d|]; [|discriminate].
  destruct (Noble.hmacDrbg _ _ _) as [sig|]; [|discriminate].
  unfold ret in Hres. cbn [fst] in Hres. injection Hres as <-. injection Hpk as <-.
  cbn [publicKeyHex].
  fold (bytesToHex (Noble.toRawBytes (Noble.mul d Noble.G) false)).
  rewrite bytesToHex_hexOfBytes.
  unfold Noble.toRawBytes. destruct (Noble.aff (Noble.mul d Noble.G)) as [x y].
  cbv beta iota. exists x, y.
  assert (E1 : hexOfBytes (x04 :: Noble.n2b x ++ Noble.n2b y)
               = "04" +++ hexOfBytes (Noble.n2b x) +++ hexOfBytes (Noble.n2b y)).
  { rewrite hexOfBytes_cons, hexOfBytes_app. reflexivity. }
  assert (E2 : "04" +++ hexOfBytes ((if Z.even y then x02 else x03) :: Noble.n2b x)
               = "04" +++ (if Z.even y then "02" else "03")
                 +++ hexOfBytes (Noble.n2b x)).
  { rewrite hexOfBytes_cons. now destruct (Z.even y). }
  assert (L1 : String.length
                 ("04" +++ hexOfBytes (Noble.n2b x) +++ hexOfBytes (Noble.n2b y))
               = 130%nat).
  { rewrite !length_append, !hexOfBytes_length, !n2b_length. reflexivity. }
  assert (L2 : String.length
                 ("04" +++ (if Z.even y then "02" else "03")
                  +++ hexOfBytes (Noble.n2b x)) = 68%nat).
  { rewrite !length_append, !hexOfBytes_length, !n2b_length.
    now destruct (Z.even y). }
  change (String "0" (String "4"
            (hexOfBytes ((if Z.even y then x02 else x03) :: Noble.n2b x))))
    with ("04" +++ hexOfBytes ((if Z.even y then x02 else x03) :: Noble.n2b x)).
  rewrite E1, E2. repeat split; try assumption.
  intros Heq. rewrite Heq, L1 in L2. discriminate.
Qed.

(** *** Registration, from the form to the file *)

(** The inputs [validateInputs] lets through. *)
Lemma validateInputs_None (privateKey name url pin : string) :
  validateInputs privateKey name url pin = None ->
  isHex64 privateKey = true /\ isSixDigits pin = true /\ URL_parses url = true.
Proof.
  unfold validateInputs.
  destruct (isEmpty (JS.trim privateKey)); [discriminate|].
  destruct (isEmpty (JS.trim name)); [discriminate|].
  destruct (isEmpty (JS.trim url)); [discriminate|].
  destruct (JS.len pin =? 6); cbn [negb orb]; [|discriminate].
  destruct (isSixDigits pin); cbn [negb]; [|discriminate].
  destruct (isHex64 privateKey); cbn [negb]; [|discriminate].
  destruct (URL_parses url); cbn [negb]; [|discriminate].
  intros _. split; [reflexivity|]. split; reflexivity.
Qed.

(** Decryption under the PIN undoes [encryptWith]. *)
Lemma decryptPrivateKey_encryptWith
  (saltBytes ivBytes : list byte) (privKey pin : string) :
  List.length saltBytes = 16%nat -> List.length ivBytes = 16%nat ->
  isHex64 privKey = true ->
  decryptPrivateKey (encryptWith saltBytes ivBytes privKey pin) pin = Some privKey.
Proof using PBKDF2_length AES_inverse Base64_inverse Utf8_inverse.
  intros Hs Hi Hkey. unfold decryptPrivateKey.
  rewrite parseBlob_encryptWith by assumption.
  rewrite Base64_inverse, !bytesOf_uint8ArrayToWordArray by assumption.
  change (256 / 32) with 8.
  rewrite AES_inverse by (apply PBKDF2_length || assumption).
  apply Utf8_inverse, isHex64_isAscii, Hkey.
Qed.

Lemma encryptWith_nonempty (saltBytes ivBytes : list byte) (privKey pin : string) :
  List.length saltBytes = 16%nat ->
  isEmpty (encryptWith saltBytes ivBytes privKey pin) = false.
Proof.
  destruct saltBytes as [|b saltBytes]; [discriminate|]. intros _.
  unfold encryptWith. rewrite bytesToHex_hexOfBytes, hexOfBytes_cons. reflexivity.
Qed.

(** [encryptPrivateKey] takes the salt and then the IV from the tape. *)
Lemma encryptPrivateKey_run (privKey pin : string) (w : World) :
  encryptPrivateKey privKey pin w
  = (Some (encryptWith (fst (getRandomBytes 16 w))
             (fst (getRandomBytes 16 (snd (getRandomBytes 16 w)))) privKey pin),
     mkWorld (tape w) (pos w + 32)%nat (clock w) (file w) (relay w) (sent w)).
Proof.
  unfold encryptPrivateKey, bind, ret, getRandomBytes.
  cbn [fst snd tape pos clock file relay sent].
  f_equal. f_equal. lia.
Qed.

(** A registration that passes every check appends one record. *)
Lemma saveDevice_success (privateKey name url pin pk : string) (w : World) :
  validateInputs privateKey name url pin = None ->
  getPublicKey privateKey = Some pk ->
  ~ In name (map deviceName (registry w)) ->
  ~ In pk (map pubkey (registry w)) ->
  saveDevice privateKey name url pin w
  = (mkAlert "Success" "Device added successfully",
     mkWorld (tape w) (pos w + 32)%nat (clock w)
       (Stored (registry w
                ++ [mkDevice pk name url
                      (encryptWith (fst (getRandomBytes 16 w))
                         (fst (getRandomBytes 16 (snd (getRandomBytes 16 w))))
                         privateKey pin)]))
       (relay w) (sent w)).
Proof.
  intros Hval Hpk Hn Hp.
  assert (En : existsb (fun device => (deviceName device =? name)%string) (registry w)
               = false).
  { destruct (existsb _ _) eqn:E; [|reflexivity].
    apply existsb_name_spec in E. contradiction. }
  assert (Ep : existsb (fun device => (pubkey device =? pk)%string) (registry w)
               = false).
  { destruct (existsb (fun device => (pubkey device =? pk)%string) (registry w))
      eqn:E; [|reflexivity].
    apply existsb_pubkey_spec in E. contradiction. }
  unfold saveDevice. rewrite Hval, Hpk, (getPublicKey_nonempty _ _ Hpk).
  unfold bind. rewrite encryptPrivateKey_run, loadExistingDevices_registry.
  change (registry (mkWorld (tape w) (pos w + 32)%nat (clock w) (file w) (relay w)
                      (sent w))) with (registry w).
  rewrite En, Ep, encryptWith_nonempty by apply getRandomBytes_length.
  reflexivity.
Qed.

(** X1. A registration whose inputs pass validation, whose key gives a
    public key, and whose name and public key are new, reports success,
    appends exactly one record with that public key, name and relay URL to
    the records already there (none when there was no readable file), uses
    32 bytes of the random source, and stores a blob that
    [decryptPrivateKey] opens with the same PIN to the private key typed. *)
Theorem saveDevice_stores_a_record_the_pin_opens
  (privateKey name url pin pk : string) (w : World) :
  validateInputs privateKey name url pin = None ->
  getPublicKey privateKey = Some pk ->
  ~ In name (map deviceName (registry w)) ->
  ~ In pk (map pubkey (registry w)) ->
  exists blob,
    fst (saveDevice privateKey name url pin w)
    = mkAlert "Success" "Device added successfully"
    /\ file (snd (saveDevice privateKey name url pin w))
       = Stored (registry w ++ [mkDevice pk name url blob])
    /\ pos (snd (saveDevice privateKey name url pin w)) = (pos w + 32)%nat
    /\ decryptPrivateKey blob pin = Some privateKey.
Proof using PBKDF2_length AES_inverse Base64_inverse Utf8_inverse.
  intros Hval Hpk Hn Hp.
  exists (encryptWith (fst (getRandomBytes 16 w))
            (fst (getRandomBytes 16 (snd (getRandomBytes 16 w)))) privateKey pin).
  rewrite (saveDevice_success _ _ _ _ _ w Hval Hpk Hn Hp). cbn [fst snd file pos].
  split; [reflexivity|]. split; [reflexivity|]. split; [reflexivity|].
  apply decryptPrivateKey_encryptWith; try apply getRandomBytes_length.
  apply (validateInputs_None _ _ _ _ Hval).
Qed.

(** X2. When the devices file is absent or holds text that does not parse
    as an array, a valid registration does not fail: it writes a file whose
    only record is the new device, so whatever the file held is replaced. *)
Theorem saveDevice_replaces_an_unreadable_file
  (privateKey name url pin pk : string) (w : World) :
  validateInputs privateKey name url pin = None ->
  getPublicKey privateKey = Some pk ->
  file w = Missing \/ file w = Garbled ->
  exists blob,
    fst (saveDevice privateKey name url pin w)
    = mkAlert "Success" "Device added successfully"
    /\ file (snd (saveDevice privateKey name url pin w))
       = Stored [mkDevice pk name url blob].
Proof.
  intros Hval Hpk Hfile.
  assert (Hreg : registry w = []).
  { unfold registry. destruct Hfile as [-> | ->]; reflexivity. }
  exists (encryptWith (fst (getRandomBytes 16 w))
            (fst (getRandomBytes 16 (snd (getRandomBytes 16 w)))) privateKey pin).
  rewrite (saveDevice_success _ _ _ _ _ w Hval Hpk);
    rewrite ?Hreg; cbn [map In]; try (intros []).
  split; reflexivity.
Qed.

(** Hexadecimal digits give [Buffer.from(_, "hex")] one byte per pair. *)
Lemma Buffer_from_hex_length (s : string) :
  forallb JS.isHexDigit (list_ascii_of_string s) = true ->
  List.length (Buffer_from_hex s) = Nat.div2 (String.length s).
Proof.
  revert s. fix IH 1. intros [|a [|b rest]] Hhex.
  - reflexivity.
  - reflexivity.
  - cbn [list_ascii_of_string forallb] in Hhex.
    apply andb_true_iff in Hhex as [Ha Hhex].
    apply andb_true_iff in Hhex as [Hb Hhex].
    unfold JS.isHexDigit in Ha, Hb. cbn [Buffer_from_hex].
    destruct (JS.hexValue a); [|discriminate].
    destruct (JS.hexValue b); [|discriminate].
    cbn [List.length String.length Nat.div2]. f_equal. apply IH, Hhex.
Qed.

(** The bytes the registration path reads from an accepted key. *)
Lemma registration_key_bytes (privateKey : string) :
  isHex64 privateKey = true ->
  map (fun piece => toUint8 (JS.parseInt16 piece)) (matchPairs privateKey)
  = Buffer_from_hex privateKey
  /\ List.length (Buffer_from_hex privateKey) = 32%nat.
Proof.
  intros Hkey. destruct (isHex64_even _ Hkey) as [Hhex Heven].
  split; [now apply key_bytes_agree|].
  rewrite Buffer_from_hex_length by exact Hhex.
  unfold isHex64 in Hkey. apply andb_true_iff in Hkey as [Hlen _].
  apply Nat.eqb_eq in Hlen. now rewrite Hlen.
Qed.

(** X3. A private key of 64 hexadecimal digits whose number is 0 or is not
    below the order of the curve passes validation but gives no public key:
    [saveDevice] shows "Failed to generate public key" and leaves the world
    as it was (no random byte drawn, nothing written). *)
Theorem saveDevice_rejects_a_key_out_of_range
  (privateKey name url pin : string) (w : World) :
  validateInputs privateKey name url pin = None ->
  ~ (0 < Noble.b2n (Buffer_from_hex privateKey) < Noble.N) ->
  saveDevice privateKey name url pin w
  = (mkAlert "Error" "Failed to generate public key", w).
Proof.
  intros Hval Hrange.
  destruct (validateInputs_None _ _ _ _ Hval) as (Hkey & _ & _).
  destruct (registration_key_bytes _ Hkey) as [Hbytes Hlen].
  assert (Hpk : getPublicKey privateKey = None).
  { unfold getPublicKey, Noble.getPublicKey, Noble.toPriv.
    rewrite Hbytes, Hlen. cbn [Nat.eqb].
    replace (Noble.ge (Noble.b2n (Buffer_from_hex privateKey))) with false;
      [reflexivity|].
    symmetry. unfold Noble.ge. apply andb_false_iff.
    destruct (0 <? Noble.b2n (Buffer_from_hex privateKey)) eqn:E0; [|now left].
    right. apply Z.ltb_ge. apply Z.ltb_lt in E0.
    clear - Hrange E0. lia. }
  unfold saveDevice. rewrite Hval, Hpk. reflexivity.
Qed.

(** X4. A private key of 64 hexadecimal digits whose number is in the range
    of the curve always gives a public key, and every public key the
    registration path gives is 130 hexadecimal digits that start with 04. *)
Theorem getPublicKey_gives_130_hex_digits (privateKey : string) :
  isHex64 privateKey = true ->
  (0 < Noble.b2n (Buffer_from_hex privateKey) < Noble.N ->
   exists pk, getPublicKey privateKey = Some pk)
  /\ (forall pk,
        getPublicKey privateKey = Some pk ->
        String.length pk = 130%nat
        /\ forallb JS.isHexDigit (list_ascii_of_string pk) = true
        /\ JS.slice pk 0 (Some 2) = "04").
Proof.
  intros Hkey. destruct (registration_key_bytes _ Hkey) as [Hbytes Hlen].
  unfold getPublicKey, Noble.getPublicKey, Noble.toPriv.
  rewrite Hbytes, Hlen. cbn [Nat.eqb]. split.
  - intros [H0 HN].
    replace (Noble.ge (Noble.b2n (Buffer_from_hex privateKey))) with true;
      [eexists; reflexivity|].
    symmetry. unfold Noble.ge. apply andb_true_iff.
    split; apply Z.ltb_lt; assumption.
  - intros pk. destruct (Noble.ge _); [|discriminate].
    intros H. injection H as <-.
    fold (bytesToHex (Noble.toRawBytes
                        (Noble.mul (Noble.b2n (Buffer_from_hex privateKey)) Noble.G)
                        false)).
    rewrite bytesToHex_hexOfBytes.
    split; [now rewrite hexOfBytes_length, toRawBytes_length|].
    split; [apply hexOfBytes_isHex|].
    unfold Noble.toRawBytes. destruct (Noble.aff _) as [x y].
    rewrite hexOfBytes_cons.
    change (String (JS.digitChar (byteVal x04 / 16))
              (String (JS.digitChar (byteVal x04 mod 16))
                 (hexOfBytes (Noble.n2b x ++ Noble.n2b y))))
      with ("04" +++ hexOfBytes (Noble.n2b x ++ Noble.n2b y)).
    apply (slice_first "04").
Qed.

(** *** Looking a device up *)

Lemma loadDevice_stored (pk : string) (w : World) (devices : list Device) :
  file w = Stored devices ->
  loadDevice pk w
  = (match findDevice pk devices with
     | Some d => Found d
     | None => NotLoaded (mkAlert "Error" "Device not found.")
     end, w).
Proof.
  intros Hfile. unfold loadDevice, bind, ret, fileExists, readDevices.
  rewrite Hfile. cbn [negb]. rewrite Hfile.
  now destruct (findDevice pk devices).
Qed.

Lemma loadEditForm_stored (pk : string) (w : World) (devices : list Device) :
  file w = Stored devices ->
  loadEditForm pk w
  = (None,
     match findDevice pk devices with
     | Some d => (deviceName d, relayUrl d)
     | None => ("", "")
     end, w).
Proof.
  intros Hfile. unfold loadEditForm, bind, ret, readDevices.
  rewrite Hfile. now destruct (findDevice pk devices).
Qed.

Lemma findDevice_none (pk : string) (ds : list Device) :
  ~ In pk (map pubkey ds) -> findDevice pk ds = None.
Proof.
  intros Hnot. unfold findDevice.
  destruct (find _ ds) as [d|] eqn:E; [|reflexivity].
  apply find_some in E as [Hin Heq]. apply String.eqb_eq in Heq.
  exfalso. apply Hnot. rewrite <- Heq. now apply in_map.
Qed.

Lemma findDevice_app (pk : string) (ds more : list Device) :
  findDevice pk (ds ++ more)
  = match findDevice pk ds with
    | Some d => Some d
    | None => findDevice pk more
    end.
Proof.
  unfold findDevice. induction ds as [|d ds IH]; [reflexivity|].
  cbn [app find]. now destruct (pubkey d =? pk)%string.
Qed.

Lemma findDevice_filter (pk pk' : string) (ds : list Device) :
  findDevice pk' (filter (fun d => negb (pubkey d =? pk)%string) ds)
  = if (pk' =? pk)%string then None else findDevice pk' ds.
Proof.
  unfold findDevice. induction ds as [|d ds IH].
  - now destruct (pk' =? pk)%string.
  - cbn [filter find].
    destruct (String.eqb_spec (pubkey d) pk) as [E | E]; cbn [negb].
    + rewrite IH. destruct (String.eqb_spec pk' pk) as [E' | E']; [reflexivity|].
      destruct (String.eqb_spec (pubkey d) pk') as [E2 | E2]; [congruence | reflexivity].
    + cbn [find]. destruct (String.eqb_spec (pubkey d) pk') as [E2 | E2]; [|exact IH].
      destruct (String.eqb_spec pk' pk) as [E' | E']; [congruence | reflexivity].
Qed.

Lemma findDevice_map (pk pk' name url : string) (ds : list Device) :
  findDevice pk'
    (map (fun d => if (pubkey d =? pk)%string
                   then mkDevice (pubkey d) name url (encryptedPrivKey d)
                   else d) ds)
  = option_map (fun d => if (pubkey d =? pk)%string
                         then mkDevice (pubkey d) name url (encryptedPrivKey d)
                         else d) (findDevice pk' ds).
Proof.
  unfold findDevice. induction ds as [|d ds IH]; [reflexivity|].
  cbn [map find].
  replace (pubkey (if (pubkey d =? pk)%string
                   then mkDevice (pubkey d) name url (encryptedPrivKey d) else d))
    with (pubkey d) by (now destruct (pubkey d =? pk)%string).
  destruct (pubkey d =? pk')%string; [reflexivity | exact IH].
Qed.

(** Among records with distinct public keys, the one found for the key of a
    record is that record. *)
Lemma findDevice_unique (d : Device) (ds : list Device) :
  NoDup (map pubkey ds) -> In d ds -> findDevice (pubkey d) ds = Some d.
Proof.
  unfold findDevice. induction ds as [|e ds IH]; [intros _ []|].
  cbn [map find]. intros Hnd [-> | Hin].
  - now rewrite String.eqb_refl.
  - inversion Hnd as [|k ks Hk Hks]; subst.
    destruct (String.eqb_spec (pubkey e) (pubkey d)) as [E | E].
    + exfalso. apply Hk. rewrite E. now apply in_map.
    + now apply IH.
Qed.

Lemma loadDevice_found (pk : string) (w : World) (d : Device) :
  fst (loadDevice pk w) = Found d -> findDevice pk (registry w) = Some d.
Proof.
  unfold registry. destruct (file w) as [| |devices] eqn:Hfile.
  - unfold loadDevice, bind, ret, fileExists. rewrite Hfile. discriminate.
  - unfold loadDevice, bind, ret, fileExists, readDevices. rewrite Hfile.
    cbn [negb]. rewrite Hfile. discriminate.
  - rewrite (loadDevice_stored _ _ _ Hfile). cbn [fst].
    destruct (findDevice pk devices); [|discriminate].
    intros H. now injection H as ->.
Qed.

(** X5. Once a device is registered, the signing screen and the management
    screen load it by its public key: [loadDevice] finds the record just
    written, and every record it found before under another key it still
    finds. *)
Theorem loadDevice_finds_the_added_device
  (privateKey name url pin pk : string) (w : World) :
  validateInputs privateKey name url pin = None ->
  getPublicKey privateKey = Some pk ->
  ~ In name (map deviceName (registry w)) ->
  ~ In pk (map pubkey (registry w)) ->
  let w' := snd (saveDevice privateKey name url pin w) in
  (exists blob,
     fst (loadDevice pk w') = Found (mkDevice pk name url blob)
     /\ file w' = Stored (registry w ++ [mkDevice pk name url blob]))
  /\ (forall pk' d,
        fst (loadDevice pk' w) = Found d -> fst (loadDevice pk' w') = Found d).
Proof.
  intros Hval Hpk Hn Hp w'. subst w'.
  rewrite (saveDevice_success _ _ _ _ _ w Hval Hpk Hn Hp). cbn [snd].
  split.
  - eexists. split; [|reflexivity].
    erewrite loadDevice_stored by reflexivity. cbn [fst].
    rewrite findDevice_app, (findDevice_none _ _ Hp).
    unfold findDevice. cbn [find pubkey]. now rewrite String.eqb_refl.
  - intros pk' d H. apply loadDevice_found in H.
    erewrite loadDevice_stored by reflexivity. cbn [fst].
    now rewrite findDevice_app, H.
Qed.

(** X6. After [deleteDevice] no record with that public key is left,
    however many there were: looking the key up gives "Device not found.";
    every other key is looked up with the same result as before; deleting
    a key that is not registered rewrites the file with the same records;
    and deleting the same key again changes nothing more. *)
Theorem deleteDevice_removes_the_device
  (pk : string) (w : World) (devices : list Device) :
  file w = Stored devices ->
  fst (deleteDevice pk w) = mkAlert "Success" "Device deleted successfully"
  /\ fst (loadDevice pk (snd (deleteDevice pk w)))
     = NotLoaded (mkAlert "Error" "Device not found.")
  /\ (forall pk', pk' <> pk ->
        fst (loadDevice pk' (snd (deleteDevice pk w))) = fst (loadDevice pk' w))
  /\ (~ In pk (map pubkey devices) -> file (snd (deleteDevice pk w)) = file w)
  /\ snd (deleteDevice pk (snd (deleteDevice pk w))) = snd (deleteDevice pk w).
Proof.
  intros Hfile.
  assert (E : deleteDevice pk w
              = (mkAlert "Success" "Device deleted successfully",
                 mkWorld (tape w) (pos w) (clock w)
                   (Stored (filter (fun d => negb (pubkey d =? pk)%string) devices))
                   (relay w) (sent w))).
  { unfold deleteDevice, bind, ret, readDevices, writeDevices. now rewrite Hfile. }
  rewrite E. cbn [fst snd]. split; [reflexivity|]. split; [|split; [|split]].
  - erewrite loadDevice_stored by reflexivity. cbn [fst].
    now rewrite findDevice_filter, String.eqb_refl.
  - intros pk' Hne.
    erewrite loadDevice_stored by reflexivity.
    rewrite (loadDevice_stored _ _ _ Hfile).
    cbn [fst]. rewrite findDevice_filter.
    destruct (String.eqb_spec pk' pk) as [E' | E']; [contradiction | reflexivity].
  - intros Hnot. cbn [file]. rewrite Hfile. f_equal.
    clear - Hnot. induction devices as [|d ds IH]; [reflexivity|].
    cbn [filter]. destruct (String.eqb_spec (pubkey d) pk) as [E | E]; cbn [negb].
    + exfalso. apply Hnot. left. exact E.
    + f_equal. apply IH. intros Hin. apply Hnot. now right.
  - unfold deleteDevice, bind, ret, readDevices, writeDevices.
    cbn [file snd tape pos clock relay sent]. f_equal. f_equal.
    clear. induction devices as [|d ds IH]; [reflexivity|].
    cbn [filter]. destruct (negb (pubkey d =? pk)%string) eqn:E; [|exact IH].
    cbn [filter]. rewrite E. now f_equal.
Qed.

(** X7. An edit keeps the key material of the device: after [saveChanges]
    for a public key that is registered, loading that key gives the same
    public key and the same encrypted private key with the new name and
    relay URL; the edit form, opened again, shows the name and URL just
    saved; and looking up any other key gives what it gave before. *)
Theorem saveChanges_keeps_the_encrypted_key
  (pk name url : string) (w : World) (devices : list Device) (d : Device) :
  validateEdit name url = None ->
  file w = Stored devices ->
  findDevice pk devices = Some d ->
  let w' := snd (saveChanges pk name url w) in
  fst (loadDevice pk w') = Found (mkDevice pk name url (encryptedPrivKey d))
  /\ fst (loadEditForm pk w') = (None, (name, url))
  /\ (forall pk', pk' <> pk -> fst (loadDevice pk' w') = fst (loadDevice pk' w)).
Proof.
  intros Hval Hfile Hfind w'. subst w'.
  rewrite (saveChanges_valid _ _ _ _ _ Hval Hfile). cbn [snd].
  assert (Hpk : pubkey d = pk).
  { unfold findDevice in Hfind. apply find_some in Hfind as [_ H].
    now apply String.eqb_eq in H. }
  split; [|split].
  - erewrite loadDevice_stored by reflexivity. cbn [fst].
    rewrite findDevice_map, Hfind. cbn [option_map].
    now rewrite Hpk, String.eqb_refl.
  - erewrite loadEditForm_stored by reflexivity. cbn [fst].
    rewrite findDevice_map, Hfind. cbn [option_map].
    now rewrite Hpk, String.eqb_refl.
  - intros pk' Hne.
    erewrite loadDevice_stored by reflexivity.
    rewrite (loadDevice_stored _ _ _ Hfile).
    cbn [fst]. rewrite findDevice_map.
    destruct (findDevice pk' devices) as [e|] eqn:E; [|reflexivity].
    cbn [option_map].
    assert (He : pubkey e = pk').
    { unfold findDevice in E. apply find_some in E as [_ H].
      now apply String.eqb_eq in H. }
    destruct (String.eqb_spec (pubkey e) pk) as [E' | E']; [congruence | reflexivity].
Qed.

(** *** What holds in every reachable registry *)

(** X8. Starting from an empty registry, whatever sequence of
    registrations, edits and deletions is run (successful or not), no two
    records of the devices file have the same public key. *)
Theorem registry_public_keys_stay_unique (w : World) :
  Reachable w -> NoDup (map pubkey (registry w)).
Proof.
  intros Hw. exact (reachable_uniquePubkeys w Hw).
Qed.

(** X9. In every reachable registry a record is found by its own public
    key: the signing and management screens load exactly that record, and
    the edit form opens with its name and relay URL. *)
Theorem reachable_device_is_loaded_by_its_key (w : World) (d : Device) :
  Reachable w ->
  In d (registry w) ->
  loadDevice (pubkey d) w = (Found d, w)
  /\ loadEditForm (pubkey d) w = (None, (deviceName d, relayUrl d), w).
Proof.
  intros Hw Hin. pose proof (reachable_uniquePubkeys w Hw) as Hnd.
  unfold uniquePubkeys, registry in *.
  destruct (file w) as [| |devices] eqn:Hfile; try contradiction.
  rewrite (loadDevice_stored _ _ _ Hfile), (loadEditForm_stored _ _ _ Hfile).
  rewrite (findDevice_unique d devices Hnd Hin). split; reflexivity.
Qed.

(** X10. An operation on the registry that does not report success leaves
    the devices file exactly as it was: a rejected registration, edit or
    deletion writes nothing. *)
Theorem failed_operation_leaves_the_file (op : Op) (w : World) :
  title (fst (run op w)) <> "Success" ->
  file (snd (run op w)) = file w.
Proof.
  destruct op as [privateKey name url pin | pk name url | pk]; cbn [run].
  - destruct (validateInputs privateKey name url pin) eqn:Hval.
    { intros _. unfold saveDevice. now rewrite Hval. }
    destruct (getPublicKey privateKey) as [pk|] eqn:Hpk.
    2:{ intros _. unfold saveDevice. now rewrite Hval, Hpk. }
    destruct (saveDevice_valid _ _ _ _ _ w Hval Hpk) as (blob & w1 & -> & ->).
    destruct (existsb _ _); [reflexivity|].
    destruct (existsb _ _); [reflexivity|].
    cbn [fst title]. intros H. exfalso. apply H. reflexivity.
  - destruct (validateEdit name url) eqn:Hval.
    { intros _. unfold saveChanges. now rewrite Hval. }
    destruct (file w) as [| |devices] eqn:Hfile.
    + intros _. unfold saveChanges, bind, readDevices. now rewrite Hval, Hfile.
    + intros _. unfold saveChanges, bind, readDevices. now rewrite Hval, Hfile.
    + rewrite (saveChanges_valid _ _ _ _ _ Hval Hfile). cbn [fst title].
      intros H. exfalso. apply H. reflexivity.
  - destruct (file w) as [| |devices] eqn:Hfile.
    + intros _. unfold deleteDevice, bind, readDevices. now rewrite Hfile.
    + intros _. unfold deleteDevice, bind, readDevices. now rewrite Hfile.
    + unfold deleteDevice, bind, ret, readDevices, writeDevices. rewrite Hfile.
      cbn [fst title]. intros H. exfalso. apply H. reflexivity.
Qed.

(** *** Signing and sending *)

(** Whatever the nonce, a signature [k2sig] accepts has [r] and [s] in the
    range of the group and [s] in its lower half. *)
Lemma k2sig_range (m d : Z) (kBytes : list byte) (sig : Noble.Signature) :
  Noble.k2sig true m d kBytes = Some sig ->
  0 < Noble.r sig < Noble.N /\ 0 < Noble.s sig <= Noble.N / 2.
Proof.
  drop_libs. unfold Noble.k2sig.
  destruct (Noble.ge (Noble.bits2int kBytes)); cbn [negb]; [|discriminate].
  destruct (Noble.mul (Noble.bits2int kBytes) Noble.G) as [|qx qy]; [discriminate|].
  destruct (qx mod Noble.N =? 0) eqn:Er; [discriminate|].
  remember ((Noble.inv (Noble.bits2int kBytes) Noble.N
             * ((m + (d * (qx mod Noble.N)) mod Noble.N) mod Noble.N))
            mod Noble.N) as s0 eqn:Hs0.
  destruct (s0 =? 0) eqn:Es; [discriminate|].
  apply Z.eqb_neq in Er, Es.
  assert (HN : 0 < Noble.N) by reflexivity.
  pose proof (Z.mod_pos_bound qx Noble.N HN) as Hr.
  assert (Hs : 0 <= s0 < Noble.N) by (subst s0; now apply Z.mod_pos_bound).
  assert (Hhalf : Noble.N = 2 * (Noble.N / 2) + 1) by reflexivity.
  change (Z.shiftr Noble.N 1) with (Noble.N / 2).
  cbn [andb]. clear Hs0.
  destruct (Noble.N / 2 <? s0) eqn:Eh; intros H; injection H as <-;
    cbn [Noble.r Noble.s].
  - apply Z.ltb_lt in Eh.
    assert (E : (- s0) mod Noble.N = Noble.N - s0).
    { symmetry. apply Z.mod_unique with (q := -1); lia. }
    rewrite E. lia.
  - apply Z.ltb_ge in Eh. lia.
Qed.

(** What the loop of the generator returns was accepted by the predicate. *)
Lemma drbgLoop_accepted {A : Type} (fuel : nat) (pred : list byte -> option A)
  (kv : list byte * list byte) (res : A) :
  Noble.drbgLoop hmacSha256Sync fuel pred kv = Some res ->
  exists v, pred v = Some res.
Proof.
  revert kv. induction fuel as [|fuel IH]; intros [k v]; cbn [Noble.drbgLoop];
    [discriminate|].
  destruct (pred (hmacSha256Sync k [v])) as [a|] eqn:E.
  - intros H. injection H as <-. eexists. exact E.
  - apply IH.
Qed.

(** X11. Every signature [signCommand] returns is the compact form of a
    pair (r, s) with r and s in the range of the group and s in its lower
    half (low-S): 128 hexadecimal digits that [Buffer.from(_, "hex")] reads
    back as the 64 bytes of r and s; and a result is returned only for a
    private key of 32 bytes whose number is in the range of the curve. *)
Theorem signCommand_signature_is_compact_and_low_s
  (command_ privateKeyHex : string) (w : World) (res : Signed) :
  fst (signCommand command_ privateKeyHex w) = Some res ->
  (exists r s,
     signatureHex res = hexOfBytes (Noble.n2b r ++ Noble.n2b s)
     /\ 0 < r < Noble.N /\ 0 < s <= Noble.N / 2)
  /\ String.length (signatureHex res) = 128%nat
  /\ forallb JS.isHexDigit (list_ascii_of_string (signatureHex res)) = true
  /\ List.length (Buffer_from_hex (signatureHex res)) = 64%nat
  /\ List.length (Buffer_from_hex privateKeyHex) = 32%nat
  /\ 0 < Noble.b2n (Buffer_from_hex privateKeyHex) < Noble.N.
Proof.
  unfold signCommand, bind. rewrite sign_optS.
  destruct (Noble.toPriv (Buffer_from_hex privateKeyHex)) as [d|] eqn:Hd;
    [|discriminate].
  destruct (Noble.hmacDrbg _ _ _) as [sig|] eqn:Hsig; [|discriminate].
  destruct (Noble.getPublicKey _ _); [|discriminate].
  cbn [fst ret]. intros H. injection H as <-. cbn [signatureHex].
  unfold Noble.hmacDrbg in Hsig. apply drbgLoop_accepted in Hsig as [v Hv].
  apply k2sig_range in Hv. unfold Noble.toCompactRawBytes.
  split; [exists (Noble.r sig), (Noble.s sig); split; [reflexivity | exact Hv]|].
  split; [now rewrite hexOfBytes_length, length_app, !n2b_length|].
  split; [apply hexOfBytes_isHex|].
  split; [now rewrite Buffer_from_hex_hexOfBytes, length_app, !n2b_length|].
  unfold Noble.toPriv in Hd.
  destruct (List.length (Buffer_from_hex privateKeyHex) =? 32)%nat eqn:El;
    [|discriminate].
  apply Nat.eqb_eq in El. split; [exact El|].
  destruct (Noble.ge _) eqn:Eg; [|discriminate].
  unfold Noble.ge in Eg. apply andb_true_iff in Eg as [E0 EN].
  apply Z.ltb_lt in E0, EN. split; assumption.
Qed.

Lemma append_assoc_str (a b c : string) : (a +++ b) +++ c = a +++ (b +++ c).
Proof. induction a as [|x a IH]; cbn; [reflexivity | now rewrite IH]. Qed.

(** The base the signing screen gives a relay URL ([endsWith("/")]) is the
    one the home screen gives it ([replace(/\/$/, "")]). *)
Lemma relay_base (u : string) :
  (if JS.endsWithChar u "/" then u else u +++ "/") = dropFinalSlash u +++ "/".
Proof.
  induction u as [|a rest IH]; [reflexivity|].
  destruct rest as [|b rest'].
  - cbn [JS.endsWithChar dropFinalSlash].
    destruct (Ascii.eqb_spec a "/") as [-> | _]; reflexivity.
  - change (JS.endsWithChar (String a (String b rest')) "/")
      with (JS.endsWithChar (String b rest') "/").
    change (dropFinalSlash (String a (String b rest')))
      with (String a (dropFinalSlash (String b rest'))).
    change (String a (dropFinalSlash (String b rest')) +++ "/")
      with (String a (dropFinalSlash (String b rest') +++ "/")).
    rewrite <- IH. now destruct (JS.endsWithChar (String b rest') "/").
Qed.

(** X12. With a device loaded, [handleSign] never touches the devices
    file or the random source, and it sends at most one request.  A request is sent only when the PIN
    is six digits, the blob of the device decrypts under it to a non-empty
    key and [signCommand] signs the command with that key; the request then
    goes to the relay URL without a final slash followed by
    [/api/request/send-command] (the same base the status check uses), with
    the public key of the record, the signature and the command
    [action+timestamp]; and what the user is told follows the answer of the
    relay. *)
Theorem handleSign_posts_only_what_the_decrypted_key_signed
  (dev : Device) (action pin : string) (w : World) :
  let w' := snd (handleSign (Some dev) action pin w) in
  let command_ := action +++ "+" +++ formatTime (Date.toISOString (clock w)) in
  file w' = file w
  /\ pos w' = pos w
  /\ (sent w' = sent w
      \/ exists privKey res,
           isSixDigits pin = true
           /\ decryptPrivateKey (encryptedPrivKey dev) pin = Some privKey
           /\ privKey <> ""
           /\ fst (signCommand command_ privKey w) = Some res
           /\ let request :=
                SendCommand
                  (dropFinalSlash (relayUrl dev) +++ "/api/request/send-command")
                  (pubkey dev) (signatureHex res) command_ in
              sent w' = request :: sent w
              /\ fst (handleSign (Some dev) action pin w)
                 = match relay w request with
                   | Ok _ => Succeeded
                   | NotOk =>
                       Alerted (mkAlert "Error" "Failed to sign and send command.")
                   | NetworkError => Logged
                   end).
Proof.
  intros w' command_. subst w'. unfold handleSign.
  destruct (isEmpty action); [now repeat split; left|].
  destruct (JS.len pin =? 6); cbn [negb orb]; [|now repeat split; left].
  destruct (isSixDigits pin) eqn:Epin; cbn [negb]; [|now repeat split; left].
  unfold bind, currentTime. unfold signAndSend, fullCommandOf.
  fold command_.
  destruct (negb (JS.len (formatTime (Date.toISOString (clock w))) =? 14));
    [now repeat split; left|].
  destruct (decryptPrivateKey (encryptedPrivKey dev) pin) as [[|c privKey]|] eqn:Ed;
    try (now repeat split; left).
  unfold bind.
  destruct (signCommand command_ (String c privKey) w) as [[res|] w1] eqn:Es.
  2:{ pose proof (signCommand_pure command_ (String c privKey) w w) as [_ Hw].
      rewrite Es in Hw. cbn [snd] in Hw. subst w1. now repeat split; left. }
  pose proof (signCommand_result command_ (String c privKey) w res) as Hres.
  rewrite Es in Hres. destruct (Hres eq_refl) as [Hc Hw]. cbn [snd] in Hw. subst w1.
  rewrite Hc.
  replace ((if JS.endsWithChar (relayUrl dev) "/"
            then relayUrl dev else relayUrl dev +++ "/")
           +++ "api/request/send-command")
    with (dropFinalSlash (relayUrl dev) +++ "/api/request/send-command")
    by (rewrite relay_base; symmetry; apply append_assoc_str).
  unfold fetch. cbn [relay sent].
  split; [now destruct (relay w _)|]. split; [now destruct (relay w _)|].
  right. exists (String c privKey), res.
  split; [reflexivity|]. split; [reflexivity|]. split; [discriminate|].
  split; [now rewrite Es|].
  cbv zeta. split; now destruct (relay w _).
Qed.

(** X13. From registration to signing: after a successful [saveDevice], the
    signing screen loads the record by its public key, and [handleSign]
    with the PIN of the registration and an action, at an instant whose UTC
    year is 0000 to 9999, decrypts the very private key that was typed and
    signs [action+YYYYMMDDHHMMSS] with it: when [signCommand] gives a
    signature for that key the request posted carries the registered public
    key, that signature and that command, and otherwise the user is told
    "Failed to sign command." and nothing is sent. *)
Theorem registered_device_signs_with_the_key_typed
  (privateKey name url pin pk action : string) (w : World) :
  validateInputs privateKey name url pin = None ->
  getPublicKey privateKey = Some pk ->
  ~ In name (map deviceName (registry w)) ->
  ~ In pk (map pubkey (registry w)) ->
  isEmpty action = false ->
  0 <= Date.YearFromTime (clock w) <= 9999 ->
  let w1 := snd (saveDevice privateKey name url pin w) in
  let command_ := action +++ "+" +++ timestampOf (clock w) in
  exists dev,
    loadDevice pk w1 = (Found dev, w1)
    /\ pubkey dev = pk
    /\ match fst (signCommand command_ privateKey w1) with
       | Some res =>
           sent (snd (handleSign (Some dev) action pin w1))
           = SendCommand (dropFinalSlash url +++ "/api/request/send-command")
               pk (signatureHex res) command_ :: sent w
       | None =>
           handleSign (Some dev) action pin w1
           = (Alerted (mkAlert "Error" "Failed to sign command."), w1)
       end.
Proof using PBKDF2_length AES_inverse Base64_inverse Utf8_inverse.
  intros Hval Hpk Hn Hp Hact Hyear w1 command_.
  destruct (validateInputs_None _ _ _ _ Hval) as (Hkey & Hpin & _).
  assert (Hlen : (JS.len pin =? 6) = true).
  { unfold isSixDigits in Hpin. apply andb_true_iff in Hpin as [Hl _].
    apply Nat.eqb_eq in Hl. unfold JS.len. now rewrite Hl. }
  subst w1. rewrite (saveDevice_success _ _ _ _ _ w Hval Hpk Hn Hp). cbn [snd].
  set (blob := encryptWith _ _ privateKey pin).
  set (w1 := mkWorld _ _ _ _ _ _).
  exists (mkDevice pk name url blob).
  split.
  { erewrite loadDevice_stored by reflexivity.
    rewrite findDevice_app, (findDevice_none _ _ Hp).
    unfold findDevice. cbn [find pubkey]. now rewrite String.eqb_refl. }
  split; [reflexivity|].
  assert (Hdec : decryptPrivateKey blob pin = Some privateKey).
  { apply decryptPrivateKey_encryptWith; try apply getRandomBytes_length.
    exact Hkey. }
  assert (Hne : exists c rest, privateKey = String c rest).
  { destruct privateKey as [|c rest]; [discriminate Hkey | now exists c, rest]. }
  destruct Hne as (c & rest & Hcr).
  assert (Hcmd : fullCommandOf action (Date.toISOString (clock w1)) = Some command_).
  { unfold fullCommandOf. change (clock w1) with (clock w).
    now rewrite formatTime_toISOString by exact Hyear. }
  assert (Hrun : handleSign (Some (mkDevice pk name url blob)) action pin w1
                 = signAndSend (Date.toISOString (clock w1))
                     (mkDevice pk name url blob) action pin w1).
  { unfold handleSign. rewrite Hact, Hlen, Hpin. reflexivity. }
  rewrite Hrun. unfold signAndSend. rewrite Hcmd. cbn [encryptedPrivKey].
  rewrite Hdec, Hcr. rewrite <- Hcr. unfold bind.
  destruct (signCommand command_ privateKey w1) as [[res|] w2] eqn:Es; cbn [fst].
  - pose proof (signCommand_result command_ privateKey w1 res) as Hres.
    rewrite Es in Hres. destruct (Hres eq_refl) as [Hc Hw]. cbn [snd] in Hw.
    subst w2. rewrite Hc. cbn [relayUrl pubkey].
    replace ((if JS.endsWithChar url "/" then url else url +++ "/")
             +++ "api/request/send-command")
      with (dropFinalSlash url +++ "/api/request/send-command")
      by (rewrite relay_base; symmetry; apply append_assoc_str).
    unfold fetch. now destruct (relay w1 _).
  - pose proof (signCommand_pure command_ privateKey w1 w1) as [_ Hw].
    rewrite Es in Hw. cbn [snd] in Hw. now subst w2.
Qed.

(** *** The home screen *)

Lemma setStatus_device (pk : string) (online : bool) (prev : list HomeDevice) :
  map device (setStatus pk online prev) = map device prev.
Proof.
  unfold setStatus. rewrite map_map. apply map_ext. intros d.
  now destruct (pubkey (device d) =? pk)%string.
Qed.

Lemma setStatus_nth (pk : string) (online : bool) (prev : list HomeDevice)
  (i : nat) (d1 : HomeDevice) :
  nth_error (setStatus pk online prev) i = Some d1 ->
  exists d,
    nth_error prev i = Some d
    /\ d1 = (if (pubkey (device d) =? pk)%string
             then mkHomeDevice (device d) online false else d).
Proof.
  unfold setStatus. rewrite nth_error_map.
  destruct (nth_error prev i) as [d|]; [|discriminate].
  cbn [option_map]. intros H. injection H as <-. now exists d.
Qed.

(** Every branch of [checkDeviceStatus] sends one request and sets the
    status of the device; the status is that of the answer. *)
Lemma checkDeviceStatus_run (dev : Device) (prev : list HomeDevice) (w : World) :
  let request :=
    LastActive (dropFinalSlash (relayUrl dev) +++ "/api/request/last-active")
      (pubkey dev) in
  checkDeviceStatus dev prev w
  = (setStatus (pubkey dev)
       (match relay w request with
        | Ok (Some lastFetched) => onlineAt (clock w) lastFetched
        | _ => false
        end) prev,
     mkWorld (tape w) (pos w) (clock w) (file w) (relay w) (request :: sent w)).
Proof.
  intros request. unfold checkDeviceStatus, bind, fetch, currentTime, ret.
  cbn [relay clock]. fold request.
  destruct (relay w request) as [| |[lastFetched|]]; reflexivity.
Qed.

(** X14. One status check changes nothing but the status of the device
    checked: the list keeps its records in their places, an entry with
    another public key is left as it is, every entry with the public key of
    the device stops loading, and it is shown online only when the relay
    answered with a last-active time that parses and is at most 60 whole
    seconds old; a network error, an answer that is not ok, or a body
    without that time all show it offline.  The devices file is not
    touched. *)
Theorem checkDeviceStatus_updates_only_the_device_checked
  (dev : Device) (prev : list HomeDevice) (w : World) :
  let updated := fst (checkDeviceStatus dev prev w) in
  let request :=
    LastActive (dropFinalSlash (relayUrl dev) +++ "/api/request/last-active")
      (pubkey dev) in
  map device updated = map device prev
  /\ (forall i d,
        nth_error prev i = Some d -> pubkey (device d) <> pubkey dev ->
        nth_error updated i = Some d)
  /\ (forall d,
        In d updated -> pubkey (device d) = pubkey dev ->
        isLoading d = false
        /\ (isOnline d = true ->
            exists lastFetched last,
              relay w request = Ok (Some lastFetched)
              /\ Date_parse (lastFetchedIso lastFetched) = Some last
              /\ (clock w - last) / 1000 <= 60))
  /\ file (snd (checkDeviceStatus dev prev w)) = file w
  /\ sent (snd (checkDeviceStatus dev prev w)) = request :: sent w.
Proof.
  intros updated request. subst updated.
  pose proof (checkDeviceStatus_run dev prev w) as E. cbv zeta in E.
  fold request in E. rewrite E. cbn [fst snd file sent].
  split; [apply setStatus_device|]. split; [|split; [|split; reflexivity]].
  - intros i d Hd Hne. unfold setStatus. rewrite nth_error_map, Hd.
    cbn [option_map].
    destruct (String.eqb_spec (pubkey (device d)) (pubkey dev)) as [E' | _];
      [contradiction | reflexivity].
  - intros d Hin Hpk. apply In_nth_error in Hin as [i Hi].
    apply setStatus_nth in Hi as (d0 & _ & ->).
    destruct (String.eqb_spec (pubkey (device d0)) (pubkey dev)) as [_ | Hne].
    2:{ contradiction. }
    cbn [isLoading isOnline]. split; [reflexivity|].
    destruct (relay w request) as [| |[lastFetched|]]; try discriminate.
    unfold onlineAt, diffInSeconds.
    destruct (Date_parse (lastFetchedIso lastFetched)) as [last|] eqn:Ep;
      [|discriminate].
    intros H. apply Z.leb_le in H. now exists lastFetched, last.
Qed.

(** A round of checks, entry by entry. *)
Lemma checkAllDevices_entries (cur st : list HomeDevice) (w : World) :
  map device (fst (checkAllDevices cur st w)) = map device st
  /\ forall i d',
       nth_error (fst (checkAllDevices cur st w)) i = Some d' ->
       exists d,
         nth_error st i = Some d
         /\ (In (pubkey (device d)) (map (fun c => pubkey (device c)) cur) ->
             isLoading d' = false)
         /\ (isLoading d = false -> isLoading d' = false)
         /\ (~ In (pubkey (device d)) (map (fun c => pubkey (device c)) cur) ->
             d' = d).
Proof.
  revert st w. induction cur as [|c rest IH]; intros st w.
  - cbn [checkAllDevices ret fst]. split; [reflexivity|].
    intros i d' Hd. exists d'. split; [exact Hd|].
    split; [intros []|]. split; [now intros H | reflexivity].
  - cbn [checkAllDevices]. unfold bind.
    pose proof (checkDeviceStatus_run (device c) st w) as E. cbv zeta in E.
    rewrite E. clear E.
    match goal with
    | |- context [checkAllDevices rest (setStatus ?pk ?o st) ?w1] =>
        destruct (IH (setStatus pk o st) w1) as [Hdev Hent];
        set (online := o) in *; set (w' := w1) in *
    end.
    split; [now rewrite Hdev, setStatus_device|].
    intros i d' Hd. destruct (Hent i d' Hd) as (d1 & Hd1 & Hin & Hload & Hout).
    apply setStatus_nth in Hd1 as (d & Hd0 & Hd1).
    exists d. split; [exact Hd0|].
    assert (Hpk : pubkey (device d1) = pubkey (device d)).
    { subst d1. now destruct (pubkey (device d) =? pubkey (device c))%string. }
    split; [|split].
    + cbn [map In]. intros [Hc | Hr].
      * apply Hload. subst d1. rewrite <- Hc, String.eqb_refl. reflexivity.
      * apply Hin. now rewrite Hpk.
    + intros Hl. apply Hload. subst d1.
      now destruct (pubkey (device d) =? pubkey (device c))%string.
    + cbn [map In]. intros Hnot.
      assert (Hc : pubkey (device c) <> pubkey (device d))
        by (intros Hc; apply Hnot; now left).
      assert (Hr : ~ In (pubkey (device d1))
                     (map (fun c0 => pubkey (device c0)) rest))
        by (rewrite Hpk; intros Hr; apply Hnot; now right).
      rewrite (Hout Hr). subst d1.
      destruct (String.eqb_spec (pubkey (device d)) (pubkey (device c))) as [E | _];
        [now contradiction Hc | reflexivity].
Qed.

Lemma checkAllDevices_world (cur st : list HomeDevice) (w : World) :
  file (snd (checkAllDevices cur st w)) = file w
  /\ List.length (sent (snd (checkAllDevices cur st w)))
     = (List.length cur + List.length (sent w))%nat.
Proof.
  revert st w. induction cur as [|c rest IH]; intros st w.
  - split; reflexivity.
  - cbn [checkAllDevices]. unfold bind.
    pose proof (checkDeviceStatus_run (device c) st w) as E. cbv zeta in E.
    rewrite E. clear E.
    match goal with
    | |- context [checkAllDevices rest ?st1 ?w1] =>
        destruct (IH st1 w1) as [Hfile Hsent]
    end.
    rewrite Hfile, Hsent. cbn [file sent List.length]. split; [reflexivity | lia].
Qed.

(** X15. A round of [checkAllDevices] over the devices the poller holds,
    on whatever list the screen shows by then: one request is sent per
    device polled and the devices file is not touched; the list keeps its
    records in their places; every entry whose public key was polled is no
    longer loading, and every other entry is left exactly as it was. *)
Theorem checkAllDevices_settles_the_devices_polled
  (currentDevices shown : list HomeDevice) (w : World) :
  let polled := fst (checkAllDevices currentDevices shown w) in
  let polledKeys := map (fun c => pubkey (device c)) currentDevices in
  map device polled = map device shown
  /\ (forall i d',
        nth_error polled i = Some d' ->
        exists d,
          nth_error shown i = Some d
          /\ (In (pubkey (device d)) polledKeys -> isLoading d' = false)
          /\ (~ In (pubkey (device d)) polledKeys -> d' = d))
  /\ List.length (sent (snd (checkAllDevices currentDevices shown w)))
     = (List.length currentDevices + List.length (sent w))%nat
  /\ file (snd (checkAllDevices currentDevices shown w)) = file w.
Proof.
  intros polled polledKeys. subst polled polledKeys.
  destruct (checkAllDevices_entries currentDevices shown w) as [Hdev Hent].
  destruct (checkAllDevices_world currentDevices shown w) as [Hfile Hsent].
  split; [exact Hdev|]. split; [|split; assumption].
  intros i d' Hd. destruct (Hent i d' Hd) as (d & Hd0 & Hin & _ & Hout).
  exists d. split; [exact Hd0|]. split; assumption.
Qed.

(** X16. Opening the home screen on a readable devices file: [loadDevices]
    lists the records of the file in their order, each offline and loading,
    whatever the list was; and after the first round of [checkAllDevices]
    the screen still lists exactly the records of the file and none of them
    is loading. *)
Theorem home_screen_lists_the_registry
  (prev : list HomeDevice) (w : World) (registered : list Device) :
  file w = Stored registered ->
  let listed := fst (loadDevices prev w) in
  let polled := fst (checkAllDevices listed listed (snd (loadDevices prev w))) in
  map device listed = registered
  /\ Forall (fun d => isOnline d = false /\ isLoading d = true) listed
  /\ snd (loadDevices prev w) = w
  /\ map device polled = registered
  /\ Forall (fun d => isLoading d = false) polled.
Proof.
  intros Hfile listed polled.
  assert (E : loadDevices prev w
              = (map (fun d => mkHomeDevice d false true) registered, w)).
  { unfold loadDevices, bind, ret, fileExists, readDevices.
    rewrite Hfile. cbn iota beta. now rewrite Hfile. }
  assert (El : map device listed = registered).
  { subst listed. rewrite E. cbn [fst]. rewrite map_map. cbn [device].
    apply map_id. }
  split; [exact El|]. split; [|split; [now rewrite E|]].
  - subst listed. rewrite E. cbn [fst]. apply Forall_forall.
    intros d Hin. apply in_map_iff in Hin as (d0 & <- & _). now split.
  - subst polled.
    destruct (checkAllDevices_entries listed listed (snd (loadDevices prev w)))
      as [Hdev Hent].
    split; [now rewrite Hdev|].
    apply Forall_forall. intros d' Hin. apply In_nth_error in Hin as [i Hi].
    destruct (Hent i d' Hi) as (d & Hd & Hload & _).
    apply Hload. apply nth_error_In in Hd.
    now apply (in_map (fun c => pubkey (device c))) in Hd.
Qed.

(** X17. When the devices file is absent or does not parse as an array,
    the screens differ: [loadDevices] shows no alert and leaves the list of
    the home screen as it was; the signing and management screens report
    "Devices file not found." for an absent file and "Failed to load
    device." for one that does not parse; and the edit form reports "Failed
    to load device details" in both cases, its fields left empty.  None of
    them changes the world. *)
Theorem unreadable_file_on_each_screen
  (prev : list HomeDevice) (pk : string) (w : World) :
  file w = Missing \/ file w = Garbled ->
  loadDevices prev w = (prev, w)
  /\ (file w = Missing ->
      loadDevice pk w = (NotLoaded (mkAlert "Error" "Devices file not found."), w))
  /\ (file w = Garbled ->
      loadDevice pk w = (NotLoaded (mkAlert "Error" "Failed to load device."), w))
  /\ loadEditForm pk w
     = (Some (mkAlert "Error" "Failed to load device details"), ("", ""), w).
Proof.
  intros [Hfile | Hfile].
  - unfold loadDevices, loadDevice, loadEditForm, bind, ret, fileExists, readDevices.
    rewrite Hfile. split; [reflexivity|]. split; [reflexivity|].
    split; [discriminate | reflexivity].
  - unfold loadDevices, loadDevice, loadEditForm, bind, ret, fileExists, readDevices.
    rewrite Hfile. cbn [negb]. rewrite Hfile. split; [reflexivity|].
    split; [discriminate|]. split; reflexivity.
Qed.

(** *** The HMAC installed for the signature library *)

(** X18. The function installed as [etc.hmacSha256Sync] returns the
    HMAC-SHA256, under the key, of the key followed by the messages in
    their order: the key bytes are the first part of the message that is
    authenticated. *)
Theorem hmacSha256Sync_authenticates_key_then_messages
  (key : list byte) (messages : list (list byte)) :
  hmacSha256Sync key messages = HmacSHA256 (key ++ List.concat messages) key.
Proof.
  unfold hmacSha256Sync. rewrite Buffer_from_hex_hexOfBytes. f_equal.
  generalize key. induction messages as [|m ms IH]; intros acc.
  - cbn [fold_left List.concat]. now rewrite app_nil_r.
  - cbn [fold_left List.concat]. now rewrite IH, app_assoc.
Qed.

(** *** The timestamp of a command and the date of the status check *)

(** X19. The two time formats of the application agree: from the fourteen
    digits that [handleSign] makes of an instant whose UTC year is 0000 to
    9999, [checkDeviceStatus] rebuilds the ISO string of that instant cut
    after the seconds and closed by [Z], so that a timestamp is read back
    as the same date and time to the second. *)
Theorem timestamp_is_read_back_to_the_second (t : Z) :
  0 <= Date.YearFromTime t <= 9999 ->
  lastFetchedIso (formatTime (Date.toISOString t))
  = JS.slice (Date.toISOString t) 0 (Some 19) +++ "Z".
Proof.
  intros Hy. rewrite (formatTime_toISOString t Hy).
  rewrite (toISOString_digits t Hy).
  rewrite pad3_digits by (unfold Date.msFromTime; div_lia).
  unfold timestampOf, fourDigits, twoDigits.
  repeat match goal with
  | |- context [digitAt ?n ?k] =>
      let c := fresh "c" in generalize (digitAt n k); intros c
  end.
  reflexivity.
Qed.

(** *** What the registration form accepts *)

Lemma hexDigit_not_whiteSpace (c : ascii) :
  JS.isHexDigit c = true -> JS.isWhiteSpace c = false.
Proof.
  destruct c as [[] [] [] [] [] [] [] []]; intros H;
    first [ reflexivity | discriminate H ].
Qed.

Lemma trim_nonempty (c : ascii) (rest : string) :
  JS.isWhiteSpace c = false -> isEmpty (JS.trim (String c rest)) = false.
Proof.
  intros Hc. unfold JS.trim. cbn [JS.trimStart]. rewrite Hc.
  cbn [JS.trimEnd]. rewrite Hc. now destruct (JS.trimEnd rest).
Qed.

(** X20. The registration form accepts exactly a private key of 64
    hexadecimal digits, a name and a relay URL that are not blank, a relay
    URL that [new URL] parses, and a PIN of six digits: the checks that the
    key is not blank and that the PIN has length 6 add nothing to the
    format checks. *)
Theorem validateInputs_accepts_exactly (privateKey name url pin : string) :
  validateInputs privateKey name url pin = None
  <-> isHex64 privateKey = true
      /\ isEmpty (JS.trim name) = false
      /\ isEmpty (JS.trim url) = false
      /\ isSixDigits pin = true
      /\ URL_parses url = true.
Proof.
  unfold validateInputs. split.
  - destruct (isEmpty (JS.trim privateKey)); [discriminate|].
    destruct (isEmpty (JS.trim name)); [discriminate|].
    destruct (isEmpty (JS.trim url)); [discriminate|].
    destruct (JS.len pin =? 6); cbn [negb orb]; [|discriminate].
    destruct (isSixDigits pin); cbn [negb]; [|discriminate].
    destruct (isHex64 privateKey); cbn [negb]; [|discriminate].
    destruct (URL_parses url); cbn [negb]; [|discriminate].
    intros _. split; [reflexivity|]. split; [reflexivity|].
    split; [reflexivity|]. split; reflexivity.
  - intros (Hkey & Hname & Hurl & Hpin & Hparse).
    assert (Hk : isEmpty (JS.trim privateKey) = false).
    { destruct privateKey as [|c rest]; [discriminate Hkey|].
      apply trim_nonempty, hexDigit_not_whiteSpace.
      unfold isHex64 in Hkey. apply andb_true_iff in Hkey as [_ Hhex].
      cbn [list_ascii_of_string forallb] in Hhex.
      now apply andb_true_iff in Hhex as [Hc _]. }
    assert (Hlen : (JS.len pin =? 6) = true).
    { unfold isSixDigits in Hpin. apply andb_true_iff in Hpin as [Hl _].
      apply Nat.eqb_eq in Hl. unfold JS.len. now rewrite Hl. }
    now rewrite Hk, Hname, Hurl, Hlen, Hpin, Hkey, Hparse.
Qed.

(** *** What the home screen shows of a device *)

Lemma substring_length (n m : nat) (s : string) :
  String.length (substring n m s) = Nat.min m (String.length s - n).
Proof.
  revert n m. induction s as [|c s IH]; intros n m.
  - destruct n, m; reflexivity.
  - destruct n as [|n].
    + destruct m as [|m]; [reflexivity|]. cbn [substring String.length].
      rewrite IH. cbn. now rewrite Nat.sub_0_r.
    + cbn [substring String.length]. now rewrite IH.
Qed.

Lemma slice_length_le (s : string) (start : Z) (end_ : option Z) (k : nat) :
  (match end_ with
   | Some e => 0 <= start /\ 0 <= e /\ e - start <= Z.of_nat k
   | None => - Z.of_nat k <= start < 0
   end) ->
  (String.length (JS.slice s start end_) <= k)%nat.
Proof.
  drop_libs. intros H. unfold JS.slice, JS.len. rewrite substring_length.
  pose proof (Zle_0_nat (String.length s)) as Hs.
  destruct end_ as [e|].
  - destruct H as (H0 & He0 & He).
    destruct (start <? 0) eqn:E0; [apply Z.ltb_lt in E0; lia|].
    destruct (e <? 0) eqn:E1; [apply Z.ltb_lt in E1; lia | lia].
  - destruct (start <? 0) eqn:E0; [|apply Z.ltb_ge in E0; lia].
    destruct (Z.of_nat (String.length s) <? 0) eqn:E1; lia.
Qed.

(** X21. The labels of the home screen are bounded whatever is stored: a
    name is shown in at most 15 characters and as it is when it has at most
    15; a relay URL is shown in at most 27 characters and as it is when it
    has at most 24; a public key is shown in at most 21 characters. *)
Theorem home_screen_labels_are_bounded (name url pk : string) :
  (String.length (nameLabel name) <= 15)%nat
  /\ ((String.length name <= 15)%nat -> nameLabel name = name)
  /\ (String.length (relayLabel url) <= 27)%nat
  /\ ((String.length url <= 24)%nat -> relayLabel url = url)
  /\ (String.length (pubkeyLabel pk) <= 21)%nat.
Proof.
  unfold nameLabel, relayLabel, pubkeyLabel, JS.len.
  assert (Hn : (String.length (JS.slice name 0 (Some 12%Z)) <= 12)%nat)
    by (apply slice_length_le; lia).
  assert (Hu : (String.length (JS.slice url 0 (Some 24%Z)) <= 24)%nat)
    by (apply slice_length_le; lia).
  assert (Hp1 : (String.length (JS.slice pk 0 (Some 9%Z)) <= 9)%nat)
    by (apply slice_length_le; lia).
  assert (Hp2 : (String.length (JS.slice pk (-9) None) <= 9)%nat)
    by (apply slice_length_le; lia).
  drop_libs.
  split; [|split; [|split; [|split]]].
  - destruct (15 <? Z.of_nat (String.length name)) eqn:E.
    + rewrite length_append. cbn [String.length]. lia.
    + apply Z.ltb_ge in E. lia.
  - intros H. destruct (15 <? Z.of_nat (String.length name)) eqn:E;
      [apply Z.ltb_lt in E; lia | reflexivity].
  - destruct (24 <? Z.of_nat (String.length url)) eqn:E.
    + rewrite length_append. cbn [String.length]. lia.
    + apply Z.ltb_ge in E. lia.
  - intros H. destruct (24 <? Z.of_nat (String.length url)) eqn:E;
      [apply Z.ltb_lt in E; lia | reflexivity].
  - rewrite !length_append. cbn [String.length]. lia.
Qed.

(** *** Names, and undoing a registration *)

(** Dropping records keeps distinct names distinct. *)
Lemma names_of_filter (keep : Device -> bool) (ds : list Device) :
  uniqueNames ds -> uniqueNames (filter keep ds).
Proof.
  unfold uniqueNames. induction ds as [|d ds IH]; cbn [map filter];
    [intros H; exact H|].
  intros H. inversion H as [|y ys Hy Hys]; subst.
  destruct (keep d); [|now apply IH].
  cbn [map]. constructor; [|now apply IH].
  intros Hin. apply Hy. apply in_map_iff in Hin as (z & Hz & Hin).
  apply filter_In in Hin as [Hin _]. rewrite <- Hz. now apply in_map.
Qed.

(** X22. Registrations and deletions keep the names of the registry
    distinct: when no two records share a name, none do after [saveDevice]
    or [deleteDevice], whatever they are given and whether they succeed. *)
Theorem names_stay_unique_under_add_and_delete (op : Op) (w : World) :
  match op with Update _ _ _ => False | _ => True end ->
  NoDup (map deviceName (registry w)) ->
  NoDup (map deviceName (registry (snd (run op w)))).
Proof.
  destruct op as [privateKey name url pin | pk name url | pk]; cbn [run];
    intros Hop Hnd; [| contradiction |].
  - destruct (validateInputs privateKey name url pin) eqn:Hval.
    { unfold saveDevice. now rewrite Hval. }
    destruct (getPublicKey privateKey) as [pk|] eqn:Hpk.
    2:{ unfold saveDevice. now rewrite Hval, Hpk. }
    destruct (saveDevice_valid _ _ _ _ _ w Hval Hpk) as (blob & w1 & -> & ->).
    destruct (existsb (fun device => (deviceName device =? name)%string) (registry w))
      eqn:En; [exact Hnd|].
    destruct (existsb (fun device => (pubkey device =? pk)%string) (registry w));
      [exact Hnd|].
    unfold registry at 1. cbn [snd file]. rewrite map_app. cbn [map deviceName].
    apply NoDup_app; [exact Hnd | repeat constructor; intros [] |].
    intros k Hk [<- | []]. apply existsb_name_spec in Hk. congruence.
  - destruct (file w) as [| |devices] eqn:Hfile.
    + unfold deleteDevice, bind, readDevices. now rewrite Hfile.
    + unfold deleteDevice, bind, readDevices. now rewrite Hfile.
    + unfold deleteDevice, bind, ret, readDevices, writeDevices.
      rewrite Hfile. unfold registry in *. cbn [snd file].
      rewrite Hfile in Hnd. now apply names_of_filter.
Qed.

(** X23. Deleting a device that was just registered undoes the
    registration: after a successful [saveDevice], [deleteDevice] with the
    public key of the new record leaves the registry with exactly the
    records it had before, in their order. *)
Theorem deleteDevice_undoes_saveDevice
  (privateKey name url pin pk : string) (w : World) :
  validateInputs privateKey name url pin = None ->
  getPublicKey privateKey = Some pk ->
  ~ In name (map deviceName (registry w)) ->
  ~ In pk (map pubkey (registry w)) ->
  fst (deleteDevice pk (snd (saveDevice privateKey name url pin w)))
  = mkAlert "Success" "Device deleted successfully"
  /\ registry (snd (deleteDevice pk (snd (saveDevice privateKey name url pin w))))
     = registry w.
Proof.
  intros Hval Hpk Hn Hp.
  rewrite (saveDevice_success _ _ _ _ _ w Hval Hpk Hn Hp). cbn [snd].
  unfold deleteDevice, bind, ret, readDevices, writeDevices.
  cbn [file fst snd]. split; [reflexivity|].
  unfold registry at 1. cbn [file].
  rewrite filter_app. cbn [filter pubkey]. rewrite String.eqb_refl. cbn [negb].
  rewrite app_nil_r.
  revert Hp. generalize (registry w). intros ds Hp.
  induction ds as [|d ds IH]; [reflexivity|].
  cbn [filter]. destruct (String.eqb_spec (pubkey d) pk) as [E | E]; cbn [negb].
  - exfalso. apply Hp. left. exact E.
  - f_equal. apply IH. intros Hin. apply Hp. now right.
Qed.

End Program.

(* ================================================================== *)
(** ** The stand-ins meet what is assumed of the libraries *)
(* ================================================================== *)

Lemma byteVal_toUint8 (z : Z) : byteVal (toUint8 (Some z)) = z mod 256.
Proof.
  unfold toUint8, byteVal.
  assert (H : 0 <= z mod 256 < 256) by (apply Z.mod_pos_bound; lia).
  destruct (Byte.of_N (Z.to_N (z mod 256))) as [b|] eqn:E.
  - apply Byte.to_of_N in E. rewrite E. lia.
  - apply Byte.of_N_None_iff in E. lia.
Qed.

Lemma toUint8_mod (z : Z) : toUint8 (Some (z mod 256)) = toUint8 (Some z).
Proof. unfold toUint8. now rewrite Z.mod_mod by lia. Qed.

Lemma standin_PBKDF2_length (password : string) (salt : list byte) (iterations : Z) :
  List.length (StandIn.PBKDF2 password salt 8 iterations) = 32%nat.
Proof. unfold StandIn.PBKDF2. now rewrite length_map, length_seq. Qed.

Lemma standin_shift_back (ks cur m : list byte) :
  StandIn.shift (-1) ks cur (StandIn.shift 1 ks cur m) = m.
Proof.
  assert (Hb : forall b k,
             toUint8 (Some (byteVal (toUint8 (Some (byteVal b + 1 * byteVal k)))
                            + -1 * byteVal k)) = b).
  { intros b k. rewrite byteVal_toUint8, <- toUint8_mod.
    rewrite <- (toUint8_byteVal b) at 2. f_equal. f_equal.
    pose proof (byteVal_range b). pose proof (byteVal_range k).
    Z.div_mod_to_equations. lia. }
  revert cur. induction m as [|b m IH]; intros cur; [reflexivity|].
  cbn [StandIn.shift].
  destruct cur as [|k cur'].
  - destruct ks as [|k ks']; cbn [StandIn.shift]; now rewrite ?Hb, IH.
  - cbn [StandIn.shift]. now rewrite Hb, IH.
Qed.

Lemma standin_unpad_pad (m : list byte) : StandIn.unpad (StandIn.pad m) = m.
Proof.
  unfold StandIn.unpad, StandIn.pad.
  set (n := (16 - List.length m mod 16)%nat).
  assert (Hn : (1 <= n <= 16)%nat).
  { unfold n. pose proof (Nat.mod_upper_bound (List.length m) 16). lia. }
  assert (Hlast : last (m ++ repeat (toUint8 (Some (Z.of_nat n))) n) x00
                  = toUint8 (Some (Z.of_nat n))).
  { destruct n as [|n']; [lia|].
    replace (repeat (toUint8 (Some (Z.of_nat (S n')))) (S n'))
      with (repeat (toUint8 (Some (Z.of_nat (S n')))) n'
            ++ [toUint8 (Some (Z.of_nat (S n')))])
      by (rewrite <- repeat_cons; reflexivity).
    rewrite app_assoc. apply last_last. }
  rewrite Hlast, byteVal_toUint8, length_app, repeat_length.
  replace (Z.to_nat (Z.of_nat n mod 256)) with n
    by (rewrite Z.mod_small by lia; lia).
  replace (List.length m + n - n)%nat with (List.length m) by lia.
  rewrite firstn_app, firstn_all, Nat.sub_diag. cbn [firstn].
  apply app_nil_r.
Qed.

Lemma standin_AES_inverse (m k iv : list byte) :
  StandIn.AES_decrypt (StandIn.AES_encrypt m k iv) k iv = m.
Proof.
  unfold StandIn.AES_decrypt, StandIn.AES_encrypt.
  rewrite standin_shift_back. apply standin_unpad_pad.
Qed.

Lemma ofCode_code (c : ascii) : JS.ofCode (JS.code c) = c.
Proof.
  unfold JS.ofCode, JS.code.
  pose proof (N_ascii_bounded c) as Hc.
  rewrite Z.mod_small by lia. rewrite N2Z.id. apply ascii_N_embedding.
Qed.

Lemma standin_Utf8_inverse (s : string) :
  isAscii s = true -> StandIn.Utf8_stringify (utf8Encode s) = Some s.
Proof.
  unfold isAscii, StandIn.Utf8_stringify. intros H.
  assert (E : forallb (fun b => byteVal b <? 128) (utf8Encode s) = true
              /\ string_of_list_ascii
                   (map (fun b => JS.ofCode (byteVal b)) (utf8Encode s)) = s).
  { induction s as [|c s IH]; [now split|].
    cbn [list_ascii_of_string forallb] in H.
    apply andb_true_iff in H as [Hc Hs]. destruct (IH Hs) as [IH1 IH2].
    cbn [utf8Encode]. rewrite Hc. cbn [forallb map string_of_list_ascii].
    apply Z.ltb_lt in Hc.
    assert (Hk : 0 <= JS.code c) by (unfold JS.code; lia).
    rewrite byteVal_toUint8, Z.mod_small by lia.
    rewrite IH1, IH2, ofCode_code. split; [|reflexivity].
    apply andb_true_iff. split; [now apply Z.ltb_lt | reflexivity]. }
  destruct E as [-> ->]. reflexivity.
Qed.

(** The stand-in for [Date.parse] reads the ISO string of an instant,
    written to the second, back as that second. *)
Lemma standin_decimal2 (n : Z) :
  0 <= n < 100 ->
  StandIn.decimal (String (digitAt n 1) (String (digitAt n 0) "")) 0 = Some n.
Proof.
  intros H.
  assert (E : match StandIn.decimal (String (digitAt n 1) (String (digitAt n 0) "")) 0
              with Some v => v =? n | None => false end = true).
  { apply (forall_below
             (fun n => match StandIn.decimal
                               (String (digitAt n 1) (String (digitAt n 0) "")) 0
                       with Some v => v =? n | None => false end)
             (Z.to_nat 100)); [vm_compute; reflexivity | lia]. }
  destruct (StandIn.decimal _ 0) as [v|]; [|discriminate E].
  apply Z.eqb_eq in E. now subst v.
Qed.

Lemma standin_decimal4 (n : Z) :
  0 <= n < 10000 ->
  StandIn.decimal
    (String (digitAt n 3) (String (digitAt n 2)
       (String (digitAt n 1) (String (digitAt n 0) "")))) 0 = Some n.
Proof.
  intros H.
  assert (E : match StandIn.decimal
                      (String (digitAt n 3) (String (digitAt n 2)
                         (String (digitAt n 1) (String (digitAt n 0) "")))) 0
              with Some v => v =? n | None => false end = true).
  { apply (forall_below
             (fun n => match StandIn.decimal
                               (String (digitAt n 3) (String (digitAt n 2)
                                  (String (digitAt n 1) (String (digitAt n 0) "")))) 0
                       with Some v => v =? n | None => false end)
             (Z.to_nat 10000)); [vm_compute; reflexivity | lia]. }
  destruct (StandIn.decimal _ 0) as [v|]; [|discriminate E].
  apply Z.eqb_eq in E. now subst v.
Qed.

(** The day number of the civil date of a day is that day. *)
Lemma standin_daysFromCivil_civil (day : Z) :
  let '(y, m, d) := Date.civil day in StandIn.daysFromCivil y m d = day.
Proof.
  unfold Date.civil, StandIn.daysFromCivil.
  set (z := day + 719468).
  set (era := z / 146097).
  assert (Hdoe : 0 <= z - era * 146097 < 146097)
    by (subst era; Z.div_mod_to_equations; lia).
  set (doe := z - era * 146097) in *.
  assert (Hyoe : 0 <= Date.yearOfEra doe < 400)
    by (unfold Date.yearOfEra; Z.div_mod_to_equations; lia).
  pose proof (dayOfYear_range doe Hdoe) as Hdoy.
  assert (Edoy : Date.dayOfYear doe
                 = doe - (365 * Date.yearOfEra doe + Date.yearOfEra doe / 4
                          - Date.yearOfEra doe / 100)) by reflexivity.
  set (yoe := Date.yearOfEra doe) in *.
  set (doy := Date.dayOfYear doe) in *.
  assert (Hmp : 0 <= (5 * doy + 2) / 153 <= 11)
    by (Z.div_mod_to_equations; lia).
  set (mp := (5 * doy + 2) / 153) in *.
  set (m := if mp <? 10 then mp + 3 else mp - 9).
  assert (Hm : (if 2 <? m then m - 3 else m + 9) = mp
               /\ (if m <=? 2 then (if m <=? 2 then yoe + era * 400 + 1
                                    else yoe + era * 400) - 1
                   else (if m <=? 2 then yoe + era * 400 + 1
                         else yoe + era * 400))
                  = yoe + era * 400).
  { subst m. destruct (mp <? 10) eqn:E;
      [apply Z.ltb_lt in E | apply Z.ltb_ge in E].
    - replace (2 <? mp + 3) with true by (symmetry; apply Z.ltb_lt; lia).
      replace (mp + 3 <=? 2) with false by (symmetry; apply Z.leb_gt; lia).
      split; lia.
    - replace (2 <? mp - 9) with false by (symmetry; apply Z.ltb_ge; lia).
      replace (mp - 9 <=? 2) with true by (symmetry; apply Z.leb_le; lia).
      split; lia. }
  destruct Hm as [Hm1 Hm2]. rewrite Hm1, Hm2.
  replace ((yoe + era * 400) / 400) with era
    by (apply Z.div_unique with (r := yoe); lia).
  replace (yoe + era * 400 - era * 400) with yoe by lia.
  rewrite Edoy. unfold doe, z. lia.
Qed.

Lemma standin_parse_shape
  (y1 y2 y3 y4 m1 m2 d1 d2 h1 h2 n1 n2 s1 s2 f1 f2 f3 : ascii) :
  StandIn.Date_parse
    (JS.slice
       (String y1 (String y2 (String y3 (String y4 ""))) +++ "-"
        +++ String m1 (String m2 "") +++ "-" +++ String d1 (String d2 "") +++ "T"
        +++ String h1 (String h2 "") +++ ":" +++ String n1 (String n2 "") +++ ":"
        +++ String s1 (String s2 "") +++ "."
        +++ String f1 (String f2 (String f3 "")) +++ "Z") 0 (Some 19) +++ "Z")
  = match StandIn.decimal (String y1 (String y2 (String y3 (String y4 "")))) 0,
          StandIn.decimal (String m1 (String m2 "")) 0,
          StandIn.decimal (String d1 (String d2 "")) 0,
          StandIn.decimal (String h1 (String h2 "")) 0,
          StandIn.decimal (String n1 (String n2 "")) 0,
          StandIn.decimal (String s1 (String s2 "")) 0
    with
    | Some y, Some m, Some d, Some hh, Some mm, Some ss =>
        if (1 <=? m) && (m <=? 12) && (1 <=? d) && (d <=? 31)
           && (hh <=? 23) && (mm <=? 59) && (ss <=? 59)
        then Some (StandIn.daysFromCivil y m d * 86400000
                   + hh * 3600000 + mm * 60000 + ss * 1000)
        else None
    | _, _, _, _, _, _ => None
    end.
Proof. reflexivity. Qed.

Lemma standin_Date_parse_ISO (t : Z) :
  0 <= Date.YearFromTime t <= 9999 ->
  StandIn.Date_parse (JS.slice (Date.toISOString t) 0 (Some 19) +++ "Z")
  = Some (1000 * (t / 1000)).
Proof.
  intros Hy. rewrite (toISOString_digits t Hy).
  rewrite pad3_digits by (unfold Date.msFromTime; Z.div_mod_to_equations; lia).
  unfold fourDigits, twoDigits.
  etransitivity; [apply standin_parse_shape|].
  pose proof (civil_range (Date.Day t)) as Hc.
  pose proof (standin_daysFromCivil_civil (Date.Day t)) as Hd.
  unfold Date.YearFromTime, Date.MonthFromTime, Date.DateFromTime in *.
  destruct (Date.civil (Date.Day t)) as [[y m] d]. cbn [fst snd] in *.
  replace (m - 1 + 1) with m by lia.
  assert (Hh : 0 <= Date.HourFromTime t < 24)
    by (unfold Date.HourFromTime; Z.div_mod_to_equations; lia).
  assert (Hn : 0 <= Date.MinFromTime t < 60)
    by (unfold Date.MinFromTime; Z.div_mod_to_equations; lia).
  assert (Hs : 0 <= Date.SecFromTime t < 60)
    by (unfold Date.SecFromTime; Z.div_mod_to_equations; lia).
  rewrite standin_decimal4 by lia.
  rewrite (standin_decimal2 m) by lia.
  rewrite (standin_decimal2 d) by lia.
  rewrite (standin_decimal2 (Date.HourFromTime t)) by lia.
  rewrite (standin_decimal2 (Date.MinFromTime t)) by lia.
  rewrite (standin_decimal2 (Date.SecFromTime t)) by lia.
  replace ((1 <=? m) && (m <=? 12) && (1 <=? d) && (d <=? 31)
           && (Date.HourFromTime t <=? 23) && (Date.MinFromTime t <=? 59)
           && (Date.SecFromTime t <=? 59)) with true.
  2:{ symmetry. repeat (apply andb_true_iff; split); apply Z.leb_le; lia. }
  f_equal. rewrite Hd.
  unfold Date.Day, Date.msPerDay, Date.HourFromTime, Date.MinFromTime,
    Date.SecFromTime.
  Z.div_mod_to_equations. lia.
Qed.

(* ================================================================== *)
(** ** The theorems at concrete inputs *)
(* ================================================================== *)

(** C1 at the private key 0101...01 and the PIN 123456. *)
Lemma vault_round_trip_witness :
  isHex64 "0101010101010101010101010101010101010101010101010101010101010101" = true
  /\ exists blob,
       fst (encryptPrivateKey StandIn.PBKDF2 StandIn.AES_encrypt
              StandIn.Base64_stringify
              "0101010101010101010101010101010101010101010101010101010101010101"
              "123456" StandIn.world) = Some blob
       /\ decryptPrivateKey StandIn.PBKDF2 StandIn.AES_decrypt StandIn.Base64_parse
            StandIn.Utf8_stringify blob "123456"
          = Some "0101010101010101010101010101010101010101010101010101010101010101".
Proof.
  split; [reflexivity|].
  apply (vault_round_trip StandIn.PBKDF2 StandIn.AES_encrypt StandIn.AES_decrypt
           StandIn.Base64_stringify StandIn.Base64_parse StandIn.Utf8_stringify
           standin_PBKDF2_length
           (fun m k iv _ _ => standin_AES_inverse m k iv)
           Buffer_from_hex_hexOfBytes standin_Utf8_inverse).
  reflexivity.
Defined.

(** C7 at the first 32 bytes of the tape of [StandIn.world]. *)
Lemma blob_wire_format_witness :
  let saltBytes := firstn 16 (fst (getRandomBytes 32 StandIn.world)) in
  let ivBytes := skipn 16 (fst (getRandomBytes 32 StandIn.world)) in
  let privKey := "0101010101010101010101010101010101010101010101010101010101010101" in
  let ciphertext :=
    StandIn.AES_encrypt (utf8Encode privKey)
      (StandIn.PBKDF2 (JS.padStart "123456" 6 "0") saltBytes 8 1000) ivBytes in
  let blob :=
    hexOfBytes saltBytes +++ hexOfBytes ivBytes
    +++ StandIn.Base64_stringify ciphertext in
  (List.length saltBytes = 16%nat /\ List.length ivBytes = 16%nat
   /\ fst (getRandomBytes 32 StandIn.world) = saltBytes ++ ivBytes)
  /\ fst (encryptPrivateKey StandIn.PBKDF2 StandIn.AES_encrypt
            StandIn.Base64_stringify privKey "123456" StandIn.world) = Some blob
  /\ parseBlob StandIn.Base64_parse blob
     = (uint8ArrayToWordArray saltBytes, uint8ArrayToWordArray ivBytes, ciphertext).
Proof.
  intros saltBytes ivBytes privKey ciphertext blob.
  assert (Hs : List.length saltBytes = 16%nat) by reflexivity.
  assert (Hi : List.length ivBytes = 16%nat) by reflexivity.
  assert (Hd : fst (getRandomBytes 32 StandIn.world) = saltBytes ++ ivBytes)
    by reflexivity.
  split; [now repeat split|].
  pose proof (blob_wire_format StandIn.PBKDF2 StandIn.AES_encrypt
                StandIn.Base64_stringify StandIn.Base64_parse
                Buffer_from_hex_hexOfBytes
                saltBytes ivBytes privKey "123456" StandIn.world Hs Hi Hd) as H.
  cbv zeta in H. split; [apply H|]. apply H.
Defined.

(** C6 at a second device that takes the name of the first. *)
Lemma add_rejects_duplicates_witness :
  let key := "0000000000000000000000000000000000000000000000000000000000000002" in
  let pk := "04c6047f9441ed7d6d3045406e95c07cd85c778e4b8cef3ca7abac09b95c709ee51ae168fea63dc339a3c58419466ceaeef7f632653266d0e1236431a950cfe52a" in
  let add := saveDevice StandIn.PBKDF2 StandIn.AES_encrypt StandIn.Base64_stringify
               StandIn.URL_parses key "desktop" "https://relay.scaler.icu" "123456" in
  (validateInputs StandIn.URL_parses key "desktop" "https://relay.scaler.icu" "123456"
   = None
   /\ getPublicKey key = Some pk
   /\ In "desktop" (map deviceName (registry StandIn.oneDevice)))
  /\ file (snd (add StandIn.oneDevice)) = file StandIn.oneDevice
  /\ fst (add StandIn.oneDevice) = mkAlert "Error" "A device with this name already exists".
Proof.
  intros key pk add.
  assert (Hv : validateInputs StandIn.URL_parses key "desktop"
                 "https://relay.scaler.icu" "123456" = None) by reflexivity.
  assert (Hp : getPublicKey key = Some pk) by (vm_compute; reflexivity).
  assert (Hin : In "desktop" (map deviceName (registry StandIn.oneDevice)))
    by (left; reflexivity).
  split; [now repeat split|].
  pose proof (add_rejects_duplicates StandIn.PBKDF2 StandIn.AES_encrypt
                StandIn.Base64_stringify StandIn.URL_parses
                key "desktop" "https://relay.scaler.icu" "123456" pk StandIn.oneDevice
                Hv Hp (or_introl Hin)) as H.
  split; [apply H|]. apply H. exact Hin.
Defined.


(** C9 as amended, at a rename of the one device of [StandIn.oneDevice]. *)
Lemma saveChanges_replaces_name_and_relay_witness :
  let pk := "0479be667ef9dcbbac55a06295ce870b07029bfcdb2dce28d959f2815b16f81798483ada7726a3c4655da4fbfc0e1108a8fd17b448a68554199c47d08ffb10d4b8" in
  validateEdit StandIn.URL_parses "tower" "https://relay.example.org" = None
  /\ fst (saveChanges StandIn.URL_parses pk "tower" "https://relay.example.org" StandIn.oneDevice)
     = mkAlert "Success" "Device updated successfully"
  /\ file (snd (saveChanges StandIn.URL_parses pk "tower" "https://relay.example.org"
                  StandIn.oneDevice))
     = Stored [mkDevice pk "tower" "https://relay.example.org" "blob"].
Proof.
  intros pk.
  assert (Hv : validateEdit StandIn.URL_parses "tower" "https://relay.example.org"
               = None) by reflexivity.
  split; [exact Hv|].
  pose proof (saveChanges_replaces_name_and_relay StandIn.URL_parses pk "tower"
                "https://relay.example.org" StandIn.oneDevice _ Hv eq_refl) as H.
  split; [apply H|]. reflexivity.
Defined.

(** C9 as stated fails: with a public key that no record has, [saveChanges]
    raises no error; it reports success and writes the collection back. *)
Lemma update_of_absent_pubkey_reports_success :
  ~ In "04ff" (map pubkey (registry StandIn.oneDevice))
  /\ fst (saveChanges StandIn.URL_parses "04ff" "tower" "https://relay.example.org"
            StandIn.oneDevice)
     = mkAlert "Success" "Device updated successfully"
  /\ title (fst (saveChanges StandIn.URL_parses "04ff" "tower"
                   "https://relay.example.org" StandIn.oneDevice)) <> "Error"
  /\ file (snd (saveChanges StandIn.URL_parses "04ff" "tower"
                  "https://relay.example.org" StandIn.oneDevice))
     = file StandIn.oneDevice.
Proof.
  split; [intros [H | []]; discriminate H|].
  split; [reflexivity|]. split; [discriminate | reflexivity].
Qed.

(** C4's run, from the empty registry of [StandIn.world]. *)
Lemma update_breaks_name_uniqueness_witness :
  let url := "https://relay.scaler.icu" in
  let run_ := run StandIn.PBKDF2 StandIn.AES_encrypt StandIn.Base64_stringify
                StandIn.URL_parses in
  let w1 :=
    snd (run_ (Add "0000000000000000000000000000000000000000000000000000000000000001"
                   "desktop" url "123456") StandIn.world) in
  let w2 :=
    snd (run_ (Add "0000000000000000000000000000000000000000000000000000000000000002"
                   "laptop" url "123456") w1) in
  let w3 :=
    snd (run_ (Update "04c6047f9441ed7d6d3045406e95c07cd85c778e4b8cef3ca7abac09b95c709ee51ae168fea63dc339a3c58419466ceaeef7f632653266d0e1236431a950cfe52a"
                      "desktop" url) w2) in
  (StandIn.URL_parses url = true /\ registry StandIn.world = [])
  /\ Reachable StandIn.PBKDF2 StandIn.AES_encrypt StandIn.Base64_stringify
       StandIn.URL_parses w3
  /\ map deviceName (registry w3) = ["desktop"; "desktop"]
  /\ ~ uniqueNames (registry w3).
Proof.
  intros url run_ w1 w2 w3.
  split; [split; reflexivity|].
  pose proof (update_breaks_name_uniqueness StandIn.PBKDF2 StandIn.AES_encrypt
                StandIn.Base64_stringify StandIn.URL_parses StandIn.world
                eq_refl eq_refl) as H.
  cbv zeta in H. destruct H as (_ & _ & _ & H1 & H2 & H3).
  split; [exact H1|]. split; [exact H2 | exact H3].
Defined.

(** C3 at the private key 1 and the command "shutdown+20240101000000". *)
Lemma signCommand_publicKeyHex_differs_from_registered_witness :
  let key := "0000000000000000000000000000000000000000000000000000000000000001" in
  exists res pk,
    (isHex64 key = true
     /\ getPublicKey key = Some pk
     /\ fst (signCommand StandIn.SHA256 StandIn.HmacSHA256
               "shutdown+20240101000000" key StandIn.world) = Some res)
    /\ pk = "0479be667ef9dcbbac55a06295ce870b07029bfcdb2dce28d959f2815b16f81798483ada7726a3c4655da4fbfc0e1108a8fd17b448a68554199c47d08ffb10d4b8"
    /\ publicKeyHex res
       = "040279be667ef9dcbbac55a06295ce870b07029bfcdb2dce28d959f2815b16f81798"
    /\ publicKeyHex res <> pk.
Proof.
  intros key.
  destruct (fst (signCommand StandIn.SHA256 StandIn.HmacSHA256
                   "shutdown+20240101000000" key StandIn.world)) as [res|] eqn:Es;
    [|vm_compute in Es; discriminate Es].
  assert (Hp : getPublicKey key
               = Some "0479be667ef9dcbbac55a06295ce870b07029bfcdb2dce28d959f2815b16f81798483ada7726a3c4655da4fbfc0e1108a8fd17b448a68554199c47d08ffb10d4b8")
    by (vm_compute; reflexivity).
  exists res, "0479be667ef9dcbbac55a06295ce870b07029bfcdb2dce28d959f2815b16f81798483ada7726a3c4655da4fbfc0e1108a8fd17b448a68554199c47d08ffb10d4b8".
  split; [split; [reflexivity | split; [exact Hp | reflexivity]]|].
  split; [reflexivity|].
  pose proof (signCommand_publicKeyHex_differs_from_registered
                StandIn.SHA256 StandIn.HmacSHA256 "shutdown+20240101000000" key _
                StandIn.world res eq_refl Hp Es) as H.
  destruct H as (x & y & _ & _ & _ & _ & Hne).
  split; [|exact Hne].
  vm_compute in Es. injection Es as <-. reflexivity.
Defined.

(** C10 at a device last active at the first second of 2024: checked 60.999
    seconds later it is shown online, checked 61 seconds later offline. *)
Lemma online_iff_within_60_seconds_witness :
  let t0 := 1704067200000 in
  let d := mkDevice "0479be667ef9dcbbac55a06295ce870b07029bfcdb2dce28d959f2815b16f81798483ada7726a3c4655da4fbfc0e1108a8fd17b448a68554199c47d08ffb10d4b8"
             "desktop" "https://relay.scaler.icu" "blob" in
  let at_ (now : Z) :=
    mkWorld (tape StandIn.world) 0 now (file StandIn.oneDevice)
      (fun _ => Ok (Some "20240101000000")) [] in
  (0 <= Date.YearFromTime t0 <= 9999
   /\ timestampOf t0 = "20240101000000"
   /\ StandIn.Date_parse "2024-01-01T00:00:00Z" = Some t0)
  /\ fst (checkDeviceStatus StandIn.Date_parse d [mkHomeDevice d false true]
            (at_ (t0 + 60999)))
     = [mkHomeDevice d true false]
  /\ fst (checkDeviceStatus StandIn.Date_parse d [mkHomeDevice d true true]
            (at_ (t0 + 61000)))
     = [mkHomeDevice d false false].
Proof.
  intros t0 d at_.
  assert (Hy : 0 <= Date.YearFromTime t0 <= 9999)
    by (change (Date.YearFromTime t0) with 2024; lia).
  assert (Et : timestampOf t0 = "20240101000000") by (vm_compute; reflexivity).
  split; [split; [exact Hy | split; [exact Et | vm_compute; reflexivity]]|].
  assert (Hr : forall now,
             relay (at_ now)
               (LastActive (dropFinalSlash (relayUrl d) +++ "/api/request/last-active")
                  (pubkey d)) = Ok (Some (timestampOf t0)))
    by (intros now; rewrite Et; reflexivity).
  split.
  - destruct (online_iff_within_60_seconds StandIn.Date_parse t0 d
                [mkHomeDevice d false true] (at_ (t0 + 60999))
                standin_Date_parse_ISO Hy (Hr _))
      as (_ & _ & _ & Hlen & Hent).
    destruct (Hent 0%nat (mkHomeDevice d false true) eq_refl eq_refl)
      as (d' & Hd' & Hdev & Hload & _ & H60 & _).
    destruct (fst (checkDeviceStatus StandIn.Date_parse d
                     [mkHomeDevice d false true] (at_ (t0 + 60999))))
      as [|e [|e' rest]]; try discriminate Hlen.
    cbn in Hd'. injection Hd' as ->. destruct d' as [dd on ld].
    cbn in Hdev, Hload, H60. subst dd ld.
    rewrite (H60 eq_refl). reflexivity.
  - destruct (online_iff_within_60_seconds StandIn.Date_parse t0 d
                [mkHomeDevice d true true] (at_ (t0 + 61000))
                standin_Date_parse_ISO Hy (Hr _))
      as (_ & _ & _ & Hlen & Hent).
    destruct (Hent 0%nat (mkHomeDevice d true true) eq_refl eq_refl)
      as (d' & Hd' & Hdev & Hload & _ & _ & H61).
    destruct (fst (checkDeviceStatus StandIn.Date_parse d
                     [mkHomeDevice d true true] (at_ (t0 + 61000))))
      as [|e [|e' rest]]; try discriminate Hlen.
    cbn in Hd'. injection Hd' as ->. destruct d' as [dd on ld].
    cbn in Hdev, Hload, H61. subst dd ld.
    rewrite (H61 eq_refl). reflexivity.
Defined.

(** X1 at the registration of the key 1 in a world with no devices file. *)
Lemma saveDevice_stores_a_record_the_pin_opens_witness :
  let key := "0000000000000000000000000000000000000000000000000000000000000001" in
  let pk := "0479be667ef9dcbbac55a06295ce870b07029bfcdb2dce28d959f2815b16f81798483ada7726a3c4655da4fbfc0e1108a8fd17b448a68554199c47d08ffb10d4b8" in
  let url := "https://relay.scaler.icu" in
  let add := saveDevice StandIn.PBKDF2 StandIn.AES_encrypt StandIn.Base64_stringify StandIn.URL_parses
               key "laptop" url "123456" in
  (validateInputs StandIn.URL_parses key "laptop" url "123456" = None
   /\ getPublicKey key = Some pk
   /\ ~ In "laptop" (map deviceName (registry StandIn.world))
   /\ ~ In pk (map pubkey (registry StandIn.world)))
  /\ exists blob,
       fst (add StandIn.world) = mkAlert "Success" "Device added successfully"
       /\ file (snd (add StandIn.world))
          = Stored (registry StandIn.world ++ [mkDevice pk "laptop" url blob])
       /\ pos (snd (add StandIn.world)) = (pos StandIn.world + 32)%nat
       /\ decryptPrivateKey StandIn.PBKDF2 StandIn.AES_decrypt StandIn.Base64_parse StandIn.Utf8_stringify
            blob "123456" = Some key.
Proof.
  intros key pk url add.
  assert (Hv : validateInputs StandIn.URL_parses key "laptop" url "123456" = None)
    by reflexivity.
  assert (Hp : getPublicKey key = Some pk) by (vm_compute; reflexivity).
  assert (Hn : ~ In "laptop" (map deviceName (registry StandIn.world)))
    by (intros []).
  assert (Hk : ~ In pk (map pubkey (registry StandIn.world))) by (intros []).
  split; [split; [exact Hv | split; [exact Hp | split; [exact Hn | exact Hk]]]|].
  exact (saveDevice_stores_a_record_the_pin_opens
           StandIn.PBKDF2 StandIn.AES_encrypt StandIn.AES_decrypt
           StandIn.Base64_stringify StandIn.Base64_parse StandIn.Utf8_stringify
           StandIn.URL_parses
           standin_PBKDF2_length
             (fun m k iv _ _ => standin_AES_inverse m k iv)
             Buffer_from_hex_hexOfBytes standin_Utf8_inverse
           key "laptop" url "123456" pk StandIn.world Hv Hp Hn Hk).
Defined.

(** X2 at the same registration in a world whose devices file does not
    parse. *)
Lemma saveDevice_replaces_an_unreadable_file_witness :
  let key := "0000000000000000000000000000000000000000000000000000000000000001" in
  let pk := "0479be667ef9dcbbac55a06295ce870b07029bfcdb2dce28d959f2815b16f81798483ada7726a3c4655da4fbfc0e1108a8fd17b448a68554199c47d08ffb10d4b8" in
  let url := "https://relay.scaler.icu" in
  let w := mkWorld (tape StandIn.world) 0 (clock StandIn.world) Garbled
             (relay StandIn.world) [] in
  let add := saveDevice StandIn.PBKDF2 StandIn.AES_encrypt StandIn.Base64_stringify StandIn.URL_parses
               key "laptop" url "123456" in
  (validateInputs StandIn.URL_parses key "laptop" url "123456" = None
   /\ getPublicKey key = Some pk
   /\ (file w = Missing \/ file w = Garbled))
  /\ exists blob,
       fst (add w) = mkAlert "Success" "Device added successfully"
       /\ file (snd (add w)) = Stored [mkDevice pk "laptop" url blob].
Proof.
  intros key pk url w add.
  assert (Hv : validateInputs StandIn.URL_parses key "laptop" url "123456" = None)
    by reflexivity.
  assert (Hp : getPublicKey key = Some pk) by (vm_compute; reflexivity).
  assert (Hf : file w = Missing \/ file w = Garbled) by (right; reflexivity).
  split; [split; [exact Hv | split; [exact Hp | exact Hf]]|].
  exact (saveDevice_replaces_an_unreadable_file StandIn.PBKDF2 StandIn.AES_encrypt StandIn.Base64_stringify StandIn.URL_parses
           key "laptop" url "123456" pk w Hv Hp Hf).
Defined.

(** X3 at the key 0, which is 64 hexadecimal digits and no scalar of the
    curve. *)
Lemma saveDevice_rejects_a_key_out_of_range_witness :
  let key := "0000000000000000000000000000000000000000000000000000000000000000" in
  let url := "https://relay.scaler.icu" in
  (validateInputs StandIn.URL_parses key "laptop" url "123456" = None
   /\ ~ (0 < Noble.b2n (Buffer_from_hex key) < Noble.N))
  /\ saveDevice StandIn.PBKDF2 StandIn.AES_encrypt StandIn.Base64_stringify StandIn.URL_parses
       key "laptop" url "123456" StandIn.world
     = (mkAlert "Error" "Failed to generate public key", StandIn.world).
Proof.
  intros key url.
  assert (Hv : validateInputs StandIn.URL_parses key "laptop" url "123456" = None)
    by reflexivity.
  assert (Hr : ~ (0 < Noble.b2n (Buffer_from_hex key) < Noble.N)).
  { change (Noble.b2n (Buffer_from_hex key)) with 0. lia. }
  split; [split; [exact Hv | exact Hr]|].
  exact (saveDevice_rejects_a_key_out_of_range StandIn.PBKDF2 StandIn.AES_encrypt StandIn.Base64_stringify StandIn.URL_parses
           key "laptop" url "123456" StandIn.world Hv Hr).
Defined.

(** X4 at the key 1, whose public key is the base point. *)
Lemma getPublicKey_gives_130_hex_digits_witness :
  let key := "0000000000000000000000000000000000000000000000000000000000000001" in
  let pk := "0479be667ef9dcbbac55a06295ce870b07029bfcdb2dce28d959f2815b16f81798483ada7726a3c4655da4fbfc0e1108a8fd17b448a68554199c47d08ffb10d4b8" in
  (isHex64 key = true /\ getPublicKey key = Some pk)
  /\ String.length pk = 130%nat
  /\ forallb JS.isHexDigit (list_ascii_of_string pk) = true
  /\ JS.slice pk 0 (Some 2) = "04".
Proof.
  intros key pk.
  assert (Hk : isHex64 key = true) by reflexivity.
  assert (Hp : getPublicKey key = Some pk) by (vm_compute; reflexivity).
  split; [split; [exact Hk | exact Hp]|].
  exact (proj2 (getPublicKey_gives_130_hex_digits key Hk) pk Hp).
Defined.

(** X5 at the registration of the key 1 in a world with no devices file. *)
Lemma loadDevice_finds_the_added_device_witness :
  let key := "0000000000000000000000000000000000000000000000000000000000000001" in
  let pk := "0479be667ef9dcbbac55a06295ce870b07029bfcdb2dce28d959f2815b16f81798483ada7726a3c4655da4fbfc0e1108a8fd17b448a68554199c47d08ffb10d4b8" in
  let url := "https://relay.scaler.icu" in
  let add := saveDevice StandIn.PBKDF2 StandIn.AES_encrypt StandIn.Base64_stringify StandIn.URL_parses
               key "laptop" url "123456" in
  (validateInputs StandIn.URL_parses key "laptop" url "123456" = None
   /\ getPublicKey key = Some pk
   /\ ~ In "laptop" (map deviceName (registry StandIn.world))
   /\ ~ In pk (map pubkey (registry StandIn.world)))
  /\ exists blob,
       fst (loadDevice pk (snd (add StandIn.world)))
       = Found (mkDevice pk "laptop" url blob).
Proof.
  intros key pk url add.
  assert (Hv : validateInputs StandIn.URL_parses key "laptop" url "123456" = None)
    by reflexivity.
  assert (Hp : getPublicKey key = Some pk) by (vm_compute; reflexivity).
  assert (Hn : ~ In "laptop" (map deviceName (registry StandIn.world)))
    by (intros []).
  assert (Hk : ~ In pk (map pubkey (registry StandIn.world))) by (intros []).
  split; [split; [exact Hv | split; [exact Hp | split; [exact Hn | exact Hk]]]|].
  destruct (loadDevice_finds_the_added_device StandIn.PBKDF2 StandIn.AES_encrypt StandIn.Base64_stringify StandIn.URL_parses
              key "laptop" url "123456" pk StandIn.world Hv Hp Hn Hk)
    as [(blob & Hload & _) _].
  exists blob. exact Hload.
Defined.

(** X6 at the deletion of the one device of [StandIn.oneDevice]. *)
Lemma deleteDevice_removes_the_device_witness :
  let pk := "0479be667ef9dcbbac55a06295ce870b07029bfcdb2dce28d959f2815b16f81798483ada7726a3c4655da4fbfc0e1108a8fd17b448a68554199c47d08ffb10d4b8" in
  file StandIn.oneDevice
  = Stored [mkDevice pk "desktop" "https://relay.scaler.icu" "blob"]
  /\ fst (deleteDevice pk StandIn.oneDevice)
     = mkAlert "Success" "Device deleted successfully"
  /\ fst (loadDevice pk (snd (deleteDevice pk StandIn.oneDevice)))
     = NotLoaded (mkAlert "Error" "Device not found.")
  /\ file (snd (deleteDevice pk StandIn.oneDevice)) = Stored [].
Proof.
  intros pk.
  assert (Hf : file StandIn.oneDevice
               = Stored [mkDevice pk "desktop" "https://relay.scaler.icu" "blob"])
    by reflexivity.
  split; [exact Hf|].
  destruct (deleteDevice_removes_the_device pk StandIn.oneDevice _ Hf)
    as (H1 & H2 & _).
  split; [exact H1|]. split; [exact H2 | reflexivity].
Defined.

(** X7 at a rename of the one device of [StandIn.oneDevice]. *)
Lemma saveChanges_keeps_the_encrypted_key_witness :
  let pk := "0479be667ef9dcbbac55a06295ce870b07029bfcdb2dce28d959f2815b16f81798483ada7726a3c4655da4fbfc0e1108a8fd17b448a68554199c47d08ffb10d4b8" in
  let d := mkDevice pk "desktop" "https://relay.scaler.icu" "blob" in
  let w' := snd (saveChanges StandIn.URL_parses pk "tower"
                   "https://relay.example.org" StandIn.oneDevice) in
  (validateEdit StandIn.URL_parses "tower" "https://relay.example.org" = None
   /\ file StandIn.oneDevice = Stored [d]
   /\ findDevice pk [d] = Some d)
  /\ fst (loadDevice pk w')
     = Found (mkDevice pk "tower" "https://relay.example.org" "blob")
  /\ fst (loadEditForm pk w') = (None, ("tower", "https://relay.example.org")).
Proof.
  intros pk d w'.
  assert (Hv : validateEdit StandIn.URL_parses "tower" "https://relay.example.org"
               = None) by reflexivity.
  assert (Hf : file StandIn.oneDevice = Stored [d]) by reflexivity.
  assert (Hd : findDevice pk [d] = Some d) by reflexivity.
  split; [split; [exact Hv | split; [exact Hf | exact Hd]]|].
  destruct (saveChanges_keeps_the_encrypted_key StandIn.URL_parses pk "tower"
              "https://relay.example.org" StandIn.oneDevice [d] d Hv Hf Hd)
    as (H1 & H2 & _).
  split; [exact H1 | exact H2].
Defined.

(** X8 at the world reached by one registration. *)
Lemma registry_public_keys_stay_unique_witness :
  let key := "0000000000000000000000000000000000000000000000000000000000000001" in
  let w := snd (run StandIn.PBKDF2 StandIn.AES_encrypt StandIn.Base64_stringify StandIn.URL_parses
                  (Add key "laptop" "https://relay.scaler.icu" "123456")
                  StandIn.world) in
  Reachable StandIn.PBKDF2 StandIn.AES_encrypt StandIn.Base64_stringify StandIn.URL_parses w
  /\ NoDup (map pubkey (registry w)).
Proof.
  intros key w.
  assert (Hw : Reachable StandIn.PBKDF2 StandIn.AES_encrypt StandIn.Base64_stringify StandIn.URL_parses w).
  { apply reach_step. apply reach_empty. reflexivity. }
  split; [exact Hw|].
  exact (registry_public_keys_stay_unique StandIn.PBKDF2 StandIn.AES_encrypt StandIn.Base64_stringify StandIn.URL_parses w Hw).
Defined.

(** X9 at the record that one registration writes. *)
Lemma reachable_device_is_loaded_by_its_key_witness :
  let key := "0000000000000000000000000000000000000000000000000000000000000001" in
  let pk := "0479be667ef9dcbbac55a06295ce870b07029bfcdb2dce28d959f2815b16f81798483ada7726a3c4655da4fbfc0e1108a8fd17b448a68554199c47d08ffb10d4b8" in
  let url := "https://relay.scaler.icu" in
  let w := snd (run StandIn.PBKDF2 StandIn.AES_encrypt StandIn.Base64_stringify StandIn.URL_parses
                  (Add key "laptop" url "123456") StandIn.world) in
  let d := mkDevice pk "laptop" url
             (encryptWith StandIn.PBKDF2 StandIn.AES_encrypt StandIn.Base64_stringify
                (fst (getRandomBytes 16 StandIn.world))
                (fst (getRandomBytes 16 (snd (getRandomBytes 16 StandIn.world))))
                key "123456") in
  (Reachable StandIn.PBKDF2 StandIn.AES_encrypt StandIn.Base64_stringify StandIn.URL_parses w
   /\ In d (registry w))
  /\ loadDevice pk w = (Found d, w)
  /\ loadEditForm pk w = (None, ("laptop", url), w).
Proof.
  intros key pk url w d.
  assert (Hw : Reachable StandIn.PBKDF2 StandIn.AES_encrypt StandIn.Base64_stringify StandIn.URL_parses w).
  { apply reach_step. apply reach_empty. reflexivity. }
  assert (Hv : validateInputs StandIn.URL_parses key "laptop" url "123456" = None)
    by reflexivity.
  assert (Hp : getPublicKey key = Some pk) by (vm_compute; reflexivity).
  assert (Hin : In d (registry w)).
  { unfold w. cbn [run].
    rewrite (saveDevice_success StandIn.PBKDF2 StandIn.AES_encrypt StandIn.Base64_stringify StandIn.URL_parses
               key "laptop" url "123456" pk StandIn.world Hv Hp
               (fun H => match H with end) (fun H => match H with end)).
    left. reflexivity. }
  split; [split; [exact Hw | exact Hin]|].
  exact (reachable_device_is_loaded_by_its_key StandIn.PBKDF2 StandIn.AES_encrypt StandIn.Base64_stringify StandIn.URL_parses w d Hw Hin).
Defined.

(** X10 at an edit with a blank name, which validation rejects. *)
Lemma failed_operation_leaves_the_file_witness :
  let op := Update "0479be667ef9dcbbac55a06295ce870b07029bfcdb2dce28d959f2815b16f81798483ada7726a3c4655da4fbfc0e1108a8fd17b448a68554199c47d08ffb10d4b8" " " "https://relay.scaler.icu" in
  title (fst (run StandIn.PBKDF2 StandIn.AES_encrypt StandIn.Base64_stringify StandIn.URL_parses op StandIn.oneDevice)) <> "Success"
  /\ file (snd (run StandIn.PBKDF2 StandIn.AES_encrypt StandIn.Base64_stringify StandIn.URL_parses op StandIn.oneDevice))
     = file StandIn.oneDevice.
Proof.
  intros op.
  assert (Ht : title (fst (run StandIn.PBKDF2 StandIn.AES_encrypt StandIn.Base64_stringify StandIn.URL_parses op StandIn.oneDevice)) <> "Success")
    by (vm_compute; discriminate).
  split; [exact Ht|].
  exact (failed_operation_leaves_the_file StandIn.PBKDF2 StandIn.AES_encrypt StandIn.Base64_stringify StandIn.URL_parses op StandIn.oneDevice Ht).
Defined.

(** X11 at the command "shutdown+20240101000000" signed with the key 1. *)
Lemma signCommand_signature_is_compact_and_low_s_witness :
  let key := "0000000000000000000000000000000000000000000000000000000000000001" in
  exists res,
    fst (signCommand StandIn.SHA256 StandIn.HmacSHA256
           "shutdown+20240101000000" key StandIn.world) = Some res
    /\ String.length (signatureHex res) = 128%nat
    /\ exists r s,
         signatureHex res = hexOfBytes (Noble.n2b r ++ Noble.n2b s)
         /\ 0 < r < Noble.N /\ 0 < s <= Noble.N / 2.
Proof.
  intros key.
  destruct (fst (signCommand StandIn.SHA256 StandIn.HmacSHA256
                   "shutdown+20240101000000" key StandIn.world)) as [res|] eqn:Es;
    [|vm_compute in Es; discriminate Es].
  exists res. split; [reflexivity|].
  destruct (signCommand_signature_is_compact_and_low_s
              StandIn.SHA256 StandIn.HmacSHA256 "shutdown+20240101000000" key
              StandIn.world res Es) as (Hrs & Hlen & _).
  split; [exact Hlen | exact Hrs].
Defined.

(** X13 at the registration of the key 1 followed by "shutdown" at the
    first second of 2024. *)
Lemma registered_device_signs_with_the_key_typed_witness :
  let key := "0000000000000000000000000000000000000000000000000000000000000001" in
  let pk := "0479be667ef9dcbbac55a06295ce870b07029bfcdb2dce28d959f2815b16f81798483ada7726a3c4655da4fbfc0e1108a8fd17b448a68554199c47d08ffb10d4b8" in
  let url := "https://relay.scaler.icu" in
  let add := saveDevice StandIn.PBKDF2 StandIn.AES_encrypt StandIn.Base64_stringify StandIn.URL_parses
               key "laptop" url "123456" in
  let w1 := snd (add StandIn.world) in
  let command_ := "shutdown" +++ "+" +++ timestampOf (clock StandIn.world) in
  (validateInputs StandIn.URL_parses key "laptop" url "123456" = None
   /\ getPublicKey key = Some pk
   /\ ~ In "laptop" (map deviceName (registry StandIn.world))
   /\ ~ In pk (map pubkey (registry StandIn.world))
   /\ isEmpty "shutdown" = false
   /\ 0 <= Date.YearFromTime (clock StandIn.world) <= 9999)
  /\ exists dev,
       loadDevice pk w1 = (Found dev, w1)
       /\ pubkey dev = pk
       /\ match fst (signCommand StandIn.SHA256 StandIn.HmacSHA256 command_ key w1) with
          | Some res =>
              sent (snd (handleSign StandIn.PBKDF2 StandIn.AES_decrypt StandIn.Base64_parse StandIn.Utf8_stringify
                           StandIn.SHA256 StandIn.HmacSHA256
                           (Some dev) "shutdown" "123456" w1))
              = SendCommand (dropFinalSlash url +++ "/api/request/send-command")
                  pk (signatureHex res) command_ :: sent StandIn.world
          | None =>
              handleSign StandIn.PBKDF2 StandIn.AES_decrypt StandIn.Base64_parse StandIn.Utf8_stringify
                StandIn.SHA256 StandIn.HmacSHA256 (Some dev) "shutdown" "123456" w1
              = (Alerted (mkAlert "Error" "Failed to sign command."), w1)
          end.
Proof.
  intros key pk url add w1 command_.
  assert (Hv : validateInputs StandIn.URL_parses key "laptop" url "123456" = None)
    by reflexivity.
  assert (Hp : getPublicKey key = Some pk) by (vm_compute; reflexivity).
  assert (Hn : ~ In "laptop" (map deviceName (registry StandIn.world)))
    by (intros []).
  assert (Hk : ~ In pk (map pubkey (registry StandIn.world))) by (intros []).
  assert (Ha : isEmpty "shutdown" = false) by reflexivity.
  assert (Hy : 0 <= Date.YearFromTime (clock StandIn.world) <= 9999)
    by (change (Date.YearFromTime (clock StandIn.world)) with 2024; lia).
  split;
    [split; [exact Hv | split; [exact Hp | split; [exact Hn | split;
       [exact Hk | split; [exact Ha | exact Hy]]]]]|].
  exact (registered_device_signs_with_the_key_typed
           StandIn.PBKDF2 StandIn.AES_encrypt StandIn.AES_decrypt
           StandIn.Base64_stringify StandIn.Base64_parse StandIn.Utf8_stringify
           StandIn.SHA256 StandIn.HmacSHA256 StandIn.URL_parses
           standin_PBKDF2_length
             (fun m k iv _ _ => standin_AES_inverse m k iv)
             Buffer_from_hex_hexOfBytes standin_Utf8_inverse
           key "laptop" url "123456" pk "shutdown" StandIn.world
           Hv Hp Hn Hk Ha Hy).
Defined.

(** X16 at the home screen opened on [StandIn.oneDevice]. *)
Lemma home_screen_lists_the_registry_witness :
  let d := mkDevice "0479be667ef9dcbbac55a06295ce870b07029bfcdb2dce28d959f2815b16f81798483ada7726a3c4655da4fbfc0e1108a8fd17b448a68554199c47d08ffb10d4b8"
             "desktop" "https://relay.scaler.icu" "blob" in
  let listed := fst (loadDevices [] StandIn.oneDevice) in
  let polled :=
    fst (checkAllDevices StandIn.Date_parse listed listed
           (snd (loadDevices [] StandIn.oneDevice))) in
  file StandIn.oneDevice = Stored [d]
  /\ listed = [mkHomeDevice d false true]
  /\ map device polled = [d]
  /\ Forall (fun h => isLoading h = false) polled.
Proof.
  intros d listed polled.
  assert (Hf : file StandIn.oneDevice = Stored [d]) by reflexivity.
  split; [exact Hf|]. split; [reflexivity|].
  destruct (home_screen_lists_the_registry StandIn.Date_parse [] StandIn.oneDevice
              [d] Hf) as (_ & _ & _ & H1 & H2).
  split; [exact H1 | exact H2].
Defined.

(** X17 at [StandIn.world], which has no devices file. *)
Lemma unreadable_file_on_each_screen_witness :
  (file StandIn.world = Missing \/ file StandIn.world = Garbled)
  /\ loadDevices [] StandIn.world = ([], StandIn.world)
  /\ loadDevice "04ab" StandIn.world
     = (NotLoaded (mkAlert "Error" "Devices file not found."), StandIn.world)
  /\ loadEditForm "04ab" StandIn.world
     = (Some (mkAlert "Error" "Failed to load device details"), ("", ""),
        StandIn.world).
Proof.
  assert (Hf : file StandIn.world = Missing \/ file StandIn.world = Garbled)
    by (left; reflexivity).
  split; [exact Hf|].
  destruct (unreadable_file_on_each_screen [] "04ab" StandIn.world Hf)
    as (H1 & H2 & _ & H4).
  split; [exact H1|]. split; [exact (H2 eq_refl) | exact H4].
Defined.

(** X19 at the first second of 2024. *)
Lemma timestamp_is_read_back_to_the_second_witness :
  0 <= Date.YearFromTime 1704067200000 <= 9999
  /\ formatTime (Date.toISOString 1704067200000) = "20240101000000"
  /\ lastFetchedIso (formatTime (Date.toISOString 1704067200000))
     = JS.slice (Date.toISOString 1704067200000) 0 (Some 19) +++ "Z".
Proof.
  assert (Hy : 0 <= Date.YearFromTime 1704067200000 <= 9999)
    by (change (Date.YearFromTime 1704067200000) with 2024; lia).
  split; [exact Hy|]. split; [reflexivity|].
  exact (timestamp_is_read_back_to_the_second 1704067200000 Hy).
Defined.

(** X22 at the deletion of the one device of [StandIn.oneDevice]. *)
Lemma names_stay_unique_under_add_and_delete_witness :
  let op := Remove "0479be667ef9dcbbac55a06295ce870b07029bfcdb2dce28d959f2815b16f81798483ada7726a3c4655da4fbfc0e1108a8fd17b448a68554199c47d08ffb10d4b8" in
  NoDup (map deviceName (registry StandIn.oneDevice))
  /\ NoDup (map deviceName
              (registry (snd (run StandIn.PBKDF2 StandIn.AES_encrypt StandIn.Base64_stringify StandIn.URL_parses op StandIn.oneDevice)))).
Proof.
  intros op.
  assert (Hnd : NoDup (map deviceName (registry StandIn.oneDevice))).
  { cbn. constructor; [intros [] | constructor]. }
  split; [exact Hnd|].
  exact (names_stay_unique_under_add_and_delete StandIn.PBKDF2 StandIn.AES_encrypt StandIn.Base64_stringify StandIn.URL_parses op StandIn.oneDevice I Hnd).
Defined.

(** X23 at the registration of the key 1 in a world with no devices file. *)
Lemma deleteDevice_undoes_saveDevice_witness :
  let key := "0000000000000000000000000000000000000000000000000000000000000001" in
  let pk := "0479be667ef9dcbbac55a06295ce870b07029bfcdb2dce28d959f2815b16f81798483ada7726a3c4655da4fbfc0e1108a8fd17b448a68554199c47d08ffb10d4b8" in
  let url := "https://relay.scaler.icu" in
  let add := saveDevice StandIn.PBKDF2 StandIn.AES_encrypt StandIn.Base64_stringify StandIn.URL_parses
               key "laptop" url "123456" in
  (validateInputs StandIn.URL_parses key "laptop" url "123456" = None
   /\ getPublicKey key = Some pk
   /\ ~ In "laptop" (map deviceName (registry StandIn.world))
   /\ ~ In pk (map pubkey (registry StandIn.world)))
  /\ registry (snd (deleteDevice pk (snd (add StandIn.world))))
     = registry StandIn.world.
Proof.
  intros key pk url add.
  assert (Hv : validateInputs StandIn.URL_parses key "laptop" url "123456" = None)
    by reflexivity.
  assert (Hp : getPublicKey key = Some pk) by (vm_compute; reflexivity).
  assert (Hn : ~ In "laptop" (map deviceName (registry StandIn.world)))
    by (intros []).
  assert (Hk : ~ In pk (map pubkey (registry StandIn.world))) by (intros []).
  split; [split; [exact Hv | split; [exact Hp | split; [exact Hn | exact Hk]]]|].
  exact (proj2 (deleteDevice_undoes_saveDevice StandIn.PBKDF2 StandIn.AES_encrypt StandIn.Base64_stringify StandIn.URL_parses
                  key "laptop" url "123456" pk StandIn.world Hv Hp Hn Hk)).
Defined.
